(** * StreamKit gain plugins: the native C plugin and the component-model plugin

A shallow embedding of
  examples/plugins/gain-native-c/gain_plugin.c   (module [Native])
  examples/plugins/gain-native-c/streamkit_plugin.h
  examples/plugins/gain-wasm-c/gain_plugin.c     (module [Wasm])
and the properties of the node plugin contract that the two plugins
are expected to meet.

C [float] is IEEE 754 binary32; it is modelled by [spec_float] of the
Standard Library with precision 24 and exponent bound 128.  Pointers
are numbers with 0 as NULL, the allocated instance states live in a
finite map, and whatever the C library decides (the outcome of malloc,
strtof, sscanf, powf, printf formatting) is either an explicit oracle
of the world or a member of the class [Libc]. *)

From Stdlib Require Import ZArith NArith List String Ascii Lia Bool.
From Stdlib Require Import Floats.SpecFloat.
From stdpp Require Import base option gmap.

Import ListNotations.
Local Open Scope Z_scope.

(* ================================================================== *)
(** ** binary32 arithmetic *)
(* ================================================================== *)

Module F32.

Definition prec : Z := 24.
Definition emax : Z := 128.

Definition f32 : Type := spec_float.

Definition of_Z (n : Z) : f32 := binary_normalize prec emax n 0 false.

Definition mul (x y : f32) : f32 := SFmul prec emax x y.
Definition div (x y : f32) : f32 := SFdiv prec emax x y.
Definition ltb (x y : f32) : bool := SFltb x y.
Definition gtb (x y : f32) : bool := SFltb y x.
Definition leb (x y : f32) : bool := SFleb x y.

Definition nan : f32 := S754_nan.
Definition pos_zero : f32 := S754_zero false.
Definition infinity (neg : bool) : f32 := S754_infinity neg.

Definition is_nan (x : f32) : bool :=
  match x with S754_nan => true | _ => false end.

(** [min <= x <= max] as C evaluates it on floats: false as soon as [x]
    is a NaN. *)
Definition within (lo hi x : f32) : bool := leb lo x && leb x hi.

(** The binary32 nearest (ties to even) to [(-1)^neg * m * 10^e10], [m >= 0]:
    what a correctly rounding decimal conversion returns. *)
Definition of_decimal (neg : bool) (m e10 : Z) : f32 :=
  if m =? 0 then S754_zero neg
  else if 0 <=? e10 then
    binary_normalize prec emax (cond_Zopp neg (m * 10 ^ e10)) 0 neg
  else
    let '(q, e, loc) := SFdiv_core_binary prec emax m 0 (10 ^ (- e10)) 0 in
    binary_round_aux prec emax neg q e loc.

(** [(-1)^neg * m * 2^e2] rounded to binary32 (hexadecimal literals). *)
Definition of_binary (neg : bool) (m e2 : Z) : f32 :=
  binary_normalize prec emax (cond_Zopp neg m) e2 neg.

End F32.

Abbreviation f32 := F32.f32.

(* ================================================================== *)
(** ** C strings *)
(* ================================================================== *)

(** A C string is the sequence of characters before its terminator. *)
Module CStr.

Local Open Scope string_scope.

Fixpoint starts_with (p s : string) : bool :=
  match p, s with
  | EmptyString, _ => true
  | String a p', String b s' => Ascii.eqb a b && starts_with p' s'
  | String _ _, EmptyString => false
  end.

(** [strstr hay needle]: the suffix of [hay] at the first occurrence of
    [needle], or [None] (a null pointer). *)
Fixpoint strstr (hay needle : string) : option string :=
  if starts_with needle hay then Some hay
  else match hay with
       | EmptyString => None
       | String _ t => strstr t needle
       end.

(** [strchr s c] for a character [c] other than the terminator. *)
Fixpoint strchr (s : string) (c : ascii) : option string :=
  match s with
  | EmptyString => None
  | String a t => if Ascii.eqb a c then Some s else strchr t c
  end.

(** [p + n] on a pointer into a string. *)
Fixpoint advance (n : nat) (s : string) : string :=
  match n, s with
  | O, _ => s
  | S n', String _ t => advance n' t
  | S _, EmptyString => EmptyString
  end.

Definition strlen (s : string) : nat := String.length s.

(** [snprintf(buf, size, ...)] keeps at most [size - 1] characters. *)
Definition truncate (size : nat) (s : string) : string :=
  String.substring 0 (Nat.pred size) s.

End CStr.

(** The double quote character, and a word between double quotes. *)
Definition dquote : ascii := ascii_of_nat 34.
Definition quoted (s : string) : string :=
  String dquote (String.append s (String dquote EmptyString)).

(* ================================================================== *)
(** ** What the plugins take from the C library *)
(* ================================================================== *)

Class Libc := {
  (** [strtof p &end]: [Some (v, rest)] when a number was converted and
      [end] points at [rest]; [None] when [end == p]. *)
  strtof : string -> option (f32 * string);
  (** [sscanf(p, "%f", &v)]: [Some v] when it returns 1. *)
  sscanf_f : string -> option f32;
  powf : f32 -> f32 -> f32;
  (** the text of [printf("%.<digits>f", x)] *)
  fmt_f : nat -> f32 -> string;
}.

(** C99 F.9.4.4: [pow(x, +-0)] is 1 for every [x], even a NaN. *)
Definition powf_zero_exponent (L : Libc) : Prop :=
  forall x s, powf x (S754_zero s) = F32.of_Z 1.

(* ================================================================== *)
(** ** A reference C library *)
(* ================================================================== *)

(** An executable [Libc], used to run the plugins on concrete payloads.
    Number conversion follows C99 7.20.1.3 and is correctly rounded; [powf]
    follows C99 F.9.4.4 and rounds the exact power. *)
Module RefLibc.

Local Open Scope string_scope.
Local Open Scope Z_scope.

Definition code (c : ascii) : Z := Z.of_nat (nat_of_ascii c).

Definition isspace (c : ascii) : bool :=
  (code c =? 32) || ((9 <=? code c) && (code c <=? 13)).

Definition digit_val (c : ascii) : option Z :=
  if (48 <=? code c) && (code c <=? 57) then Some (code c - 48) else None.

Definition hex_val (c : ascii) : option Z :=
  if (48 <=? code c) && (code c <=? 57) then Some (code c - 48)
  else if (97 <=? code c) && (code c <=? 102) then Some (code c - 87)
  else if (65 <=? code c) && (code c <=? 70) then Some (code c - 55)
  else None.

Definition lower (c : ascii) : ascii :=
  if (65 <=? code c) && (code c <=? 90)
  then ascii_of_nat (nat_of_ascii c + 32) else c.

Fixpoint skip_space (s : string) : string :=
  match s with
  | String c t => if isspace c then skip_space t else s
  | EmptyString => s
  end.

(** Reads digits of base [base], continuing the number [acc]; returns
    the number, how many digits were read, and the rest. *)
Fixpoint read_digits (val : ascii -> option Z) (base : Z)
         (s : string) (acc : Z) (count : nat) : Z * nat * string :=
  match s with
  | String c t =>
      match val c with
      | Some d => read_digits val base t (acc * base + d) (S count)
      | None => (acc, count, s)
      end
  | EmptyString => (acc, count, s)
  end.

(** Case-insensitive match of the lower-case word [w] at the head of [s]. *)
Fixpoint match_word (w s : string) : option string :=
  match w, s with
  | EmptyString, _ => Some s
  | String a w', String b s' =>
      if Ascii.eqb a (lower b) then match_word w' s' else None
  | String _ _, EmptyString => None
  end.

Definition read_sign (s : string) : bool * string :=
  match s with
  | String "-" t => (true, t)
  | String "+" t => (false, t)
  | _ => (false, s)
  end.

(** The exponent part after the marker [mark] (e or p).  A marker that
    is not followed by digits is left unread. *)
Definition read_exponent (mark : ascii) (s : string) : Z * string :=
  match s with
  | String c t =>
      if Ascii.eqb (lower c) mark then
        let '(neg, t1) := read_sign t in
        let '(v, n, rest) := read_digits digit_val 10 t1 0 0 in
        match n with
        | O => (0, s)
        | S _ => (cond_Zopp neg v, rest)
        end
      else (0, s)
  | EmptyString => (0, s)
  end.

Definition read_decimal (neg : bool) (s : string) : option (f32 * string) :=
  let '(m1, n1, s1) := read_digits digit_val 10 s 0 0 in
  let '(m2, n2, s2) :=
    match s1 with
    | String "." t => read_digits digit_val 10 t m1 0
    | _ => (m1, O, s1)
    end in
  match (n1 + n2)%nat with
  | O => None
  | S _ =>
      let '(e, rest) := read_exponent "e" s2 in
      Some (F32.of_decimal neg m2 (e - Z.of_nat n2), rest)
  end.

(** After [0x]: hexadecimal digits with an optional radix point and an
    optional binary exponent. *)
Definition read_hex (neg : bool) (s : string) : option (f32 * string) :=
  let '(m1, n1, s1) := read_digits hex_val 16 s 0 0 in
  let '(m2, n2, s2) :=
    match s1 with
    | String "." t => read_digits hex_val 16 t m1 0
    | _ => (m1, O, s1)
    end in
  match (n1 + n2)%nat with
  | O => None
  | S _ =>
      let '(e, rest) := read_exponent "p" s2 in
      Some (F32.of_binary neg m2 (e - 4 * Z.of_nat n2), rest)
  end.

Definition is_nchar (c : ascii) : bool :=
  match hex_val c with
  | Some _ => true
  | None => ((97 <=? code (lower c)) && (code (lower c) <=? 122))
            || (code c =? 95)
  end.

Fixpoint skip_nchars (s : string) : string :=
  match s with
  | String c t => if is_nchar c then skip_nchars t else s
  | EmptyString => s
  end.

(** INF, INFINITY, NAN and NAN(n-char-sequence), ignoring case.  [strtof]
    takes the longest word that matches and leaves the rest unread.
    [scanf] ([strict]) reads on as long as the input continues a word, and
    an item such as [infinit], which starts the longer word and does not
    finish it, is a matching failure. *)
Definition read_special (strict neg : bool) (s : string)
  : option (f32 * string) :=
  match match_word "inf" s with
  | Some r =>
      match match_word "inity" r with
      | Some r' => Some (F32.infinity neg, r')
      | None =>
          match match_word "i" r with
          | Some _ => if strict then None else Some (F32.infinity neg, r)
          | None => Some (F32.infinity neg, r)
          end
      end
  | None =>
      match match_word "nan" s with
      | Some r =>
          match r with
          | String "(" t =>
              match skip_nchars t with
              | String ")" r' => Some (F32.nan, r')
              | _ => Some (F32.nan, r)
              end
          | _ => Some (F32.nan, r)
          end
      | None => None
      end
  end.

(** The number at the head of [s], after white space and a sign, and the
    text that follows it.  [strict] is the reading of [scanf], which differs
    from [strtof] where an item breaks off inside a word or after the
    prefix [0x].  C libraries disagree on such items; this follows the GNU C
    library, which for the rest accepts what [strtof] accepts. *)
Definition parse_float (strict : bool) (s : string)
  : option (f32 * string) :=
  let '(neg, s1) := read_sign (skip_space s) in
  match read_special strict neg s1 with
  | Some r => Some r
  | None =>
      match match_word "0x" s1 with
      | Some h =>
          match read_hex neg h with
          | Some r => Some r
          | None =>
              match h with
              | String "." _ => read_decimal neg s1
              | _ => if strict then None else read_decimal neg s1
              end
          end
      | None => read_decimal neg s1
      end
  end.

(** Decimal digits of a natural number, most significant first. *)
Definition digit_char (d : Z) : ascii := ascii_of_nat (Z.to_nat (48 + d)).

Fixpoint digits_of (fuel : nat) (n : Z) (acc : string) : string :=
  match fuel with
  | O => acc
  | S fuel' =>
      let acc' := String (digit_char (n mod 10)) acc in
      if n / 10 =? 0 then acc' else digits_of fuel' (n / 10) acc'
  end.

(** The text of [%d], [%u] and [%zu] for a number. *)
Definition fmt_int (n : Z) : string :=
  if n <? 0 then "-" ++ digits_of (S (Z.to_nat (Z.log2 (- n)))) (- n) EmptyString
  else digits_of (S (Z.to_nat (Z.log2 n))) n EmptyString.

Definition pad_left (width : nat) (s : string) : string :=
  match (width - String.length s)%nat with
  | O => s
  | S k => String.append (string_of_list_ascii (repeat "0"%char (S k))) s
  end.

(** [m * 2^e * 10^digits] rounded to the nearest integer, ties to even. *)
Definition scaled_round (m e : Z) (digits : nat) : Z :=
  let num := m * 10 ^ Z.of_nat digits in
  if 0 <=? e then num * 2 ^ e
  else
    let den := 2 ^ (- e) in
    let q := num / den in
    let r := num mod den in
    match 2 * r ?= den with
    | Lt => q
    | Gt => q + 1
    | Eq => if Z.even q then q else q + 1
    end.

Definition fmt_fixed (digits : nat) (x : f32) : string :=
  let body n :=
    let scale := 10 ^ Z.of_nat digits in
    match digits with
    | O => fmt_int (n / scale)
    | S _ => fmt_int (n / scale) ++ "."
             ++ pad_left digits (fmt_int (n mod scale))
    end in
  match x with
  | S754_nan => "nan"
  | S754_infinity s => if s then "-inf" else "inf"
  | S754_zero s => (if s then "-" else EmptyString) ++ body 0
  | S754_finite s m e =>
      (if s then "-" else EmptyString) ++ body (scaled_round (Zpos m) e digits)
  end.

Definition is_integral (x : f32) : option Z :=
  match x with
  | S754_zero _ => Some 0
  | S754_finite s m e =>
      if 0 <=? e then Some (cond_Zopp s (Zpos m * 2 ^ e))
      else if (Zpos m) mod 2 ^ (- e) =? 0
           then Some (cond_Zopp s (Zpos m / 2 ^ (- e)))
           else None
  | _ => None
  end.

(** Whether an integral float is odd. *)
Definition is_odd (y : f32) : bool :=
  match is_integral y with
  | Some n => Z.odd n
  | None => false
  end.

Definition sign_bit (x : f32) : bool :=
  match x with
  | S754_zero s | S754_infinity s | S754_finite s _ _ => s
  | S754_nan => false
  end.

(** Fixed-point numbers: the integer [a] stands for [a / 2^fix_bits]. *)
Definition fix_bits : Z := 160.
Definition fix_one : Z := 2 ^ fix_bits.

(** [sum of z^(2k+1) / (2k+1)], the series of [atanh z], on fixed-point
    numbers: [pw] is the current odd power of [z], [z2] is [z^2]. *)
Fixpoint atanh_series (fuel : nat) (pw z2 k acc : Z) : Z :=
  match fuel with
  | O => acc
  | S fuel' =>
      atanh_series fuel' (pw * z2 / fix_one) z2 (k + 2) (acc + pw / k)
  end.

(** [ln (num / den)] for [den <= num <= 2 * den], from
    [ln t = 2 atanh ((t - 1) / (t + 1))]. *)
Definition ln_ratio (num den : Z) : Z :=
  let z := (num - den) * fix_one / (num + den) in
  2 * atanh_series 60 z (z * z / fix_one) 1 0.

Definition ln_2 : Z := Eval vm_compute in ln_ratio 2 1.

(** [ln (m * 2^e)] for [m > 0]. *)
Definition ln_finite (m : positive) (e : Z) : Z :=
  let b := Z.log2 (Zpos m) in
  (e + b) * ln_2 + ln_ratio (Zpos m) (2 ^ b).

(** [sum of r^n / n!], the series of [exp r], for a small [r]. *)
Fixpoint exp_series (fuel : nat) (term r n acc : Z) : Z :=
  match fuel with
  | O => acc
  | S fuel' =>
      exp_series fuel' (term * r / (fix_one * n)) r (n + 1) (acc + term)
  end.

(** [(m * 2^e) ^ y] for [m > 0] and a finite [y], as [exp (y ln x)]: the
    value is computed to far more digits than a binary32 holds and rounded
    once.  Results beyond the range of binary32 are an infinity or a
    zero. *)
Definition pow_real (neg : bool) (m : positive) (e : Z) (y : f32) : f32 :=
  match y with
  | S754_finite sy my ey =>
      let w := Z.shiftl (cond_Zopp sy (Zpos my) * ln_finite m e) ey in
      if 400 * fix_one <? w then S754_infinity neg
      else if w <? - (400 * fix_one) then S754_zero neg
      else
        let k := (2 * w + ln_2) / (2 * ln_2) in
        let r := w - k * ln_2 in
        F32.of_binary neg (exp_series 60 fix_one r 1 0) (k - fix_bits)
  | _ => F32.nan
  end.

(** [x ^ n] for a finite nonzero [x = (-1)^s * m * 2^e] and a small integer
    [n], computed exactly and rounded once. *)
Definition pow_integral (s : bool) (m : positive) (e n : Z) : f32 :=
  let neg := s && Z.odd n in
  if 0 <=? n then F32.of_binary neg (Zpos m ^ n) (e * n)
  else
    let '(q, e', loc) :=
      SFdiv_core_binary F32.prec F32.emax
                        1 0 (Zpos m ^ (- n)) (e * (- n)) in
    binary_round_aux F32.prec F32.emax neg q e' loc.

(** [powf], with the special values of C99 F.9.4.4.  A power of a finite
    nonzero base is exact for a small integral exponent and is otherwise
    evaluated by [pow_real]; a C library may differ from it in the last
    bit, since C does not ask [powf] to round correctly. *)
Definition powf_rational (x y : f32) : f32 :=
  match y with
  | S754_zero _ => F32.of_Z 1
  | _ =>
      if SFeqb x (F32.of_Z 1) then F32.of_Z 1
      else
        match x, y with
        | S754_nan, _ | _, S754_nan => F32.nan
        | S754_zero s, _ =>
            if sign_bit y then S754_infinity (s && is_odd y)
            else S754_zero (s && is_odd y)
        | S754_infinity s, _ =>
            if sign_bit y then S754_zero (s && is_odd y)
            else S754_infinity (s && is_odd y)
        | S754_finite s m e, S754_infinity sy =>
            if SFeqb x (F32.of_Z (-1)) then F32.of_Z 1
            else if Bool.eqb (SFltb (SFabs x) (F32.of_Z 1)) sy
                 then S754_infinity false
                 else S754_zero false
        | S754_finite s m e, _ =>
            match is_integral y with
            | Some n =>
                if Z.abs n <=? 64 then pow_integral s m e n
                else pow_real (s && Z.odd n) m e y
            | None => if s then F32.nan else pow_real false m e y
            end
        end
  end.

(** [sscanf] with [%f] skips white space and converts the same subject
    sequence as [strtof] (C99 7.19.6.2). *)
Definition scan_float (s : string) : option f32 :=
  match parse_float true s with
  | Some (v, _) => Some v
  | None => None
  end.

#[export] Instance libc : Libc := {|
  strtof := parse_float false;
  sscanf_f := scan_float;
  powf := powf_rational;
  fmt_f := fmt_fixed;
|}.

End RefLibc.

(* ================================================================== *)
(** ** Calls that may go wrong *)
(* ================================================================== *)

(** Pointers: 0 is NULL, [Npos a] is the address [a]. *)
Definition ptr : Type := N.
Definition NULL : ptr := 0%N.

(** Behaviour that C leaves undefined and that a call can run into. *)
Inductive fault : Type :=
| NullDeref        (* read or write through NULL *)
| DanglingPointer  (* read or write through a pointer to no live object *)
| OutOfBounds      (* index past the end of an array *)
| BadCast          (* a payload pointer read at the wrong type *)
| DoubleFree.      (* free of a pointer to no live object *)

Inductive outcome (A : Type) : Type :=
| Ret (a : A)
| Fault (f : fault).

Arguments Ret {A} a.
Arguments Fault {A} f.

(** A call on the world [W]: it returns a value and the next world, or
    runs into a fault. *)
Definition call (W A : Type) : Type := W -> outcome (A * W).

Definition ret {W A : Type} (a : A) : call W A := fun w => Ret (a, w).

Definition fail {W A : Type} (f : fault) : call W A := fun _ => Fault f.

Definition bind {W A B : Type} (c : call W A) (k : A -> call W B) : call W B :=
  fun w => match c w with
           | Ret (a, w') => k a w'
           | Fault f => Fault f
           end.

Declare Scope call_scope.
Delimit Scope call_scope with call.

Notation "x <- c ;; k" := (bind c (fun x => k))
  (at level 100, c at next level, right associativity) : call_scope.
Notation "c ;;; k" := (bind c (fun _ => k))
  (at level 100, right associativity) : call_scope.

(* ================================================================== *)
(** ** streamkit_plugin.h: the native plugin ABI *)
(* ================================================================== *)

Module Abi.

Local Open Scope string_scope.

Definition STREAMKIT_NATIVE_PLUGIN_API_VERSION : N := 2.

Definition CPluginHandle : Type := ptr.

Inductive CLogLevel : Type :=
| LOG_LEVEL_TRACE | LOG_LEVEL_DEBUG | LOG_LEVEL_INFO
| LOG_LEVEL_WARN | LOG_LEVEL_ERROR.

(** A host function pointer; 0 is the null callback. *)
Definition CLogCallback : Type := ptr.

Record CResult : Type := {
  success : bool;
  error_message : option string;   (* NULL on success *)
}.

Definition CResult_success : CResult :=
  {| success := true; error_message := None |}.

Definition CResult_error (msg : string) : CResult :=
  {| success := false; error_message := Some msg |}.

Inductive CSampleFormat : Type := SAMPLE_FORMAT_F32 | SAMPLE_FORMAT_S16LE.

Record CAudioFormat : Type := {
  fmt_sample_rate : N;      (* uint32_t, 0 is the wildcard *)
  fmt_channels : N;         (* uint16_t, 0 is the wildcard *)
  sample_format : CSampleFormat;
}.

Record CAudioFrame : Type := {
  sample_rate : N;                (* uint32_t *)
  channels : N;                   (* uint16_t *)
  samples : option (list f32);    (* const float*: NULL, or the array it points to *)
  sample_count : N;               (* size_t *)
}.

Inductive CPacketType : Type :=
| PACKET_TYPE_RAW_AUDIO | PACKET_TYPE_OPUS_AUDIO | PACKET_TYPE_TEXT
| PACKET_TYPE_TRANSCRIPTION | PACKET_TYPE_CUSTOM | PACKET_TYPE_BINARY
| PACKET_TYPE_ANY | PACKET_TYPE_PASSTHROUGH.

Definition CPacketType_eqb (a b : CPacketType) : bool :=
  match a, b with
  | PACKET_TYPE_RAW_AUDIO, PACKET_TYPE_RAW_AUDIO
  | PACKET_TYPE_OPUS_AUDIO, PACKET_TYPE_OPUS_AUDIO
  | PACKET_TYPE_TEXT, PACKET_TYPE_TEXT
  | PACKET_TYPE_TRANSCRIPTION, PACKET_TYPE_TRANSCRIPTION
  | PACKET_TYPE_CUSTOM, PACKET_TYPE_CUSTOM
  | PACKET_TYPE_BINARY, PACKET_TYPE_BINARY
  | PACKET_TYPE_ANY, PACKET_TYPE_ANY
  | PACKET_TYPE_PASSTHROUGH, PACKET_TYPE_PASSTHROUGH => true
  | _, _ => false
  end.

Inductive CCustomEncoding : Type := CUSTOM_ENCODING_JSON.

Record CPacketMetadata : Type := {
  timestamp_us : N; has_timestamp_us : bool;
  duration_us : N; has_duration_us : bool;
  sequence : N; has_sequence : bool;
}.

Record CCustomPacket : Type := {
  type_id : string;
  encoding : CCustomEncoding;
  data_json : list ascii;
  metadata : option CPacketMetadata;
}.

Record CPacketTypeInfo : Type := {
  type_discriminant : CPacketType;
  audio_format : option CAudioFormat;   (* non-NULL only for RawAudio *)
  custom_type_id : option string;       (* non-NULL only for Custom *)
}.

(** What [CPacket.data] points to. *)
Inductive payload : Type :=
| DataNull
| DataAudioFrame (f : CAudioFrame)
| DataText (s : string)
| DataBytes (b : list ascii)
| DataCustom (c : CCustomPacket).

Record CPacket : Type := {
  packet_type : CPacketType;
  data : payload;     (* const void* *)
  len : N;            (* size_t *)
}.

Record CInputPin : Type := {
  in_name : string;
  accepts_types : list CPacketTypeInfo;
}.

Record COutputPin : Type := {
  out_name : string;
  produces_type : CPacketTypeInfo;
}.

Record CNodeMetadata : Type := {
  kind : string;
  description : option string;
  inputs : list CInputPin;
  outputs : list COutputPin;
  param_schema : string;
  categories : list string;
}.

(** The host's output callback: pin name, packet and user data to the
    result the host reports. *)
Definition COutputCallback : Type := string -> CPacket -> ptr -> CResult.

(** [sizeof(float)] and [sizeof(CAudioFrame)] on an LP64 target, and the
    range of [size_t]. *)
Definition sizeof_float : N := 4.
Definition sizeof_CAudioFrame : N := 24.
Definition SIZE_MODULUS : N := 2 ^ 64.

End Abi.

(* ================================================================== *)
(** ** gain-native-c/gain_plugin.c *)
(* ================================================================== *)

Module Native.

Import Abi.
Local Open Scope string_scope.
Local Open Scope call_scope.

(** Default linear gain (1.0 = unity, no change) *)
Definition DEFAULT_GAIN : f32 := F32.of_Z 1.
(** Minimum allowed gain (0.0 = mute) *)
Definition MIN_GAIN : f32 := F32.pos_zero.
(** Maximum allowed gain (4.0 = +12dB) *)
Definition MAX_GAIN : f32 := F32.of_Z 4.

Record GainPluginState : Type := {
  gain : f32;
  log_cb : CLogCallback;
  log_user_data : ptr;
}.

(** One call of the host's logging callback. *)
Record log_record : Type := {
  log_fn : CLogCallback;
  log_level : CLogLevel;
  log_target : string;
  log_message : string;
  log_data : ptr;
}.

(** One call of the host's output callback. *)
Record send_record : Type := {
  send_pin : string;
  send_packet : CPacket;
  send_data : ptr;
}.

(** The world of the plugin: the live instance states, whether the next
    calls of malloc succeed ([true]; past the end of the list every call
    succeeds), and the calls made to the host so far, oldest first. *)
Record world : Type := {
  heap : gmap positive GainPluginState;
  allocs : list bool;
  logged : list log_record;
  sent : list send_record;
}.

Definition set_heap (h : gmap positive GainPluginState) (w : world) : world :=
  {| heap := h; allocs := allocs w; logged := logged w; sent := sent w |}.

(** [malloc]: consumes one answer of the allocator. *)
Definition malloc_succeeds : call world bool :=
  fun w =>
    match allocs w with
    | [] => Ret (true, w)
    | b :: rest =>
        Ret (b, {| heap := heap w; allocs := rest;
                   logged := logged w; sent := sent w |})
    end.

(** [malloc(sizeof(GainPluginState))]: NULL, or the address of a new
    object, which holds [init] once its fields have been assigned. *)
Definition malloc_state (init : GainPluginState) : call world ptr :=
  ok <- malloc_succeeds ;;
  if ok : bool then
    fun w => let a := fresh (dom (heap w)) in
             Ret (Npos a, set_heap (<[a := init]> (heap w)) w)
  else ret NULL.

(** [*state] *)
Definition load (state : ptr) : call world GainPluginState :=
  fun w =>
    match state with
    | N0 => Fault NullDeref
    | Npos a =>
        match heap w !! a with
        | Some st => Ret (st, w)
        | None => Fault DanglingPointer
        end
    end.

(** [state->gain = g] *)
Definition store_gain (state : ptr) (g : f32) : call world unit :=
  st <- load state ;;
  fun w =>
    match state with
    | N0 => Fault NullDeref
    | Npos a =>
        Ret (tt, set_heap (<[a := {| gain := g; log_cb := log_cb st;
                                     log_user_data := log_user_data st |}]>
                             (heap w)) w)
    end.

(** [free(state)] *)
Definition free (state : ptr) : call world unit :=
  fun w =>
    match state with
    | N0 => Ret (tt, w)
    | Npos a =>
        match heap w !! a with
        | Some _ => Ret (tt, set_heap (delete a (heap w)) w)
        | None => Fault DoubleFree
        end
    end.

Definition host_log (r : log_record) : call world unit :=
  fun w => Ret (tt, {| heap := heap w; allocs := allocs w;
                       logged := logged w ++ [r]; sent := sent w |}).

Definition host_output (cb : COutputCallback) (pin : string)
           (packet : CPacket) (callback_data : ptr) : call world CResult :=
  fun w => Ret (cb pin packet callback_data,
                {| heap := heap w; allocs := allocs w; logged := logged w;
                   sent := sent w ++ [{| send_pin := pin;
                                         send_packet := packet;
                                         send_data := callback_data |}] |}).

(** Log a message using the host's logging callback *)
Definition plugin_log (state : ptr) (level : CLogLevel) (msg : string)
  : call world unit :=
  st <- load state ;;
  if (log_cb st =? NULL)%N then ret tt
  else host_log {| log_fn := log_cb st; log_level := level;
                   log_target := "gain_plugin_c"; log_message := msg;
                   log_data := log_user_data st |}.

Definition gain_key : string := quoted "gain".

(** [while ( *p && ( *p == ' ' || *p == '\t' || *p == ':')) p++;] *)
Fixpoint skip_to_value (p : string) : string :=
  match p with
  | String c t =>
      if Ascii.eqb c " " || Ascii.eqb c (ascii_of_nat 9) || Ascii.eqb c ":"
      then skip_to_value t else p
  | EmptyString => p
  end.

Section WithLibc.
  Context {L : Libc}.

(** Parse gain from JSON parameters; [None] is a null [json]. *)
Definition parse_gain (json : option string) : f32 :=
  match json with
  | None => DEFAULT_GAIN
  | Some EmptyString => DEFAULT_GAIN
  | Some j =>
      match CStr.strstr j gain_key with
      | None => DEFAULT_GAIN
      | Some key =>
          let p := skip_to_value (CStr.advance (CStr.strlen gain_key) key) in
          match strtof p with
          | None => DEFAULT_GAIN   (* end == p: no number found *)
          | Some (value, _) =>
              let value := if F32.ltb value MIN_GAIN then MIN_GAIN else value in
              let value := if F32.gtb value MAX_GAIN then MAX_GAIN else value in
              value
          end
      end
  end.

(** Create a new plugin instance *)
Definition gain_create_instance (params : option string)
           (log_callback : CLogCallback) (log_user_data : ptr)
  : call world CPluginHandle :=
  state <- malloc_state {| gain := parse_gain params;
                           log_cb := log_callback;
                           log_user_data := log_user_data |} ;;
  if (state =? NULL)%N then ret NULL
  else
    st <- load state ;;
    plugin_log state LOG_LEVEL_INFO
      (CStr.truncate 128
         ("Created gain plugin instance: gain=" ++ fmt_f 4 (gain st))) ;;;
    ret state.

(** [for (i = 0; i < sample_count; i++)
       output_samples[i] = input_frame->samples[i] * state->gain;]
    with [n] iterations left at index [i]; [capacity] is the number of
    floats the output buffer holds and [out] what has been written. *)
Fixpoint apply_gain (n : nat) (i : nat) (state : ptr)
         (input : list f32) (capacity : N) (out : list f32)
  : call world (list f32) :=
  match n with
  | O => ret out
  | S n' =>
      st <- load state ;;
      match nth_error input i with
      | None => fail OutOfBounds
      | Some x =>
          if (capacity <=? N.of_nat i)%N then fail OutOfBounds
          else apply_gain n' (S i) state input capacity
                          (out ++ [F32.mul x (gain st)])
      end
  end.

(** Process an incoming packet.  [packet] is what the packet pointer
    points to.  The output buffer lives for the call only: [malloc] is asked
    whether it can be had, its content is the list [output_samples], and
    [free(output_samples)] changes nothing in the heap of instance states. *)
Definition gain_process_packet (handle : CPluginHandle) (input_pin : string)
           (packet : CPacket) (output_callback : COutputCallback)
           (callback_data : ptr) : call world CResult :=
  if (handle =? NULL)%N then ret (CResult_error "Null handle")
  else
    let state := handle in
    if negb (CPacketType_eqb (packet_type packet) PACKET_TYPE_RAW_AUDIO)
    then ret (CResult_error "Gain plugin only accepts audio packets")
    else
      match data packet with
      | DataNull => ret (CResult_error "Invalid audio frame")
      | DataAudioFrame input_frame =>
          match samples input_frame with
          | None => ret (CResult_error "Invalid audio frame")
          | Some input =>
              let bytes :=
                ((sample_count input_frame * sizeof_float) mod SIZE_MODULUS)%N in
              ok <- malloc_succeeds ;;
              if ok : bool then
                output_samples <-
                  apply_gain (N.to_nat (sample_count input_frame)) 0 state
                             input (bytes / sizeof_float)%N [] ;;
                let output_frame :=
                  {| sample_rate := sample_rate input_frame;
                     channels := channels input_frame;
                     samples := Some output_samples;
                     sample_count := sample_count input_frame |} in
                let output_packet :=
                  {| packet_type := PACKET_TYPE_RAW_AUDIO;
                     data := DataAudioFrame output_frame;
                     len := sizeof_CAudioFrame |} in
                result <- host_output output_callback "out" output_packet
                                      callback_data ;;
                ret result
              else ret (CResult_error "Failed to allocate output buffer")
          end
      | _ => fail BadCast
      end.

(** Update runtime parameters *)
Definition gain_update_params (handle : CPluginHandle)
           (params : option string) : call world CResult :=
  if (handle =? NULL)%N then ret (CResult_error "Null handle")
  else
    let state := handle in
    st <- load state ;;
    let old_gain := gain st in
    store_gain state (parse_gain params) ;;;
    st' <- load state ;;
    plugin_log state LOG_LEVEL_INFO
      (CStr.truncate 128
         ("Updated gain: " ++ fmt_f 4 old_gain ++ " -> "
                           ++ fmt_f 4 (gain st'))) ;;;
    ret CResult_success.

End WithLibc.

(** Flush buffered data (no-op for this plugin) *)
Definition gain_flush (handle : CPluginHandle)
           (output_callback : COutputCallback) (callback_data : ptr)
  : call world CResult :=
  ret CResult_success.

(** Destroy plugin instance *)
Definition gain_destroy_instance (handle : CPluginHandle) : call world unit :=
  if (handle =? NULL)%N then ret tt
  else
    let state := handle in
    plugin_log state LOG_LEVEL_INFO "Destroying gain plugin instance" ;;;
    free state.

(** Static metadata *)
Definition g_audio_format : CAudioFormat :=
  {| fmt_sample_rate := 0;    (* Wildcard - accepts any sample rate *)
     fmt_channels := 0;       (* Wildcard - accepts any number of channels *)
     sample_format := SAMPLE_FORMAT_F32 |}.

Definition g_input_types : list CPacketTypeInfo :=
  [ {| type_discriminant := PACKET_TYPE_RAW_AUDIO;
       audio_format := Some g_audio_format;
       custom_type_id := None |} ].

Definition g_inputs : list CInputPin :=
  [ {| in_name := "in"; accepts_types := g_input_types |} ].

Definition g_outputs : list COutputPin :=
  [ {| out_name := "out";
       produces_type := {| type_discriminant := PACKET_TYPE_RAW_AUDIO;
                           audio_format := Some g_audio_format;
                           custom_type_id := None |} |} ].

Definition g_categories : list string := ["audio"; "filters"].

Definition g_param_schema : string :=
  "{"
  ++ "  " ++ quoted "type" ++ ": " ++ quoted "object" ++ ","
  ++ "  " ++ quoted "properties" ++ ": {"
  ++ "    " ++ quoted "gain" ++ ": {"
  ++ "      " ++ quoted "type" ++ ": " ++ quoted "number" ++ ","
  ++ "      " ++ quoted "description" ++ ": "
  ++ quoted "Linear gain multiplier. 0.0 = mute, 1.0 = unity (no change), 2.0 = +6dB, 4.0 = +12dB"
  ++ ","
  ++ "      " ++ quoted "default" ++ ": 1.0,"
  ++ "      " ++ quoted "minimum" ++ ": 0.0,"
  ++ "      " ++ quoted "maximum" ++ ": 4.0,"
  ++ "      " ++ quoted "tunable" ++ ": true"
  ++ "    }"
  ++ "  }"
  ++ "}".

Definition g_metadata : CNodeMetadata :=
  {| kind := "gain_c";
     description := Some "Audio gain (volume) filter implemented in C";
     inputs := g_inputs;
     outputs := g_outputs;
     param_schema := g_param_schema;
     categories := g_categories |}.

(** Get plugin metadata *)
Definition gain_get_metadata : CNodeMetadata := g_metadata.

(** The packet types the node declares for its input pins. *)
Definition accepted_types : list CPacketType :=
  flat_map (fun pin => map type_discriminant (accepts_types pin))
           (inputs gain_get_metadata).

End Native.

(* ================================================================== *)
(** ** gain-wasm-c/gain_plugin.c *)
(* ================================================================== *)

Module Wasm.

Local Open Scope string_scope.
Local Open Scope call_scope.

(** *** plugin.h, the generated bindings *)

(** Modelled from the spec: plugin.h, generated from the interface
    description, is not part of the sources.  Its types follow the data
    model of the contract: a string is a pointer with a length, an audio
    frame carries its sample list, a packet is a tagged payload, and a
    packet type is one of the eight tags. *)
Record plugin_string_t : Type := {
  ptr_ : option string;   (* NULL, or the characters it points to *)
  len_ : N;
}.

Definition plugin_string_set (s : string) : plugin_string_t :=
  {| ptr_ := Some s; len_ := N.of_nat (String.length s) |}.

Definition plugin_string_dup (s : string) : plugin_string_t :=
  plugin_string_set s.

(** [plugin_string_t s = {0}] *)
Definition plugin_string_zero : plugin_string_t :=
  {| ptr_ := None; len_ := 0 |}.

Inductive sample_format_t : Type :=
| SAMPLE_FORMAT_FLOAT32 | SAMPLE_FORMAT_S16LE.

Record audio_format_t : Type := {
  af_sample_rate : N;
  af_channels : N;
  af_sample_format : sample_format_t;
}.

Inductive packet_type_t : Type :=
| PACKET_TYPE_RAW_AUDIO (raw_audio : audio_format_t)
| PACKET_TYPE_OPUS_AUDIO
| PACKET_TYPE_TEXT
| PACKET_TYPE_TRANSCRIPTION
| PACKET_TYPE_CUSTOM (type_id : string)
| PACKET_TYPE_BINARY
| PACKET_TYPE_ANY
| PACKET_TYPE_PASSTHROUGH.

Record audio_frame_t : Type := {
  sample_rate : N;
  channels : N;
  samples : list f32;     (* ptr and len of the sample list *)
}.

Record custom_packet_t : Type := {
  custom_type_id : string;
  custom_data : list ascii;
}.

Inductive packet_t : Type :=
| PACKET_AUDIO (audio : audio_frame_t)
| PACKET_TEXT (text : string)
| PACKET_TRANSCRIPTION (bytes : list ascii)
| PACKET_BINARY (bytes : list ascii)
| PACKET_CUSTOM (custom : custom_packet_t).

(** [packet->tag], as a number. *)
Definition tag (p : packet_t) : Z :=
  match p with
  | PACKET_AUDIO _ => 0
  | PACKET_TEXT _ => 1
  | PACKET_TRANSCRIPTION _ => 2
  | PACKET_BINARY _ => 3
  | PACKET_CUSTOM _ => 4
  end.

Record input_pin_t : Type := {
  in_name : plugin_string_t;
  accepts_types : list packet_type_t;
}.

Record output_pin_t : Type := {
  out_name : plugin_string_t;
  produces_type : packet_type_t;
}.

Record node_metadata_t : Type := {
  kind : plugin_string_t;
  inputs : list input_pin_t;
  outputs : list output_pin_t;
  param_schema : plugin_string_t;
  categories : list plugin_string_t;
}.

Inductive log_level_t : Type :=
| LOG_LEVEL_DEBUG | LOG_LEVEL_INFO | LOG_LEVEL_WARN | LOG_LEVEL_ERROR.

(** The host import [send_output]: pin and packet to whether the send
    succeeded and the content of the error string after the call (the
    caller passes it zeroed). *)
Class Host := {
  streamkit_plugin_host_send_output :
    plugin_string_t -> packet_t -> bool * plugin_string_t;
}.

(** The result of an exported method of type result<_, string>: the
    returned flag, and what the method wrote to [*err], if anything. *)
Record method_result : Type := {
  ok : bool;
  err : option plugin_string_t;
}.

(** *** The plugin *)

Definition DEFAULT_SAMPLE_RATE : N := 48000.
Definition DEFAULT_CHANNELS : N := 1.
Definition MIN_GAIN_DB : f32 := F32.of_Z (-60).
Definition MAX_GAIN_DB : f32 := F32.of_Z 20.

(** Per-instance state structure *)
Record gain_state_t : Type := { gain_linear : f32 }.

(** The world of the component: the live instance states, the answers of
    the allocator ([true]: malloc succeeds; past the end of the list every
    call succeeds), the host's resource table (handle [i + 1] is entry [i]),
    the pointers passed to free, and the calls of the host imports, all
    oldest first. *)
Record world : Type := {
  heap : gmap positive gain_state_t;
  allocs : list bool;
  resources : list ptr;
  freed : list ptr;
  logged : list (log_level_t * plugin_string_t);
  sent : list (plugin_string_t * packet_t);
}.

Definition set_heap (h : gmap positive gain_state_t) (w : world) : world :=
  {| heap := h; allocs := allocs w; resources := resources w;
     freed := freed w; logged := logged w; sent := sent w |}.

Definition malloc_succeeds : call world bool :=
  fun w =>
    match allocs w with
    | [] => Ret (true, w)
    | b :: rest =>
        Ret (b, {| heap := heap w; allocs := rest; resources := resources w;
                   freed := freed w; logged := logged w; sent := sent w |})
    end.

(** [malloc(sizeof(gain_state_t))]: NULL or the address of a new object,
    which holds [init] once its field has been assigned. *)
Definition malloc_state (init : gain_state_t) : call world ptr :=
  ok <- malloc_succeeds ;;
  if ok : bool then
    fun w => let a := fresh (dom (heap w)) in
             Ret (Npos a, set_heap (<[a := init]> (heap w)) w)
  else ret NULL.

Definition load (state : ptr) : call world gain_state_t :=
  fun w =>
    match state with
    | N0 => Fault NullDeref
    | Npos a =>
        match heap w !! a with
        | Some st => Ret (st, w)
        | None => Fault DanglingPointer
        end
    end.

(** [state->gain_linear = g] *)
Definition store_gain_linear (state : ptr) (g : f32) : call world unit :=
  _ <- load state ;;
  fun w =>
    match state with
    | N0 => Fault NullDeref
    | Npos a => Ret (tt, set_heap (<[a := {| gain_linear := g |}]> (heap w)) w)
    end.

(** [free(state)] *)
Definition free (state : ptr) : call world unit :=
  fun w =>
    match state with
    | N0 => Ret (tt, w)
    | Npos a =>
        match heap w !! a with
        | Some _ =>
            Ret (tt, {| heap := delete a (heap w); allocs := allocs w;
                        resources := resources w;
                        freed := freed w ++ [state];
                        logged := logged w; sent := sent w |})
        | None => Fault DoubleFree
        end
    end.

Definition streamkit_plugin_host_log (level : log_level_t)
           (msg : plugin_string_t) : call world unit :=
  fun w => Ret (tt, {| heap := heap w; allocs := allocs w;
                       resources := resources w; freed := freed w;
                       logged := logged w ++ [(level, msg)];
                       sent := sent w |}).

(** Modelled from the spec: the generated [node_instance_new] is not
    part of the sources.  Construction yields an owned resource registered
    in the host-side resource table; the handle is never zero. *)
Definition exports_streamkit_plugin_node_node_instance_new (rep : ptr)
  : call world N :=
  fun w => Ret (N.of_nat (S (length (resources w))),
                {| heap := heap w; allocs := allocs w;
                   resources := resources w ++ [rep]; freed := freed w;
                   logged := logged w; sent := sent w |}).

(** The representation behind an owned handle. *)
Definition rep_of (w : world) (handle : N) : option ptr :=
  match handle with
  | N0 => None
  | _ => nth_error (resources w) (N.to_nat (N.pred handle))
  end.

(** Helper function to clamp values *)
Definition clamp_f32 (value min max : f32) : f32 :=
  if F32.ltb value min then min
  else if F32.gtb value max then max
  else value.

Definition gain_db_key : string := quoted "gain_db".

Section WithLibc.
  Context {L : Libc}.

(** Helper function to convert dB to linear *)
Definition db_to_linear (db : f32) : f32 :=
  powf (F32.of_Z 10) (F32.div db (F32.of_Z 20)).

(** Simple JSON parser to extract gain_db value *)
Definition parse_gain_db (json_str : option string) (len : N) : f32 :=
  match json_str with
  | None => F32.pos_zero
  | Some j =>
      if (len =? 0)%N then F32.pos_zero
      else
        match CStr.strstr j gain_db_key with
        | None => F32.pos_zero
        | Some pos =>
            match CStr.strchr pos ":" with
            | None => F32.pos_zero
            | Some pos =>
                match sscanf_f (CStr.advance 1 pos) with
                | Some value => value
                | None => F32.pos_zero
                end
            end
        end
  end.

(** [maybe_params && maybe_params->ptr && maybe_params->len > 0] *)
Definition has_params (maybe_params : option plugin_string_t) : bool :=
  match maybe_params with
  | Some s => match ptr_ s with
              | Some _ => (0 <? len_ s)%N
              | None => false
              end
  | None => false
  end.

Definition params_text (maybe_params : option plugin_string_t)
  : option string :=
  match maybe_params with Some s => ptr_ s | None => None end.

Definition params_len (maybe_params : option plugin_string_t) : N :=
  match maybe_params with Some s => len_ s | None => 0%N end.

(** The gain in dB that the constructor and [update_params] take from
    a payload that is present and not empty. *)
Definition requested_db (maybe_params : option plugin_string_t) : f32 :=
  clamp_f32 (parse_gain_db (params_text maybe_params)
                           (params_len maybe_params))
            MIN_GAIN_DB MAX_GAIN_DB.

(** Constructor *)
Definition exports_streamkit_plugin_node_constructor_node_instance
           (maybe_params : option plugin_string_t) : call world N :=
  let gain_db :=
    if has_params maybe_params then requested_db maybe_params
    else F32.pos_zero in
  state <- malloc_state {| gain_linear := db_to_linear gain_db |} ;;
  if (state =? NULL)%N then ret 0%N
  else
    st <- load state ;;
    streamkit_plugin_host_log LOG_LEVEL_INFO
      (plugin_string_set
         (CStr.truncate 256
            ("Gain filter instance constructed: " ++ fmt_f 2 gain_db
             ++ "dB (linear: " ++ fmt_f 3 (gain_linear st) ++ ")"))) ;;;
    exports_streamkit_plugin_node_node_instance_new state.

Context {H : Host}.

(** Process function.  Returns the method result and the packet as the
    call leaves it: the samples are scaled in place. *)
Definition exports_streamkit_plugin_node_method_node_instance_process
           (self : ptr) (input_pin : plugin_string_t) (packet : packet_t)
  : call world (method_result * packet_t) :=
  let state := self in
  streamkit_plugin_host_log LOG_LEVEL_DEBUG
    (plugin_string_set
       (CStr.truncate 128
          ("[C] process() called, packet tag=" ++ RefLibc.fmt_int (tag packet)))) ;;;
  match packet with
  | PACKET_AUDIO audio =>
      st <- load state ;;
      streamkit_plugin_host_log LOG_LEVEL_DEBUG
        (plugin_string_set
           (CStr.truncate 128
              ("[C] processing "
               ++ RefLibc.fmt_int (Z.of_nat (length (samples audio)))
               ++ " samples, gain=" ++ fmt_f 3 (gain_linear st)))) ;;;
      let packet' :=
        PACKET_AUDIO
          {| sample_rate := sample_rate audio;
             channels := channels audio;
             samples := map (fun x => F32.mul x (gain_linear st))
                            (samples audio) |} in
      streamkit_plugin_host_log LOG_LEVEL_DEBUG
        (plugin_string_set "[C] samples processed, sending output") ;;;
      let out_pin := plugin_string_set "out" in
      let '(send_ok, send_err) :=
        streamkit_plugin_host_send_output out_pin packet' in
      (fun w => Ret (tt, {| heap := heap w; allocs := allocs w;
                            resources := resources w; freed := freed w;
                            logged := logged w;
                            sent := sent w ++ [(out_pin, packet')] |})) ;;;
      if send_ok : bool then
        streamkit_plugin_host_log LOG_LEVEL_DEBUG
          (plugin_string_set "[C] process() completed successfully") ;;;
        ret ({| ok := true; err := None |}, packet')
      else
        streamkit_plugin_host_log LOG_LEVEL_ERROR
          (plugin_string_set "[C] send_output failed") ;;;
        ret ({| ok := false; err := Some send_err |}, packet')
  | _ =>
      ret ({| ok := false;
              err := Some (plugin_string_dup
                             "Gain filter only accepts audio packets") |},
           packet)
  end.

(** Update params function *)
Definition exports_streamkit_plugin_node_method_node_instance_update_params
           (self : ptr) (maybe_params : option plugin_string_t)
  : call world method_result :=
  let state := self in
  if negb (has_params maybe_params) then ret {| ok := true; err := None |}
  else
    let gain_db := requested_db maybe_params in
    store_gain_linear state (db_to_linear gain_db) ;;;
    st <- load state ;;
    streamkit_plugin_host_log LOG_LEVEL_INFO
      (plugin_string_set
         (CStr.truncate 256
            ("Gain updated via params: " ++ fmt_f 2 gain_db
             ++ "dB (linear: " ++ fmt_f 3 (gain_linear st) ++ ")"))) ;;;
    ret {| ok := true; err := None |}.

End WithLibc.

(** Cleanup function *)
Definition exports_streamkit_plugin_node_method_node_instance_cleanup
           (self : ptr) : call world unit :=
  let state := self in
  streamkit_plugin_host_log LOG_LEVEL_INFO
    (plugin_string_set "Gain filter instance shutting down") ;;;
  free state.

(** Destructor function (required by Component Model resource lifecycle) *)
Definition exports_streamkit_plugin_node_node_instance_destructor
           (rep : ptr) : call world unit :=
  ret tt.

(** Export metadata function *)
Definition schema : string :=
  "{"
  ++ "  " ++ quoted "type" ++ ": " ++ quoted "object" ++ ","
  ++ "  " ++ quoted "properties" ++ ": {"
  ++ "    " ++ quoted "gain_db" ++ ": {"
  ++ "      " ++ quoted "type" ++ ": " ++ quoted "number" ++ ","
  ++ "      " ++ quoted "default" ++ ": 0.0,"
  ++ "      " ++ quoted "description" ++ ": " ++ quoted "Gain in decibels (dB)" ++ ","
  ++ "      " ++ quoted "minimum" ++ ": -60.0,"
  ++ "      " ++ quoted "maximum" ++ ": 20.0"
  ++ "    }"
  ++ "  }"
  ++ "}".

Definition exports_streamkit_plugin_node_metadata : node_metadata_t :=
  let raw_audio :=
    PACKET_TYPE_RAW_AUDIO
      {| af_sample_rate := DEFAULT_SAMPLE_RATE;
         af_channels := DEFAULT_CHANNELS;
         af_sample_format := SAMPLE_FORMAT_FLOAT32 |} in
  {| kind := plugin_string_dup "gain_filter_c";
     inputs := [ {| in_name := plugin_string_dup "in";
                    accepts_types := [raw_audio] |} ];
     outputs := [ {| out_name := plugin_string_dup "out";
                     produces_type := raw_audio |} ];
     param_schema := plugin_string_dup schema;
     categories := [plugin_string_dup "audio"; plugin_string_dup "filters"] |}.

(** Whether a packet carries the payload of a declared packet type. *)
Definition packet_has_type (p : packet_t) (t : packet_type_t) : bool :=
  match p, t with
  | PACKET_AUDIO _, PACKET_TYPE_RAW_AUDIO _
  | PACKET_TEXT _, PACKET_TYPE_TEXT
  | PACKET_TRANSCRIPTION _, PACKET_TYPE_TRANSCRIPTION
  | PACKET_BINARY _, PACKET_TYPE_BINARY
  | PACKET_CUSTOM _, PACKET_TYPE_CUSTOM _ => true
  | _, _ => false
  end.

(** The packet types the node declares for its input pins. *)
Definition accepted_types : list packet_type_t :=
  flat_map accepts_types (inputs exports_streamkit_plugin_node_metadata).

End Wasm.

(* ================================================================== *)
(** ** Vocabulary of the contract *)
(* ================================================================== *)

(** What a parameter payload is, as the parsers of the plugins see it. *)
Inductive payload_class : Type :=
| Absent                  (* no payload: a null pointer *)
| Empty                   (* a payload without characters *)
| MissingKey              (* malformed: the expected key does not occur *)
| BadValue                (* malformed: no number can be read where the value is expected *)
| Requests (g : f32).     (* the payload asks for the value g *)

Definition unusable (c : payload_class) : Prop :=
  match c with Requests _ => False | _ => True end.

(** Malformed, as opposed to absent or empty. *)
Definition malformed (c : payload_class) : Prop :=
  match c with MissingKey | BadValue => True | _ => False end.

(** [bound] is the end of the range [lo, hi] nearest to [g], which lies
    outside the range. *)
Definition nearest_bound (lo hi g bound : f32) : Prop :=
  (F32.ltb g lo = true /\ bound = lo) \/ (F32.gtb g hi = true /\ bound = hi).

Module NativeSpec.

Import Abi Native.

Definition classify {L : Libc} (params : option string) : payload_class :=
  match params with
  | None => Absent
  | Some EmptyString => Empty
  | Some j =>
      match CStr.strstr j gain_key with
      | None => MissingKey
      | Some key =>
          match strtof (skip_to_value (CStr.advance (CStr.strlen gain_key) key)) with
          | None => BadValue
          | Some (g, _) => Requests g
          end
      end
  end.

(** The effective gain of the instance behind a handle. *)
Definition gain_of (w : world) (handle : CPluginHandle) : option f32 :=
  match handle with
  | N0 => None
  | Npos a => option_map gain (heap w !! a)
  end.

(** The handle points to a live instance. *)
Definition valid_handle (w : world) (handle : CPluginHandle) : Prop :=
  gain_of w handle <> None.

(** The next malloc does not fail. *)
Definition memory_available (w : world) : Prop :=
  hd true (allocs w) = true.

(** A RawAudio packet that carries the sample array [S]. *)
Definition carries (packet : CPacket) (rate chans : N) (S : list f32) : Prop :=
  packet_type packet = PACKET_TYPE_RAW_AUDIO /\
  data packet = DataAudioFrame {| sample_rate := rate; channels := chans;
                                  samples := Some S;
                                  sample_count := N.of_nat (length S) |} /\
  (N.of_nat (length S) * sizeof_float < SIZE_MODULUS)%N.

(** The packet that [gain_process_packet] builds from [S] scaled by [g]. *)
Definition scaled_packet (rate chans : N) (S : list f32) (g : f32) : CPacket :=
  {| packet_type := PACKET_TYPE_RAW_AUDIO;
     data := DataAudioFrame
               {| sample_rate := rate; channels := chans;
                  samples := Some (map (fun x => F32.mul x g) S);
                  sample_count := N.of_nat (length S) |};
     len := sizeof_CAudioFrame |}.

(** [g] lies in the range the schema declares. *)
Definition in_range (g : f32) : bool := F32.within MIN_GAIN MAX_GAIN g.

(** The two steps with which [parse_gain] clamps the parsed value. *)
Definition clamp (value : f32) : f32 :=
  let value := if F32.ltb value MIN_GAIN then MIN_GAIN else value in
  if F32.gtb value MAX_GAIN then MAX_GAIN else value.

(** The worlds in which the instance behind [handle] can be found: after
    its creation and any sequence of process and update_params calls on it. *)
Inductive reachable {L : Libc} (handle : CPluginHandle) : world -> Prop :=
| reach_create params log_callback log_user_data w0 w :
    gain_create_instance params log_callback log_user_data w0 = Ret (handle, w) ->
    handle <> NULL ->
    reachable handle w
| reach_process input_pin packet output_callback callback_data result w w' :
    reachable handle w ->
    gain_process_packet handle input_pin packet output_callback callback_data w
    = Ret (result, w') ->
    reachable handle w'
| reach_update params result w w' :
    reachable handle w ->
    gain_update_params handle params w = Ret (result, w') ->
    reachable handle w'.

End NativeSpec.

Module WasmSpec.

Import Wasm.

Definition classify {L : Libc} (maybe_params : option plugin_string_t)
  : payload_class :=
  match maybe_params with
  | None => Absent
  | Some s =>
      match ptr_ s with
      | None => Absent
      | Some j =>
          if (len_ s =? 0)%N then Empty
          else
            match CStr.strstr j gain_db_key with
            | None => MissingKey
            | Some pos =>
                match CStr.strchr pos ":" with
                | None => BadValue
                | Some pos =>
                    match sscanf_f (CStr.advance 1 pos) with
                    | None => BadValue
                    | Some g => Requests g
                    end
                end
            end
      end
  end.

(** The effective (linear) gain of the instance at [self]. *)
Definition gain_of (w : world) (self : ptr) : option f32 :=
  match self with
  | N0 => None
  | Npos a => option_map gain_linear (heap w !! a)
  end.

Definition valid_instance (w : world) (self : ptr) : Prop :=
  gain_of w self <> None.

Definition memory_available (w : world) : Prop :=
  hd true (allocs w) = true.

(** The audio packet with the samples of [audio] scaled by [g]. *)
Definition scaled_packet (audio : audio_frame_t) (g : f32) : packet_t :=
  PACKET_AUDIO {| sample_rate := sample_rate audio;
                  channels := channels audio;
                  samples := map (fun x => F32.mul x g) (samples audio) |}.

(** How many times [self] was passed to free. *)
Definition times_freed (w : world) (self : ptr) : nat :=
  length (List.filter (fun p => N.eqb p self) (freed w)).

(** The worlds in which the instance at [self] can be found: after its
    construction and any sequence of process and update_params calls on it. *)
Inductive reachable {L : Libc} {H : Host} (self : ptr) : world -> Prop :=
| reach_construct maybe_params handle w0 w :
    exports_streamkit_plugin_node_constructor_node_instance maybe_params w0
    = Ret (handle, w) ->
    rep_of w handle = Some self ->
    reachable self w
| reach_process input_pin packet result w w' :
    reachable self w ->
    exports_streamkit_plugin_node_method_node_instance_process
      self input_pin packet w = Ret (result, w') ->
    reachable self w'
| reach_update maybe_params result w w' :
    reachable self w ->
    exports_streamkit_plugin_node_method_node_instance_update_params
      self maybe_params w = Ret (result, w') ->
    reachable self w'.

End WasmSpec.

(* ================================================================== *)
(** ** Concrete worlds and payloads *)
(* ================================================================== *)

Module Demo.

Local Open Scope string_scope.

(** The text of a decimal literal as binary32. *)
Definition lit (s : string) : f32 :=
  match RefLibc.parse_float false s with
  | Some (v, _) => v
  | None => F32.nan
  end.

Definition object (key value : string) : string :=
  "{" ++ quoted key ++ ": " ++ value ++ "}".

Definition native_world : Native.world :=
  {| Native.heap := ∅; Native.allocs := [];
     Native.logged := []; Native.sent := [] |}.

(** A native world with one instance at address 1 whose gain is [g]. *)
Definition native_with (g : f32) : Native.world :=
  {| Native.heap := {[ 1%positive := {| Native.gain := g;
                                         Native.log_cb := 1%N;
                                         Native.log_user_data := 0%N |} ]};
     Native.allocs := []; Native.logged := []; Native.sent := [] |}.

Definition mono (S : list f32) : Abi.CPacket :=
  {| Abi.packet_type := Abi.PACKET_TYPE_RAW_AUDIO;
     Abi.data := Abi.DataAudioFrame
                   {| Abi.sample_rate := 48000; Abi.channels := 1;
                      Abi.samples := Some S;
                      Abi.sample_count := N.of_nat (length S) |};
     Abi.len := Abi.sizeof_CAudioFrame |}.

Definition four_samples : list f32 :=
  [lit "0.1"; lit "-0.2"; lit "0.3"; lit "0.0"].

Definition accept_output : Abi.COutputCallback :=
  fun _ _ _ => Abi.CResult_success.

Definition reject_output : Abi.COutputCallback :=
  fun _ _ _ => Abi.CResult_error "downstream closed".

Definition wasm_world : Wasm.world :=
  {| Wasm.heap := ∅; Wasm.allocs := []; Wasm.resources := [];
     Wasm.freed := []; Wasm.logged := []; Wasm.sent := [] |}.

(** A component world with one instance at address 1 whose gain is [g]. *)
Definition wasm_with (g : f32) : Wasm.world :=
  {| Wasm.heap := {[ 1%positive := {| Wasm.gain_linear := g |} ]};
     Wasm.allocs := []; Wasm.resources := [1%N];
     Wasm.freed := []; Wasm.logged := []; Wasm.sent := [] |}.

Definition wasm_mono (S : list f32) : Wasm.packet_t :=
  Wasm.PACKET_AUDIO {| Wasm.sample_rate := 48000; Wasm.channels := 1;
                       Wasm.samples := S |}.

Definition accepting_host : Wasm.Host :=
  {| Wasm.streamkit_plugin_host_send_output :=
       fun _ _ => (true, Wasm.plugin_string_zero) |}.

Definition rejecting_host : Wasm.Host :=
  {| Wasm.streamkit_plugin_host_send_output :=
       fun _ _ => (false, Wasm.plugin_string_set "downstream closed") |}.

(** A payload string as the bindings pass it. *)
Definition text_of (s : string) : Wasm.plugin_string_t :=
  Wasm.plugin_string_set s.

(** The number that a parameter schema declares under [key]. *)
Definition schema_number (schema key : string) : option f32 :=
  match CStr.strstr schema (quoted key) with
  | Some pos =>
      match CStr.strchr pos ":" with
      | Some p => RefLibc.scan_float (CStr.advance 1 p)
      | None => None
      end
  | None => None
  end.

(** The sample arrays of the packets sent so far. *)
Definition sent_samples (w : Native.world) : list (option (list f32)) :=
  map (fun r => match Abi.data (Native.send_packet r) with
                | Abi.DataAudioFrame f => Abi.samples f
                | _ => None
                end) (Native.sent w).

End Demo.

(* ================================================================== *)
(** ** The exported table, and more vocabulary *)
(* ================================================================== *)

Module NativeApi.

Import Abi Native.

(** The main plugin API structure of streamkit_plugin.h.  A function
    pointer is the function; [get_metadata] takes no argument. *)
Record CNativePluginAPI : Type := {
  version : N;
  get_metadata : CNodeMetadata;
  create_instance :
    option string -> CLogCallback -> ptr -> call world CPluginHandle;
  process_packet :
    CPluginHandle -> string -> CPacket -> COutputCallback -> ptr ->
    call world CResult;
  update_params : CPluginHandle -> option string -> call world CResult;
  flush : CPluginHandle -> COutputCallback -> ptr -> call world CResult;
  destroy_instance : CPluginHandle -> call world unit;
}.

(** Plugin API Table *)
Definition g_plugin_api {L : Libc} : CNativePluginAPI :=
  {| version := STREAMKIT_NATIVE_PLUGIN_API_VERSION;
     get_metadata := gain_get_metadata;
     create_instance := gain_create_instance;
     process_packet := gain_process_packet;
     update_params := gain_update_params;
     flush := gain_flush;
     destroy_instance := gain_destroy_instance |}.

(** [STREAMKIT_PLUGIN_ENTRY(&g_plugin_api)]: the exported entry point. *)
Definition streamkit_native_plugin_api {L : Libc} : CNativePluginAPI :=
  g_plugin_api.

End NativeApi.

(** A binary32 value in its canonical representation. *)
Definition valid_sample (x : f32) : bool := valid_binary F32.prec F32.emax x.

(** A zero or a finite number, as opposed to an infinity or a NaN. *)
Definition finite_sample (x : f32) : bool :=
  match x with
  | S754_zero _ | S754_finite _ _ _ => true
  | _ => false
  end.

Definition sign_of (x : f32) : bool :=
  match x with
  | S754_zero s | S754_infinity s | S754_finite s _ _ => s
  | S754_nan => false
  end.

Module NativeMore.

Import Abi Native.

(** The state of the instance behind a handle. *)
Definition state_of (w : world) (handle : CPluginHandle)
  : option GainPluginState :=
  match handle with
  | N0 => None
  | Npos a => heap w !! a
  end.

(** The metadata declares an output pin [pin] that produces type [t]. *)
Definition declares_output (pin : string) (t : CPacketType) : bool :=
  existsb (fun o => String.eqb (out_name o) pin
                    && CPacketType_eqb (type_discriminant (produces_type o)) t)
          (outputs gain_get_metadata).

(** A RawAudio packet whose frame has the given fields. *)
Definition audio_packet (rate chans : N) (data : option (list f32))
           (count : N) : CPacket :=
  {| packet_type := PACKET_TYPE_RAW_AUDIO;
     data := DataAudioFrame {| sample_rate := rate; channels := chans;
                               samples := data; sample_count := count |};
     len := sizeof_CAudioFrame |}.

(** The record that [plugin_log] hands to the callback of [st]. *)
Definition log_of (st : GainPluginState) (level : CLogLevel) (msg : string)
  : list log_record :=
  if (log_cb st =? NULL)%N then []
  else [ {| log_fn := log_cb st; log_level := level;
            log_target := "gain_plugin_c"; log_message := msg;
            log_data := log_user_data st |} ].

End NativeMore.

Module WasmMore.

Import Wasm.

(** The state of the instance at [self]. *)
Definition state_of (w : world) (self : ptr) : option gain_state_t :=
  match self with
  | N0 => None
  | Npos a => heap w !! a
  end.

Definition plugin_string_eqb (a b : plugin_string_t) : bool :=
  match ptr_ a, ptr_ b with
  | Some x, Some y => String.eqb x y && N.eqb (len_ a) (len_ b)
  | None, None => N.eqb (len_ a) (len_ b)
  | _, _ => false
  end.

(** The gain in dB that the constructor takes from a payload. *)
Definition constructor_db {L : Libc} (maybe_params : option plugin_string_t)
  : f32 :=
  if has_params maybe_params then requested_db maybe_params else F32.pos_zero.

(** The metadata declares an output pin [pin] whose type [packet] has. *)
Definition declares_output (pin : plugin_string_t) (packet : packet_t) : bool :=
  existsb (fun o => plugin_string_eqb (out_name o) pin
                    && packet_has_type packet (produces_type o))
          (outputs exports_streamkit_plugin_node_metadata).

End WasmMore.

(* ================================================================== *)
(** ** Running calls *)
(* ================================================================== *)

Lemma bind_ret {W A B : Type} (c : call W A) (k : A -> call W B) w a w' :
  c w = Ret (a, w') -> bind c k w = k a w'.
Proof. intros E. unfold bind. now rewrite E. Qed.

Lemma bind_fault {W A B : Type} (c : call W A) (k : A -> call W B) w f :
  c w = Fault f -> bind c k w = Fault f.
Proof. intros E. unfold bind. now rewrite E. Qed.

Lemma bind_inv {W A B : Type} (c : call W A) (k : A -> call W B) w b w2 :
  bind c k w = Ret (b, w2) ->
  exists a w1, c w = Ret (a, w1) /\ k a w1 = Ret (b, w2).
Proof.
  unfold bind. destruct (c w) as [[a w1] | f]; [ | discriminate ].
  intros E. now exists a, w1.
Qed.

(* ================================================================== *)
(** ** Facts on binary32 comparison *)
(* ================================================================== *)

Module F32Facts.

Lemma ltb_not_nan_l x y : F32.ltb x y = true -> F32.is_nan x = false.
Proof. now destruct x. Qed.

Lemma gtb_not_nan_l x y : F32.gtb x y = true -> F32.is_nan x = false.
Proof. destruct x; try reflexivity. now destruct y. Qed.

Lemma within_not_nan lo hi x : F32.within lo hi x = true -> F32.is_nan x = false.
Proof.
  unfold F32.within. intros [_ E]%andb_prop. now destruct x.
Qed.

Lemma nan_never_within lo hi : F32.within lo hi F32.nan = false.
Proof. unfold F32.within. now destruct lo. Qed.

Lemma compare_antisym x y :
  SFcompare x y = option_map CompOpp (SFcompare y x).
Proof.
  destruct x as [sx | sx | | sx mx ex], y as [sy | sy | | sy my ey];
    try reflexivity; try (destruct sx; reflexivity);
    try (destruct sy; reflexivity); try (destruct sx, sy; reflexivity).
  destruct sx, sy; try reflexivity; simpl;
    rewrite (Z.compare_antisym ex ey);
    destruct (ex ?= ey) eqn:E; simpl; try reflexivity;
    rewrite <- (Pos.compare_cont_antisym _ _ Eq); simpl;
    now rewrite ?CompOpp_involutive.
Qed.

(** A number that is not below [lo] is at least [lo]. *)
Lemma not_ltb_leb g lo :
  F32.is_nan g = false -> F32.is_nan lo = false ->
  F32.ltb g lo = false -> F32.leb lo g = true.
Proof.
  unfold F32.ltb, F32.leb, SFltb, SFleb. rewrite (compare_antisym lo g).
  destruct (SFcompare g lo) as [[ | | ] | ] eqn:E; simpl; try easy.
  destruct g, lo; try discriminate; simpl in E;
    repeat match goal with s : bool |- _ => destruct s end; discriminate.
Qed.

(** A number that is not above [hi] is at most [hi]. *)
Lemma not_gtb_leb g hi :
  F32.is_nan g = false -> F32.is_nan hi = false ->
  F32.gtb g hi = false -> F32.leb g hi = true.
Proof.
  unfold F32.gtb, F32.ltb, F32.leb, SFltb, SFleb. rewrite (compare_antisym g hi).
  destruct (SFcompare hi g) as [[ | | ] | ] eqn:E; simpl; try easy.
  destruct g, hi; try discriminate; simpl in E;
    repeat match goal with s : bool |- _ => destruct s end; discriminate.
Qed.

End F32Facts.

(* ================================================================== *)
(** ** The native plugin *)
(* ================================================================== *)

Module NativeFacts.

Import Abi Native NativeSpec.
Local Open Scope string_scope.

Section WithLibc.
  Context {L : Libc}.

Lemma native_parse_gain_classify params :
  parse_gain params =
  match classify params with
  | Requests g => clamp g
  | _ => DEFAULT_GAIN
  end.
Proof.
  unfold parse_gain, classify.
  destruct params as [[ | c j] | ]; try reflexivity.
  destruct (CStr.strstr _ _) as [key | ]; [ | reflexivity ].
  destruct (strtof _) as [[g rest] | ]; reflexivity.
Qed.

Lemma native_parse_gain_unusable params :
  unusable (classify params) -> parse_gain params = DEFAULT_GAIN.
Proof.
  rewrite native_parse_gain_classify. now destruct (classify params).
Qed.

Lemma native_clamp_below g : F32.ltb g MIN_GAIN = true -> clamp g = MIN_GAIN.
Proof. unfold clamp. now intros ->. Qed.

Lemma native_above_not_below g :
  F32.gtb g MAX_GAIN = true -> F32.ltb g MIN_GAIN = false.
Proof.
  destruct g as [s | s | | s m e]; try reflexivity;
    destruct s; try reflexivity; intros E; vm_compute in E; discriminate.
Qed.

Lemma native_clamp_above g : F32.gtb g MAX_GAIN = true -> clamp g = MAX_GAIN.
Proof.
  unfold clamp. intros E. now rewrite (native_above_not_below g E), E.
Qed.

(** The clamp leaves a value of the range, except that it lets a NaN
    through. *)
Lemma native_clamp_range g :
  F32.is_nan g = false -> in_range (clamp g) = true.
Proof.
  intros Hn. unfold clamp.
  destruct (F32.ltb g MIN_GAIN) eqn:Hlt; [ reflexivity | ].
  destruct (F32.gtb g MAX_GAIN) eqn:Hgt; [ reflexivity | ].
  unfold in_range, F32.within.
  rewrite (F32Facts.not_ltb_leb g MIN_GAIN Hn eq_refl Hlt).
  now rewrite (F32Facts.not_gtb_leb g MAX_GAIN Hn eq_refl Hgt).
Qed.

Lemma native_clamp_nan : clamp F32.nan = F32.nan.
Proof. reflexivity. Qed.

Lemma native_parse_gain_range params :
  in_range (parse_gain params) = true \/
  (classify params = Requests F32.nan /\ parse_gain params = F32.nan).
Proof.
  rewrite native_parse_gain_classify.
  destruct (classify params) as [ | | | | g ]; try (now left).
  destruct g as [s | s | | s m e]; try (left; now apply native_clamp_range).
  now right.
Qed.

(** *** The primitives on a live instance *)

Lemma native_load_live w a st :
  heap w !! a = Some st -> load (Npos a) w = Ret (st, w).
Proof. intros E. unfold load. now rewrite E. Qed.

Lemma native_plugin_log_live w a st level msg :
  heap w !! a = Some st ->
  exists w', plugin_log (Npos a) level msg w = Ret (tt, w') /\
             heap w' = heap w /\ allocs w' = allocs w /\ sent w' = sent w.
Proof.
  intros E. unfold plugin_log. rewrite (bind_ret _ _ _ _ _ (native_load_live _ _ _ E)).
  destruct (log_cb st =? NULL)%N.
  - now exists w.
  - eexists. split; [ reflexivity | now simpl ].
Qed.

Lemma native_store_gain_live w a st g :
  heap w !! a = Some st ->
  store_gain (Npos a) g w =
  Ret (tt, set_heap (<[a := {| gain := g; log_cb := log_cb st;
                               log_user_data := log_user_data st |}]> (heap w)) w).
Proof.
  intros E. unfold store_gain.
  now rewrite (bind_ret _ _ _ _ _ (native_load_live _ _ _ E)).
Qed.

Lemma native_malloc_succeeds_available w :
  memory_available w ->
  exists w', malloc_succeeds w = Ret (true, w') /\
             heap w' = heap w /\ sent w' = sent w /\ logged w' = logged w.
Proof.
  unfold memory_available, malloc_succeeds.
  destruct (allocs w) as [ | b rest ]; simpl.
  - intros _. now exists w.
  - intros ->. eexists. split; [ reflexivity | now simpl ].
Qed.

(** *** create_instance *)

Lemma native_create_instance_runs params cb ud w :
  memory_available w ->
  exists a w',
    gain_create_instance params cb ud w = Ret (Npos a, w') /\
    heap w' !! a = Some {| gain := parse_gain params; log_cb := cb;
                           log_user_data := ud |} /\
    sent w' = sent w.
Proof.
  intros Hmem.
  destruct (native_malloc_succeeds_available w Hmem) as (w1 & E1 & Hh & Hs & _).
  set (a := fresh (dom (heap w1))).
  set (init := {| gain := parse_gain params; log_cb := cb; log_user_data := ud |}).
  set (w2 := set_heap (<[a := init]> (heap w1)) w1).
  assert (Hlive : heap w2 !! a = Some init) by apply lookup_insert_eq.
  destruct (native_plugin_log_live w2 a init LOG_LEVEL_INFO
              (CStr.truncate 128
                 ("Created gain plugin instance: gain=" ++ fmt_f 4 (gain init)))
              Hlive) as (w3 & E3 & Hh3 & _ & Hs3).
  exists a, w3. split; [ | split ].
  - unfold gain_create_instance, malloc_state.
    rewrite (bind_ret _ _ _ _ _ (bind_ret _ _ _ _ _ E1)).
    fold a. fold init. fold w2.
    change (Npos a =? NULL)%N with false. cbv iota.
    rewrite (bind_ret _ _ _ _ _ (native_load_live _ _ _ Hlive)).
    now rewrite (bind_ret _ _ _ _ _ E3).
  - now rewrite Hh3.
  - now rewrite Hs3, <- Hs.
Qed.

Lemma native_create_instance_gain params cb ud w :
  memory_available w ->
  exists handle w',
    gain_create_instance params cb ud w = Ret (handle, w') /\
    handle <> NULL /\
    gain_of w' handle = Some (parse_gain params) /\
    sent w' = sent w.
Proof.
  intros Hmem.
  destruct (native_create_instance_runs params cb ud w Hmem) as (a & w' & E & Hl & Hs).
  exists (Npos a), w'. repeat split; try assumption.
  - discriminate.
  - unfold gain_of. now rewrite Hl.
Qed.

(** *** update_params *)

Lemma native_valid_handle_live w handle :
  valid_handle w handle ->
  exists a st, handle = Npos a /\ heap w !! a = Some st.
Proof.
  unfold valid_handle, gain_of. destruct handle as [ | a ]; [ congruence | ].
  destruct (heap w !! a) as [st | ] eqn:E; [ | simpl; congruence ].
  intros _. now exists a, st.
Qed.

Lemma native_update_params_runs a st params w :
  heap w !! a = Some st ->
  exists w',
    gain_update_params (Npos a) params w = Ret (CResult_success, w') /\
    heap w' = <[a := {| gain := parse_gain params; log_cb := log_cb st;
                        log_user_data := log_user_data st |}]> (heap w) /\
    sent w' = sent w.
Proof.
  intros E.
  set (st' := {| gain := parse_gain params; log_cb := log_cb st;
                 log_user_data := log_user_data st |}).
  set (w1 := set_heap (<[a := st']> (heap w)) w).
  assert (Hlive : heap w1 !! a = Some st') by apply lookup_insert_eq.
  destruct (native_plugin_log_live w1 a st' LOG_LEVEL_INFO
              (CStr.truncate 128
                 ("Updated gain: " ++ fmt_f 4 (gain st) ++ " -> "
                                   ++ fmt_f 4 (gain st')))
              Hlive) as (w2 & E2 & Hh2 & _ & Hs2).
  exists w2. split; [ | split ].
  - unfold gain_update_params.
    change (Npos a =? NULL)%N with false. cbv iota.
    rewrite (bind_ret _ _ _ _ _ (native_load_live _ _ _ E)).
    rewrite (bind_ret _ _ _ _ _ (native_store_gain_live _ _ _ _ E)).
    fold st'. fold w1.
    rewrite (bind_ret _ _ _ _ _ (native_load_live _ _ _ Hlive)).
    now rewrite (bind_ret _ _ _ _ _ E2).
  - now rewrite Hh2.
  - now rewrite Hs2.
Qed.

Lemma native_update_params_gain handle params w :
  valid_handle w handle ->
  exists w',
    gain_update_params handle params w = Ret (CResult_success, w') /\
    gain_of w' handle = Some (parse_gain params) /\
    sent w' = sent w.
Proof.
  intros (a & st & -> & E)%native_valid_handle_live.
  destruct (native_update_params_runs a st params w E) as (w' & Erun & Hh & Hs).
  exists w'. repeat split; try assumption.
  unfold gain_of. rewrite Hh. now rewrite lookup_insert_eq.
Qed.

(** *** process_packet *)

Lemma native_skipn_nth_error {A : Type} (l : list A) i x :
  nth_error l i = Some x -> skipn i l = x :: skipn (S i) l.
Proof.
  revert l. induction i as [ | i IH ]; intros [ | y l ]; simpl; try discriminate.
  - now intros [= ->].
  - intros E. now rewrite (IH l E).
Qed.

(** The loop reads [n] samples from index [i] on and appends their
    products with the gain to what it has written. *)
Lemma native_apply_gain_runs w a st input capacity n :
  heap w !! a = Some st ->
  forall i out,
    (i + n <= length input)%nat ->
    (N.of_nat (i + n) <= capacity)%N ->
    apply_gain n i (Npos a) input capacity out w =
    Ret ((out ++ map (fun x => F32.mul x (gain st)) (firstn n (skipn i input)))%list, w).
Proof.
  intros E. induction n as [ | n IH ]; intros i out Hlen Hcap.
  - simpl. now rewrite app_nil_r.
  - cbn [apply_gain].
    rewrite (bind_ret _ _ _ _ _ (native_load_live _ _ _ E)).
    destruct (nth_error input i) as [x | ] eqn:Ex.
    + assert ((capacity <=? N.of_nat i)%N = false) as -> by (apply N.leb_gt; lia).
      rewrite IH by lia.
      rewrite (native_skipn_nth_error _ _ _ Ex). cbn [firstn map].
      now rewrite <- app_assoc.
    + apply nth_error_None in Ex. lia.
Qed.

Lemma native_process_packet_runs a st pin packet rate chans S cb cbdata w :
  heap w !! a = Some st ->
  carries packet rate chans S ->
  memory_available w ->
  exists w',
    gain_process_packet (Npos a) pin packet cb cbdata w =
    Ret (cb "out" (scaled_packet rate chans S (gain st)) cbdata, w') /\
    sent w' = (sent w ++ [ {| send_pin := "out";
                              send_packet := scaled_packet rate chans S (gain st);
                              send_data := cbdata |} ])%list /\
    heap w' = heap w.
Proof.
  intros E (Htype & Hdata & Hsize) Hmem.
  destruct (native_malloc_succeeds_available w Hmem) as (w1 & E1 & Hh & Hs & _).
  assert (E' : heap w1 !! a = Some st) by now rewrite Hh.
  unfold gain_process_packet.
  change (Npos a =? NULL)%N with false. cbv iota.
  rewrite Htype, Hdata. cbn [CPacketType_eqb negb samples sample_count
                               sample_rate channels].
  rewrite (bind_ret _ _ _ _ _ E1).
  rewrite N.mod_small by exact Hsize.
  rewrite N.div_mul by discriminate.
  rewrite Nat2N.id.
  erewrite bind_ret.
  2:{ apply (native_apply_gain_runs w1 a st S); [ exact E' | simpl; lia | simpl; lia ]. }
  cbn [skipn app]. rewrite firstn_all.
  eexists. split; [ reflexivity | ].
  cbn [sent heap]. now rewrite Hs, Hh.
Qed.

(** *** The gain of an instance over its life *)

Lemma native_load_world state w st w' :
  load state w = Ret (st, w') -> w' = w.
Proof.
  unfold load. destruct state as [ | a ]; [ discriminate | ].
  destruct (heap w !! a); [ | discriminate ]. now intros [= _ <-].
Qed.

Lemma native_apply_gain_world n :
  forall i state input capacity out w result w',
    apply_gain n i state input capacity out w = Ret (result, w') -> w' = w.
Proof.
  induction n as [ | n IH ]; intros i state input capacity out w result w'.
  - now intros [= _ <-].
  - cbn [apply_gain]. intros (st & w1 & El & E)%bind_inv.
    apply native_load_world in El. subst w1.
    destruct (nth_error input i); [ | discriminate ].
    destruct (capacity <=? N.of_nat i)%N; [ discriminate | ].
    now apply IH in E.
Qed.

Lemma native_malloc_succeeds_heap w ok w' :
  malloc_succeeds w = Ret (ok, w') -> heap w' = heap w.
Proof.
  unfold malloc_succeeds. destruct (allocs w); now intros [= _ <-].
Qed.

(** process_packet leaves every instance state as it is. *)
Lemma native_process_packet_heap handle input_pin packet cb cbdata w result w' :
  gain_process_packet handle input_pin packet cb cbdata w = Ret (result, w') ->
  heap w' = heap w.
Proof.
  unfold gain_process_packet.
  destruct (handle =? NULL)%N; [ now intros [= _ <-] | ].
  destruct (negb _); [ now intros [= _ <-] | ].
  destruct (data packet) as [ | frame | | | ]; try discriminate;
    [ now intros [= _ <-] | ].
  destruct (samples frame) as [input | ]; [ | now intros [= _ <-] ].
  intros (ok & w1 & Em & E)%bind_inv.
  apply native_malloc_succeeds_heap in Em.
  destruct ok; [ | injection E as _ <-; exact Em ].
  apply bind_inv in E. destruct E as (out & w2 & Ea & E).
  apply native_apply_gain_world in Ea. subst w2.
  apply bind_inv in E. destruct E as (r & w3 & Eo & E).
  injection E as _ <-. injection Eo as _ <-. exact Em.
Qed.

Lemma native_create_instance_inv params cb ud w handle w' :
  gain_create_instance params cb ud w = Ret (handle, w') ->
  handle <> NULL ->
  gain_of w' handle = Some (parse_gain params).
Proof.
  intros E Hnn.
  destruct (allocs w) as [ | [ | ] rest ] eqn:Ea.
  - destruct (native_create_instance_gain params cb ud w) as (h & w2 & E2 & _ & Hg & _).
    + unfold memory_available. now rewrite Ea.
    + rewrite E in E2. now injection E2 as -> ->.
  - destruct (native_create_instance_gain params cb ud w) as (h & w2 & E2 & _ & Hg & _).
    + unfold memory_available. now rewrite Ea.
    + rewrite E in E2. now injection E2 as -> ->.
  - revert E. unfold gain_create_instance, malloc_state, malloc_succeeds, bind.
    rewrite Ea. cbn. intros [= <- _]. now contradiction Hnn.
Qed.

Lemma native_update_params_inv handle params w result w' :
  gain_update_params handle params w = Ret (result, w') ->
  handle <> NULL ->
  gain_of w' handle = Some (parse_gain params).
Proof.
  intros E Hnn.
  destruct handle as [ | a ]; [ now contradiction Hnn | ].
  destruct (heap w !! a) as [st | ] eqn:El.
  - destruct (native_update_params_gain (Npos a) params w) as (w2 & E2 & Hg & _).
    + unfold valid_handle, gain_of. now rewrite El.
    + rewrite E in E2. now injection E2 as _ ->.
  - assert (Ef : load (Npos a) w = Fault DanglingPointer)
      by (unfold load; now rewrite El).
    revert E. unfold gain_update_params.
    change (Npos a =? NULL)%N with false. cbv iota.
    now rewrite (bind_fault _ _ _ _ Ef).
Qed.

(** The invariant behind the schema's range: the gain of a reachable
    instance lies in [MIN_GAIN, MAX_GAIN], or it is a NaN. *)
Lemma native_gain_in_range_or_nan handle w :
  reachable handle w ->
  exists g, gain_of w handle = Some g /\ (in_range g = true \/ g = F32.nan).
Proof.
  assert (Hparse : forall params,
             in_range (parse_gain params) = true \/ parse_gain params = F32.nan).
  { intros params. destruct (native_parse_gain_range params) as [Hr | [_ Hn]];
      [ now left | now right ]. }
  induction 1 as [ params cb ud w0 w E Hnn
                 | pin packet cb cbdata r w w' Hreach IH E
                 | params r w w' Hreach IH E ].
  - exists (parse_gain params). split; [ | apply Hparse ].
    now apply (native_create_instance_inv params cb ud w0).
  - destruct IH as (g & Hg & Hr). exists g. split; [ | exact Hr ].
    unfold gain_of in *. destruct handle; [ discriminate | ].
    now rewrite (native_process_packet_heap _ _ _ _ _ _ _ _ E).
  - exists (parse_gain params). split; [ | apply Hparse ].
    apply (native_update_params_inv handle params w r w' E).
    destruct IH as (g & Hg & _). intros ->. discriminate.
Qed.

End WithLibc.

End NativeFacts.

(* ================================================================== *)
(** ** The component-model plugin *)
(* ================================================================== *)

Module WasmFacts.

Import Wasm WasmSpec.
Local Open Scope string_scope.

Section WithLibc.
  Context {L : Libc}.

Lemma wasm_has_params_classify maybe_params :
  has_params maybe_params =
  match classify maybe_params with
  | Absent | Empty => false
  | _ => true
  end.
Proof.
  unfold has_params, classify.
  destruct maybe_params as [[[j | ] n] | ]; simpl; try reflexivity.
  destruct (N.eqb_spec n 0) as [-> | Hn].
  - reflexivity.
  - assert ((0 <? n)%N = true) as -> by (apply N.ltb_lt; lia).
    destruct (CStr.strstr _ _); [ | reflexivity ].
    destruct (CStr.strchr _ _); [ | reflexivity ].
    now destruct (sscanf_f _).
Qed.

(** The dB value both entry points compute from a payload. *)
Lemma wasm_gain_db_classify maybe_params :
  (if has_params maybe_params then requested_db maybe_params
   else F32.pos_zero) =
  match classify maybe_params with
  | Requests g => clamp_f32 g MIN_GAIN_DB MAX_GAIN_DB
  | _ => F32.pos_zero
  end.
Proof.
  rewrite wasm_has_params_classify.
  unfold requested_db, parse_gain_db, classify, params_text, params_len.
  destruct maybe_params as [[[j | ] n] | ]; simpl; try reflexivity.
  destruct (n =? 0)%N; [ reflexivity | ].
  destruct (CStr.strstr _ _); [ | reflexivity ].
  destruct (CStr.strchr _ _); [ | reflexivity ].
  now destruct (sscanf_f _).
Qed.

Lemma wasm_clamp_below g :
  F32.ltb g MIN_GAIN_DB = true -> clamp_f32 g MIN_GAIN_DB MAX_GAIN_DB = MIN_GAIN_DB.
Proof. unfold clamp_f32. now intros ->. Qed.

Lemma wasm_above_not_below g :
  F32.gtb g MAX_GAIN_DB = true -> F32.ltb g MIN_GAIN_DB = false.
Proof.
  destruct g as [s | s | | s m e]; try reflexivity;
    destruct s; try reflexivity; intros E; vm_compute in E; try discriminate.
Qed.

Lemma wasm_clamp_above g :
  F32.gtb g MAX_GAIN_DB = true -> clamp_f32 g MIN_GAIN_DB MAX_GAIN_DB = MAX_GAIN_DB.
Proof.
  unfold clamp_f32. intros E. now rewrite (wasm_above_not_below g E), E.
Qed.

Lemma wasm_clamp_range g :
  F32.is_nan g = false ->
  F32.within MIN_GAIN_DB MAX_GAIN_DB (clamp_f32 g MIN_GAIN_DB MAX_GAIN_DB) = true.
Proof.
  intros Hn. unfold clamp_f32.
  destruct (F32.ltb g MIN_GAIN_DB) eqn:Hlt; [ reflexivity | ].
  destruct (F32.gtb g MAX_GAIN_DB) eqn:Hgt; [ reflexivity | ].
  unfold F32.within.
  rewrite (F32Facts.not_ltb_leb g MIN_GAIN_DB Hn eq_refl Hlt).
  now rewrite (F32Facts.not_gtb_leb g MAX_GAIN_DB Hn eq_refl Hgt).
Qed.

Lemma wasm_clamp_nan lo hi : clamp_f32 F32.nan lo hi = F32.nan.
Proof. unfold clamp_f32. destruct lo, hi; reflexivity. Qed.

(** *** The primitives on a live instance *)

Lemma wasm_load_live w a st :
  heap w !! a = Some st -> load (Npos a) w = Ret (st, w).
Proof. intros E. unfold load. now rewrite E. Qed.

Lemma wasm_valid_instance_live w self :
  valid_instance w self ->
  exists a st, self = Npos a /\ heap w !! a = Some st.
Proof.
  unfold valid_instance, gain_of. destruct self as [ | a ]; [ congruence | ].
  destruct (heap w !! a) as [st | ] eqn:E; [ | simpl; congruence ].
  intros _. now exists a, st.
Qed.

Lemma wasm_malloc_succeeds_available w :
  memory_available w ->
  exists w', malloc_succeeds w = Ret (true, w') /\
             heap w' = heap w /\ sent w' = sent w /\
             resources w' = resources w /\ freed w' = freed w.
Proof.
  unfold memory_available, malloc_succeeds.
  destruct (allocs w) as [ | b rest ]; simpl.
  - intros _. now exists w.
  - intros ->. eexists. split; [ reflexivity | now simpl ].
Qed.

(** *** The constructor *)

Lemma wasm_constructor_runs maybe_params w :
  memory_available w ->
  exists handle a w',
    exports_streamkit_plugin_node_constructor_node_instance maybe_params w
    = Ret (handle, w') /\
    handle <> 0%N /\
    rep_of w' handle = Some (Npos a) /\
    heap w' !! a =
      Some {| gain_linear :=
                db_to_linear
                  match classify maybe_params with
                  | Requests g => clamp_f32 g MIN_GAIN_DB MAX_GAIN_DB
                  | _ => F32.pos_zero
                  end |} /\
    sent w' = sent w.
Proof.
  intros Hmem.
  destruct (wasm_malloc_succeeds_available w Hmem) as (w1 & E1 & Hh & Hs & Hr & _).
  unfold exports_streamkit_plugin_node_constructor_node_instance.
  rewrite wasm_gain_db_classify.
  set (db := match classify maybe_params with
             | Requests g => clamp_f32 g MIN_GAIN_DB MAX_GAIN_DB
             | _ => F32.pos_zero
             end).
  set (a := fresh (dom (heap w1))).
  set (init := {| gain_linear := db_to_linear db |}).
  set (w2 := set_heap (<[a := init]> (heap w1)) w1).
  assert (Hlive : heap w2 !! a = Some init) by apply lookup_insert_eq.
  unfold malloc_state.
  rewrite (bind_ret _ _ _ _ _ (bind_ret _ _ _ _ _ E1)).
  fold a. fold w2.
  change (Npos a =? NULL)%N with false. cbv iota.
  rewrite (bind_ret _ _ _ _ _ (wasm_load_live _ _ _ Hlive)).
  unfold bind, streamkit_plugin_host_log,
    exports_streamkit_plugin_node_node_instance_new.
  cbn [heap allocs resources freed logged sent].
  eexists _, a, _. split; [ reflexivity | ].
  split; [ | split; [ | split ] ].
  - now rewrite Nat2N.inj_succ; intros E%N.neq_succ_0.
  - unfold rep_of. cbn [resources].
    rewrite Nat2N.inj_succ.
    destruct (N.succ _) eqn:En; [ now apply N.neq_succ_0 in En | ].
    rewrite <- En, N.pred_succ, Nat2N.id.
    rewrite nth_error_app2 by lia.
    now rewrite Nat.sub_diag.
  - exact Hlive.
  - exact Hs.
Qed.

(** *** update_params *)

Lemma wasm_update_params_skips self maybe_params w :
  has_params maybe_params = false ->
  exports_streamkit_plugin_node_method_node_instance_update_params
    self maybe_params w = Ret ({| ok := true; err := None |}, w).
Proof.
  intros E. unfold exports_streamkit_plugin_node_method_node_instance_update_params.
  now rewrite E.
Qed.

Lemma wasm_update_params_runs a st maybe_params w :
  heap w !! a = Some st ->
  has_params maybe_params = true ->
  exists w',
    exports_streamkit_plugin_node_method_node_instance_update_params
      (Npos a) maybe_params w = Ret ({| ok := true; err := None |}, w') /\
    heap w' !! a =
      Some {| gain_linear := db_to_linear (requested_db maybe_params) |} /\
    sent w' = sent w.
Proof.
  intros E Hp.
  unfold exports_streamkit_plugin_node_method_node_instance_update_params.
  rewrite Hp. cbv iota. cbn [negb].
  set (st' := {| gain_linear := db_to_linear (requested_db maybe_params) |}).
  set (w1 := set_heap (<[a := st']> (heap w)) w).
  assert (Hlive : heap w1 !! a = Some st') by apply lookup_insert_eq.
  assert (Es : store_gain_linear (Npos a)
                 (db_to_linear (requested_db maybe_params)) w = Ret (tt, w1)).
  { unfold store_gain_linear.
    now rewrite (bind_ret _ _ _ _ _ (wasm_load_live _ _ _ E)). }
  rewrite (bind_ret _ _ _ _ _ Es).
  rewrite (bind_ret _ _ _ _ _ (wasm_load_live _ _ _ Hlive)).
  unfold bind, streamkit_plugin_host_log, ret.
  eexists. split; [ reflexivity | ]. now split.
Qed.

(** *** process *)

Context {H : Host}.

Lemma wasm_process_rejects self input_pin packet w :
  (forall audio, packet <> PACKET_AUDIO audio) ->
  exists w',
    exports_streamkit_plugin_node_method_node_instance_process
      self input_pin packet w =
    Ret (({| ok := false;
             err := Some (plugin_string_dup
                            "Gain filter only accepts audio packets") |},
          packet), w') /\
    sent w' = sent w /\ heap w' = heap w.
Proof.
  intros Hne.
  unfold exports_streamkit_plugin_node_method_node_instance_process.
  unfold bind, streamkit_plugin_host_log, ret.
  destruct packet as [audio | ? | ? | ? | ? ];
    [ now contradiction (Hne audio) | .. ];
    (eexists; split; [ reflexivity | now split ]).
Qed.

Lemma wasm_process_runs a st input_pin audio w :
  heap w !! a = Some st ->
  let packet' := scaled_packet audio (gain_linear st) in
  let out_pin := plugin_string_set "out" in
  let send := streamkit_plugin_host_send_output out_pin packet' in
  exists w',
    exports_streamkit_plugin_node_method_node_instance_process
      (Npos a) input_pin (PACKET_AUDIO audio) w =
    Ret ((if fst send then {| ok := true; err := None |}
          else {| ok := false; err := Some (snd send) |}, packet'), w') /\
    sent w' = (sent w ++ [(out_pin, packet')])%list /\
    heap w' = heap w.
Proof.
  intros E packet' out_pin send.
  unfold exports_streamkit_plugin_node_method_node_instance_process.
  unfold bind at 1. unfold streamkit_plugin_host_log at 1.
  erewrite bind_ret; [ | apply wasm_load_live; exact E ].
  fold (scaled_packet audio (gain_linear st)). fold packet'. fold out_pin.
  fold send.
  destruct send as [[ | ] send_err];
    unfold bind, streamkit_plugin_host_log, ret; cbn [fst snd];
    (eexists; split; [ reflexivity | now split ]).
Qed.

(** *** The gain of an instance over its life *)

Lemma wasm_clamp_range_or_nan g :
  F32.within MIN_GAIN_DB MAX_GAIN_DB (clamp_f32 g MIN_GAIN_DB MAX_GAIN_DB) = true \/
  clamp_f32 g MIN_GAIN_DB MAX_GAIN_DB = F32.nan.
Proof.
  destruct (F32.is_nan g) eqn:Hn.
  - right. destruct g; try discriminate. apply wasm_clamp_nan.
  - left. now apply wasm_clamp_range.
Qed.

(** process leaves every instance state as it is. *)
Lemma wasm_process_heap self input_pin packet w result w' :
  exports_streamkit_plugin_node_method_node_instance_process
    self input_pin packet w = Ret (result, w') ->
  heap w' = heap w.
Proof.
  unfold exports_streamkit_plugin_node_method_node_instance_process.
  unfold bind at 1. unfold streamkit_plugin_host_log at 1.
  destruct packet as [audio | | | | ]; try (now intros [= _ <-]).
  intros (st & w1 & El & E)%bind_inv.
  unfold load in El. destruct self as [ | a ]; [ discriminate | ].
  cbn [heap] in El. destruct (heap w !! a); [ | discriminate ].
  injection El as _ <-. revert E.
  destruct (streamkit_plugin_host_send_output _ _) as [[ | ] send_err];
    unfold bind, streamkit_plugin_host_log, ret; now intros [= _ <-].
Qed.

Lemma wasm_constructor_inv maybe_params w handle w' self :
  exports_streamkit_plugin_node_constructor_node_instance maybe_params w
  = Ret (handle, w') ->
  rep_of w' handle = Some self ->
  exists db,
    gain_of w' self = Some (db_to_linear db) /\
    (F32.within MIN_GAIN_DB MAX_GAIN_DB db = true \/ db = F32.nan).
Proof.
  intros E Hr.
  assert (Hdb : forall db,
             db = match classify maybe_params with
                  | Requests g => clamp_f32 g MIN_GAIN_DB MAX_GAIN_DB
                  | _ => F32.pos_zero
                  end ->
             F32.within MIN_GAIN_DB MAX_GAIN_DB db = true \/ db = F32.nan).
  { intros db ->. destruct (classify maybe_params);
      try (now left). apply wasm_clamp_range_or_nan. }
  destruct (allocs w) as [ | [ | ] rest ] eqn:Ea.
  - destruct (wasm_constructor_runs maybe_params w) as (h & a & w2 & E2 & _ & Hr2 & Hh & _).
    + unfold memory_available. now rewrite Ea.
    + rewrite E in E2. injection E2 as -> ->. rewrite Hr in Hr2. injection Hr2 as ->.
      eexists. split; [ unfold gain_of; now rewrite Hh | now apply Hdb ].
  - destruct (wasm_constructor_runs maybe_params w) as (h & a & w2 & E2 & _ & Hr2 & Hh & _).
    + unfold memory_available. now rewrite Ea.
    + rewrite E in E2. injection E2 as -> ->. rewrite Hr in Hr2. injection Hr2 as ->.
      eexists. split; [ unfold gain_of; now rewrite Hh | now apply Hdb ].
  - revert E.
    unfold exports_streamkit_plugin_node_constructor_node_instance,
      malloc_state, malloc_succeeds, bind.
    rewrite Ea. cbn. intros [= <- _]. discriminate.
Qed.

Lemma wasm_update_params_inv self maybe_params w result w' :
  exports_streamkit_plugin_node_method_node_instance_update_params
    self maybe_params w = Ret (result, w') ->
  valid_instance w self ->
  w' = w \/
  gain_of w' self = Some (db_to_linear (requested_db maybe_params)).
Proof.
  intros E (a & st & -> & El)%wasm_valid_instance_live.
  destruct (has_params maybe_params) eqn:Hp.
  - right.
    destruct (wasm_update_params_runs a st maybe_params w El Hp) as (w2 & E2 & Hh & _).
    rewrite E in E2. injection E2 as _ ->. unfold gain_of. now rewrite Hh.
  - left. rewrite (wasm_update_params_skips (Npos a) maybe_params w Hp) in E.
    now injection E.
Qed.

(** The invariant behind the schema's range: the gain of a reachable
    instance is the linear value of a dB number that lies in
    [MIN_GAIN_DB, MAX_GAIN_DB], or that is a NaN. *)
Lemma wasm_gain_db_in_range_or_nan self w :
  reachable self w ->
  exists db,
    gain_of w self = Some (db_to_linear db) /\
    (F32.within MIN_GAIN_DB MAX_GAIN_DB db = true \/ db = F32.nan).
Proof.
  induction 1 as [ maybe_params handle w0 w E Hr
                 | pin packet r w w' Hreach IH E
                 | maybe_params r w w' Hreach IH E ].
  - now apply (wasm_constructor_inv maybe_params w0 handle w self).
  - destruct IH as (db & Hg & Hdb). exists db. split; [ | exact Hdb ].
    unfold gain_of in *. destruct self; [ discriminate | ].
    now rewrite (wasm_process_heap _ _ _ _ _ _ E).
  - destruct IH as (db & Hg & Hdb).
    destruct (wasm_update_params_inv self maybe_params w r w' E) as [-> | Hg'].
    + unfold valid_instance. now rewrite Hg.
    + now exists db.
    + exists (requested_db maybe_params). split; [ exact Hg' | ].
      apply wasm_clamp_range_or_nan.
Qed.

End WithLibc.

(** *** cleanup and the destructor *)

Lemma wasm_cleanup_runs a st w :
  heap w !! a = Some st ->
  exists w',
    exports_streamkit_plugin_node_method_node_instance_cleanup (Npos a) w
    = Ret (tt, w') /\
    heap w' = delete a (heap w) /\
    freed w' = (freed w ++ [Npos a])%list /\
    sent w' = sent w.
Proof.
  intros E. unfold exports_streamkit_plugin_node_method_node_instance_cleanup.
  unfold bind, streamkit_plugin_host_log, free. cbn [heap].
  rewrite E. eexists. split; [ reflexivity | now repeat split ].
Qed.

Lemma wasm_destructor_runs rep w :
  exports_streamkit_plugin_node_node_instance_destructor rep w = Ret (tt, w).
Proof. reflexivity. Qed.

Lemma wasm_times_freed_app w w' self extra :
  freed w' = (freed w ++ extra)%list ->
  times_freed w' self =
  (times_freed w self + length (List.filter (fun p => N.eqb p self) extra))%nat.
Proof.
  unfold times_freed. intros ->.
  now rewrite List.filter_app, length_app.
Qed.

End WasmFacts.

(* ================================================================== *)
(** ** The plugins on concrete inputs *)
(* ================================================================== *)

Module Examples.

Import Demo.
Local Open Scope string_scope.

(** The constants of the native plugin are the numbers of its schema. *)
Lemma native_schema_numbers :
  schema_number Native.g_param_schema "default" = Some Native.DEFAULT_GAIN /\
  schema_number Native.g_param_schema "minimum" = Some Native.MIN_GAIN /\
  schema_number Native.g_param_schema "maximum" = Some Native.MAX_GAIN.
Proof. repeat split; vm_compute; reflexivity. Qed.

(** The bounds of the component are the numbers of its schema, and the
    default of the schema is the 0 dB that the parser falls back to. *)
Lemma wasm_schema_numbers :
  schema_number Wasm.schema "default" = Some F32.pos_zero /\
  schema_number Wasm.schema "minimum" = Some Wasm.MIN_GAIN_DB /\
  schema_number Wasm.schema "maximum" = Some Wasm.MAX_GAIN_DB.
Proof. repeat split; vm_compute; reflexivity. Qed.

Lemma native_accepts_raw_audio_only :
  Native.accepted_types = [Abi.PACKET_TYPE_RAW_AUDIO].
Proof. reflexivity. Qed.

Lemma wasm_accepts_audio_only packet :
  existsb (Wasm.packet_has_type packet) Wasm.accepted_types = true <->
  exists audio, packet = Wasm.PACKET_AUDIO audio.
Proof.
  split.
  - destruct packet as [audio | | | | ]; try discriminate. now exists audio.
  - now intros [audio ->].
Qed.

(** Decimal text is converted with correct rounding: 0.1 is 0x3DCCCCCD,
    16777217 rounds to even, and the largest finite number is read back. *)
Lemma strtof_rounds_correctly :
  lit "0.1" = S754_finite false 13421773 (-27) /\
  lit "16777217" = S754_finite false 8388608 1 /\
  lit "3.4028235e38" = S754_finite false 16777215 104 /\
  lit "1e39" = S754_infinity false /\
  lit "-1e-46" = S754_zero true.
Proof. repeat split; vm_compute; reflexivity. Qed.

(** The parser of the native plugin on some payloads. *)
Lemma parse_gain_examples :
  Native.parse_gain (L := RefLibc.libc) (Some (object "gain" "2.0")) = lit "2.0" /\
  Native.parse_gain (L := RefLibc.libc) (Some (object "gain" "7.5")) = lit "4.0" /\
  Native.parse_gain (L := RefLibc.libc) (Some (object "gain" "-3")) = lit "0.0" /\
  Native.parse_gain (L := RefLibc.libc) (Some (object "gain" "1e999")) = lit "4.0" /\
  Native.parse_gain (L := RefLibc.libc) (Some (object "volume" "2.0")) = lit "1.0" /\
  Native.parse_gain (L := RefLibc.libc) (Some (object "gain" "loud")) = lit "1.0" /\
  Native.parse_gain (L := RefLibc.libc) (Some EmptyString) = lit "1.0" /\
  Native.parse_gain (L := RefLibc.libc) None = lit "1.0".
Proof. repeat split; vm_compute; reflexivity. Qed.

(** The dB value that the component takes from some payloads, and the linear
    gain at the two bounds. *)
Lemma requested_db_examples :
  Wasm.requested_db (L := RefLibc.libc) (Some (text_of (object "gain_db" "6.0")))
  = lit "6.0" /\
  Wasm.requested_db (L := RefLibc.libc) (Some (text_of (object "gain_db" "35")))
  = lit "20" /\
  Wasm.requested_db (L := RefLibc.libc) (Some (text_of (object "gain_db" "-90.5")))
  = lit "-60" /\
  Wasm.requested_db (L := RefLibc.libc) (Some (text_of (object "gain" "6.0")))
  = lit "0.0" /\
  Wasm.db_to_linear (L := RefLibc.libc) Wasm.MAX_GAIN_DB = lit "10" /\
  Wasm.db_to_linear (L := RefLibc.libc) Wasm.MIN_GAIN_DB = lit "0.001".
Proof. repeat split; vm_compute; reflexivity. Qed.

(** The linear gain of some dB values between the bounds. *)
Lemma db_to_linear_examples :
  Wasm.db_to_linear (L := RefLibc.libc) (lit "6.0") = lit "1.99526238" /\
  Wasm.db_to_linear (L := RefLibc.libc) (lit "-6.0") = lit "0.501187205" /\
  Wasm.db_to_linear (L := RefLibc.libc) (lit "3.0") = lit "1.41253757" /\
  Wasm.db_to_linear (L := RefLibc.libc) (lit "-12.5") = lit "0.237137377" /\
  RefLibc.fmt_fixed 3 (Wasm.db_to_linear (L := RefLibc.libc) (lit "6.0"))
  = "1.995"%string.
Proof. repeat split; vm_compute; reflexivity. Qed.

(** What [sscanf] and [strtof] make of items that break off. *)
Lemma broken_items_examples :
  RefLibc.scan_float "infinit}" = None /\
  RefLibc.parse_float false "infinit}" = Some (F32.infinity false, "init}"%string) /\
  RefLibc.scan_float "1e}" = Some (lit "1.0") /\
  RefLibc.parse_float false "1e}" = Some (lit "1.0", "e}"%string) /\
  RefLibc.scan_float "0x}" = None /\
  RefLibc.parse_float false "0x}" = Some (lit "0.0", "x}"%string).
Proof. repeat split; vm_compute; reflexivity. Qed.

(** The end-to-end scenario of the contract on the native plugin: created
    with gain 2.0, it turns the mono packet 0.1, -0.2, 0.3, 0.0 into
    0.2, -0.4, 0.6, 0.0 and sends it once. *)
Lemma native_end_to_end :
  exists handle w1 w2,
    Native.gain_create_instance (L := RefLibc.libc)
      (Some (object "gain" "2.0")) 1%N 0%N native_world = Ret (handle, w1) /\
    Native.gain_process_packet handle "in" (mono four_samples)
                               accept_output 0%N w1
    = Ret (Abi.CResult_success, w2) /\
    sent_samples w2 = [ Some [lit "0.2"; lit "-0.4"; lit "0.6"; lit "0.0"] ] /\
    map Native.log_message (Native.logged w2)
    = [ "Created gain plugin instance: gain=2.0000" ].
Proof.
  do 3 eexists.
  split; [ vm_compute; reflexivity | ].
  split; [ vm_compute; reflexivity | ].
  split; vm_compute; reflexivity.
Qed.

(** In the component a NaN is reached even from a payload that is a JSON
    object: the first colon after the key text lies inside a string. *)
Lemma wasm_nan_from_json_object :
  WasmSpec.classify (L := RefLibc.libc)
    (Some (text_of ("{" ++ quoted "a" ++ ": " ++ quoted "gain_db" ++ ", "
                        ++ quoted ": nan" ++ ": 1}")))
  = Requests F32.nan.
Proof. vm_compute. reflexivity. Qed.

(** A failed allocation: create returns the null handle, and process
    reports the failure without sending. *)
Lemma native_out_of_memory :
  let w := {| Native.heap := Native.heap (native_with (lit "2.0"));
              Native.allocs := [false];
              Native.logged := []; Native.sent := [] |} in
  (exists w',
      Native.gain_create_instance (L := RefLibc.libc) None 1%N 0%N w
      = Ret (NULL, w')) /\
  (exists w',
      Native.gain_process_packet 1%N "in" (mono four_samples) accept_output 0%N w
      = Ret (Abi.CResult_error "Failed to allocate output buffer", w') /\
      Native.sent w' = []).
Proof.
  split; eexists; [ | split ]; vm_compute; reflexivity.
Qed.

(** After cleanup the instance is gone: a later process call reads freed
    memory, and a second cleanup frees it twice. *)
Lemma wasm_use_after_cleanup :
  exists w1,
    Wasm.exports_streamkit_plugin_node_method_node_instance_cleanup
      1%N (wasm_with (lit "2.0")) = Ret (tt, w1) /\
    Wasm.exports_streamkit_plugin_node_method_node_instance_process
      (L := RefLibc.libc) (H := accepting_host)
      1%N (text_of "in") (wasm_mono four_samples) w1 = Fault DanglingPointer /\
    Wasm.exports_streamkit_plugin_node_method_node_instance_cleanup 1%N w1
    = Fault DoubleFree.
Proof.
  eexists. split; [ vm_compute; reflexivity | ].
  split; vm_compute; reflexivity.
Qed.

End Examples.

(* ================================================================== *)
(** ** The properties of the contract *)
(* ================================================================== *)

Section Contract.

Import Abi.
Local Open Scope string_scope.

Context (L : Libc) (H : Wasm.Host).

(** C1.  For every instance whose effective gain is [g] and every RawAudio
    packet carrying a sample array [S], process sends exactly one packet, on
    output pin "out", whose sample array is [S] scaled elementwise by [g],
    with the sample rate, channel count and sample count of the input, and
    process returns success when the send capability succeeds.  (Native
    plugin: as long as the output buffer can be allocated.) *)
Theorem C1_process_scales_samples :
  (forall w handle g input_pin packet rate chans S output_callback callback_data,
      NativeSpec.gain_of w handle = Some g ->
      NativeSpec.carries packet rate chans S ->
      NativeSpec.memory_available w ->
      let output := NativeSpec.scaled_packet rate chans S g in
      exists result w',
        Native.gain_process_packet handle input_pin packet
                                   output_callback callback_data w
        = Ret (result, w') /\
        Native.sent w' =
          (Native.sent w ++ [ {| Native.send_pin := "out";
                                 Native.send_packet := output;
                                 Native.send_data := callback_data |} ])%list /\
        (success (output_callback "out" output callback_data) = true ->
         success result = true))
  /\
  (forall w self g input_pin audio,
      WasmSpec.gain_of w self = Some g ->
      let output := WasmSpec.scaled_packet audio g in
      let out_pin := Wasm.plugin_string_set "out" in
      exists result w',
        Wasm.exports_streamkit_plugin_node_method_node_instance_process
          self input_pin (Wasm.PACKET_AUDIO audio) w
        = Ret ((result, output), w') /\
        Wasm.sent w' = (Wasm.sent w ++ [ (out_pin, output) ])%list /\
        (fst (Wasm.streamkit_plugin_host_send_output out_pin output) = true ->
         Wasm.ok result = true /\ Wasm.err result = None)).
Proof.
  split.
  - intros w handle g input_pin packet rate chans S cb cbdata Hg Hc Hmem output.
    unfold NativeSpec.gain_of in Hg.
    destruct handle as [ | a ]; [ discriminate | ].
    destruct (Native.heap w !! a) as [st | ] eqn:E; [ | discriminate ].
    injection Hg as <-.
    destruct (NativeFacts.native_process_packet_runs a st input_pin packet rate chans S
                cb cbdata w E Hc Hmem) as (w' & Erun & Hs & _).
    exists (cb "out" output cbdata), w'. now repeat split.
  - intros w self g input_pin audio Hg output out_pin.
    unfold WasmSpec.gain_of in Hg.
    destruct self as [ | a ]; [ discriminate | ].
    destruct (Wasm.heap w !! a) as [st | ] eqn:E; [ | discriminate ].
    injection Hg as <-.
    destruct (WasmFacts.wasm_process_runs a st input_pin audio w E)
      as (w' & Erun & Hs & _).
    eexists _, w'. split; [ exact Erun | ]. split; [ exact Hs | ].
    fold output. fold out_pin. now intros ->.
Qed.

(** C2, as amended.  For every valid instance handle, update_params returns
    success whatever the payload is.  A payload that is present, not empty and
    malformed (the expected key is missing, or no number can be read as its
    value) sets the effective gain to the schema default: linear 1.0 in the
    native plugin, the linear value of 0 dB in the component.  In the
    component an absent or empty payload leaves the effective gain as it
    was. *)
Theorem C2_update_params_malformed_resets :
  (forall w handle params,
      NativeSpec.valid_handle w handle ->
      exists w',
        Native.gain_update_params handle params w = Ret (CResult_success, w') /\
        (malformed (NativeSpec.classify params) ->
         NativeSpec.gain_of w' handle = Some Native.DEFAULT_GAIN))
  /\
  (forall w self maybe_params,
      WasmSpec.valid_instance w self ->
      exists w',
        Wasm.exports_streamkit_plugin_node_method_node_instance_update_params
          self maybe_params w
        = Ret ({| Wasm.ok := true; Wasm.err := None |}, w') /\
        match WasmSpec.classify maybe_params with
        | Absent | Empty => WasmSpec.gain_of w' self = WasmSpec.gain_of w self
        | MissingKey | BadValue =>
            WasmSpec.gain_of w' self = Some (Wasm.db_to_linear F32.pos_zero)
        | Requests _ => True
        end).
Proof.
  split.
  - intros w handle params Hv.
    destruct (NativeFacts.native_update_params_gain handle params w Hv)
      as (w' & E & Hg & _).
    exists w'. split; [ exact E | ].
    intros Hm. rewrite Hg. f_equal.
    apply NativeFacts.native_parse_gain_unusable.
    now destruct (NativeSpec.classify params).
  - intros w self maybe_params (a & st & -> & E)%WasmFacts.wasm_valid_instance_live.
    pose proof (WasmFacts.wasm_has_params_classify maybe_params) as Hp.
    pose proof (WasmFacts.wasm_gain_db_classify maybe_params) as Hdb.
    destruct (WasmSpec.classify maybe_params) as [ | | | | g ];
      try (exists w; split;
           [ now apply WasmFacts.wasm_update_params_skips | reflexivity ]);
      rewrite Hp in Hdb;
      destruct (WasmFacts.wasm_update_params_runs a st maybe_params w E Hp)
        as (w' & Erun & Hh & _);
      exists w'; (split; [ exact Erun | ]);
      try exact I;
      unfold WasmSpec.gain_of; rewrite Hh, Hdb; reflexivity.
Qed.

(** C3.  For every requested gain value [g'] below the schema minimum or
    above the schema maximum, the effective gain stored by create and by
    update_params is the nearest bound, never [g'] itself.  The component
    clamps the value in dB and stores the linear value of the bound, which is
    [powf(10, bound / 20)]: [powf(10, -3)] for a request below -60 dB and
    [powf(10, 1)] for a request above 20 dB. *)
Theorem C3_out_of_range_gain_is_clamped :
  (forall params g' bound,
      NativeSpec.classify params = Requests g' ->
      nearest_bound Native.MIN_GAIN Native.MAX_GAIN g' bound ->
      bound <> g' /\
      (forall log_callback log_user_data w,
          NativeSpec.memory_available w ->
          exists handle w',
            Native.gain_create_instance params log_callback log_user_data w
            = Ret (handle, w') /\
            NativeSpec.gain_of w' handle = Some bound) /\
      (forall handle w,
          NativeSpec.valid_handle w handle ->
          exists w',
            Native.gain_update_params handle params w
            = Ret (CResult_success, w') /\
            NativeSpec.gain_of w' handle = Some bound))
  /\
  (forall maybe_params g' bound,
      WasmSpec.classify maybe_params = Requests g' ->
      nearest_bound Wasm.MIN_GAIN_DB Wasm.MAX_GAIN_DB g' bound ->
      bound <> g' /\
      (F32.ltb g' Wasm.MIN_GAIN_DB = true ->
       F32.div bound (F32.of_Z 20) = F32.of_Z (-3)) /\
      (F32.gtb g' Wasm.MAX_GAIN_DB = true ->
       F32.div bound (F32.of_Z 20) = F32.of_Z 1) /\
      (forall w,
          WasmSpec.memory_available w ->
          exists handle self w',
            Wasm.exports_streamkit_plugin_node_constructor_node_instance
              maybe_params w = Ret (handle, w') /\
            Wasm.rep_of w' handle = Some self /\
            WasmSpec.gain_of w' self
            = Some (powf (F32.of_Z 10) (F32.div bound (F32.of_Z 20)))) /\
      (forall self w,
          WasmSpec.valid_instance w self ->
          exists w',
            Wasm.exports_streamkit_plugin_node_method_node_instance_update_params
              self maybe_params w
            = Ret ({| Wasm.ok := true; Wasm.err := None |}, w') /\
            WasmSpec.gain_of w' self
            = Some (powf (F32.of_Z 10) (F32.div bound (F32.of_Z 20))))).
Proof.
  split.
  - intros params g' bound Hc Hb.
    assert (Hparse : Native.parse_gain params = bound).
    { rewrite NativeFacts.native_parse_gain_classify, Hc.
      destruct Hb as [[Hlt ->] | [Hgt ->]].
      - now apply NativeFacts.native_clamp_below.
      - now apply NativeFacts.native_clamp_above. }
    split; [ | split ].
    + intros Heq.
      destruct Hb as [[Hlt Hb] | [Hgt Hb]]; subst g' bound;
        [ vm_compute in Hlt | vm_compute in Hgt ]; discriminate.
    + intros cb ud w Hmem.
      destruct (NativeFacts.native_create_instance_gain params cb ud w Hmem)
        as (handle & w' & E & _ & Hg & _).
      exists handle, w'. now rewrite <- Hparse.
    + intros handle w Hv.
      destruct (NativeFacts.native_update_params_gain handle params w Hv)
        as (w' & E & Hg & _).
      exists w'. now rewrite <- Hparse.
  - intros maybe_params g' bound Hc Hb.
    assert (Hclamp : Wasm.clamp_f32 g' Wasm.MIN_GAIN_DB Wasm.MAX_GAIN_DB = bound).
    { destruct Hb as [[Hlt ->] | [Hgt ->]].
      - now apply WasmFacts.wasm_clamp_below.
      - now apply WasmFacts.wasm_clamp_above. }
    pose proof (WasmFacts.wasm_has_params_classify maybe_params) as Hp.
    pose proof (WasmFacts.wasm_gain_db_classify maybe_params) as Hdb.
    rewrite Hc in Hp. rewrite Hp, Hc, Hclamp in Hdb.
    unfold Wasm.db_to_linear in Hdb.
    split; [ | split; [ | split; [ | split ] ] ].
    + intros Heq.
      destruct Hb as [[Hlt Hb] | [Hgt Hb]]; subst g' bound;
        [ vm_compute in Hlt | vm_compute in Hgt ]; discriminate.
    + intros Hlt.
      destruct Hb as [[_ ->] | [Hgt _]]; [ vm_compute; reflexivity | ].
      now rewrite (WasmFacts.wasm_above_not_below _ Hgt) in Hlt.
    + intros Hgt.
      destruct Hb as [[Hlt _] | [_ ->]]; [ | vm_compute; reflexivity ].
      now rewrite (WasmFacts.wasm_above_not_below _ Hgt) in Hlt.
    + intros w Hmem.
      destruct (WasmFacts.wasm_constructor_runs maybe_params w Hmem)
        as (handle & a & w' & E & _ & Hr & Hh & _).
      exists handle, (Npos a), w'. split; [ exact E | ]. split; [ exact Hr | ].
      unfold WasmSpec.gain_of. now rewrite Hh, Hc, Hclamp.
    + intros self w (a & st & -> & E)%WasmFacts.wasm_valid_instance_live.
      destruct (WasmFacts.wasm_update_params_runs a st maybe_params w E Hp)
        as (w' & Erun & Hh & _).
      exists w'. split; [ exact Erun | ].
      unfold WasmSpec.gain_of. now rewrite Hh, Hdb.
Qed.

(** C4.  For every instance handle and every packet whose tag is not RawAudio,
    that is, not among the types the node declares for its input pin, process
    returns a failed result that carries a descriptive error message, and it
    does not invoke the send-output capability. *)
Theorem C4_other_packets_are_rejected :
  (forall handle input_pin packet output_callback callback_data w,
      ~ In (packet_type packet) Native.accepted_types ->
      exists msg,
        Native.gain_process_packet handle input_pin packet
                                   output_callback callback_data w
        = Ret (CResult_error msg, w) /\
        msg = (if (handle =? NULL)%N then "Null handle"
               else "Gain plugin only accepts audio packets"))
  /\
  (forall self input_pin packet w,
      existsb (Wasm.packet_has_type packet) Wasm.accepted_types = false ->
      exists w',
        Wasm.exports_streamkit_plugin_node_method_node_instance_process
          self input_pin packet w
        = Ret (({| Wasm.ok := false;
                   Wasm.err := Some (Wasm.plugin_string_dup
                                       "Gain filter only accepts audio packets") |},
                packet), w') /\
        Wasm.sent w' = Wasm.sent w).
Proof.
  split.
  - intros handle input_pin packet cb cbdata w Hna.
    assert (Hne : CPacketType_eqb (packet_type packet) PACKET_TYPE_RAW_AUDIO = false).
    { destruct (packet_type packet); try reflexivity.
      exfalso. apply Hna. now left. }
    unfold Native.gain_process_packet. rewrite Hne.
    destruct (handle =? NULL)%N; eexists; split; reflexivity.
  - intros self input_pin packet w Hna.
    destruct (WasmFacts.wasm_process_rejects self input_pin packet w)
      as (w' & E & Hs & _).
    + intros audio ->. discriminate.
    + now exists w'.
Qed.

(** C5.  For every parameter payload that is absent, empty or malformed, create
    succeeds (it returns a handle, not an error) whenever the instance state
    can be allocated, and the effective gain of the new instance is the schema
    default: linear gain 1.0 in the native plugin; 0.0 dB, which is linear 1.0
    when powf follows C99 Annex F, in the component. *)
Theorem C5_create_falls_back_to_default :
  powf_zero_exponent L ->
  (forall params log_callback log_user_data w,
      unusable (NativeSpec.classify params) ->
      NativeSpec.memory_available w ->
      exists handle w',
        Native.gain_create_instance params log_callback log_user_data w
        = Ret (handle, w') /\
        handle <> NULL /\
        NativeSpec.gain_of w' handle = Some Native.DEFAULT_GAIN /\
        Native.DEFAULT_GAIN = F32.of_Z 1)
  /\
  (forall maybe_params w,
      unusable (WasmSpec.classify maybe_params) ->
      WasmSpec.memory_available w ->
      exists handle self w',
        Wasm.exports_streamkit_plugin_node_constructor_node_instance
          maybe_params w = Ret (handle, w') /\
        handle <> 0%N /\
        Wasm.rep_of w' handle = Some self /\
        WasmSpec.gain_of w' self = Some (Wasm.db_to_linear F32.pos_zero) /\
        Wasm.db_to_linear F32.pos_zero = F32.of_Z 1).
Proof.
  intros Hpow. split.
  - intros params cb ud w Hu Hmem.
    destruct (NativeFacts.native_create_instance_gain params cb ud w Hmem)
      as (handle & w' & E & Hnn & Hg & _).
    exists handle, w'. repeat split; try assumption.
    now rewrite Hg, (NativeFacts.native_parse_gain_unusable params Hu).
  - intros maybe_params w Hu Hmem.
    destruct (WasmFacts.wasm_constructor_runs maybe_params w Hmem)
      as (handle & a & w' & E & Hnn & Hr & Hh & _).
    exists handle, (Npos a), w'. repeat split; try assumption.
    + unfold WasmSpec.gain_of. rewrite Hh.
      now destruct (WasmSpec.classify maybe_params).
    + unfold Wasm.db_to_linear.
      change (F32.div F32.pos_zero (F32.of_Z 20)) with (S754_zero false).
      apply Hpow.
Qed.

(** C7, as amended.  In the resource-style binding the cleanup method
    releases the instance state and the destructor releases nothing: run on
    its own, the destructor leaves the world as it was; and the sequence of
    the cleanup method followed by the destructor on the same live instance
    frees the instance state exactly once, without a double free. *)
Theorem C7_cleanup_releases_destructor_does_not :
  forall w self,
    WasmSpec.valid_instance w self ->
    Wasm.exports_streamkit_plugin_node_node_instance_destructor self w
    = Ret (tt, w) /\
    exists w1 w2,
      Wasm.exports_streamkit_plugin_node_method_node_instance_cleanup self w
      = Ret (tt, w1) /\
      Wasm.exports_streamkit_plugin_node_node_instance_destructor self w1
      = Ret (tt, w2) /\
      ~ WasmSpec.valid_instance w2 self /\
      WasmSpec.times_freed w2 self = S (WasmSpec.times_freed w self).
Proof.
  intros w self (a & st & -> & E)%WasmFacts.wasm_valid_instance_live.
  split; [ reflexivity | ].
  destruct (WasmFacts.wasm_cleanup_runs a st w E) as (w1 & Erun & Hh & Hf & _).
  exists w1, w1. split; [ exact Erun | ]. split; [ reflexivity | ]. split.
  - unfold WasmSpec.valid_instance, WasmSpec.gain_of.
    rewrite Hh, lookup_delete_eq. now intros Hc.
  - rewrite (WasmFacts.wasm_times_freed_app w w1 (Npos a) [Npos a] Hf).
    simpl. rewrite Pos.eqb_refl. simpl. lia.
Qed.

(** C8.  For every instance handle, flush returns a successful result and
    does not invoke the send-output capability: the world, its list of sent
    packets included, is left as it was. *)
Theorem C8_flush_sends_nothing :
  forall handle output_callback callback_data w,
  exists w',
    Native.gain_flush handle output_callback callback_data w
    = Ret (CResult_success, w') /\
    Native.sent w' = Native.sent w /\ w' = w.
Proof.
  intros handle cb cbdata w. now exists w.
Qed.

(** C9.  For every valid instance handle and valid RawAudio packet, the
    result that process returns is the result of the send-output capability:
    the same failure, with its error message, when the capability reports a
    failure, and success when it reports success. *)
Theorem C9_process_returns_the_send_result :
  (forall w handle input_pin packet rate chans S output_callback callback_data,
      NativeSpec.valid_handle w handle ->
      NativeSpec.carries packet rate chans S ->
      NativeSpec.memory_available w ->
      exists output w',
        Native.gain_process_packet handle input_pin packet
                                   output_callback callback_data w
        = Ret (output_callback "out" output callback_data, w') /\
        Native.sent w' =
          (Native.sent w ++ [ {| Native.send_pin := "out";
                                 Native.send_packet := output;
                                 Native.send_data := callback_data |} ])%list)
  /\
  (forall w self input_pin audio,
      WasmSpec.valid_instance w self ->
      exists output result w',
        Wasm.exports_streamkit_plugin_node_method_node_instance_process
          self input_pin (Wasm.PACKET_AUDIO audio) w
        = Ret ((result, output), w') /\
        Wasm.sent w' =
          (Wasm.sent w ++ [ (Wasm.plugin_string_set "out", output) ])%list /\
        let send :=
          Wasm.streamkit_plugin_host_send_output
            (Wasm.plugin_string_set "out") output in
        Wasm.ok result = fst send /\
        Wasm.err result = if fst send then None else Some (snd send)).
Proof.
  split.
  - intros w handle input_pin packet rate chans S cb cbdata Hv Hc Hmem.
    destruct (NativeFacts.native_valid_handle_live w handle Hv) as (a & st & -> & E).
    destruct (NativeFacts.native_process_packet_runs a st input_pin packet rate
                chans S cb cbdata w E Hc Hmem) as (w' & Erun & Hs & _).
    now exists (NativeSpec.scaled_packet rate chans S (Native.gain st)), w'.
  - intros w self input_pin audio (a & st & -> & E)%WasmFacts.wasm_valid_instance_live.
    destruct (WasmFacts.wasm_process_runs a st input_pin audio w E)
      as (w' & Erun & Hs & _).
    eexists _, _, w'. split; [ exact Erun | ]. split; [ exact Hs | ].
    cbv zeta.
    now destruct (fst (Wasm.streamkit_plugin_host_send_output _ _)).
Qed.

(** C10.  In the native binding, process_packet and update_params called
    with a null instance handle return the failed result "Null handle", and
    process_packet called with a RawAudio packet whose frame pointer or whose
    samples pointer is null returns the failed result "Invalid audio frame";
    none of these calls invokes the send-output capability or dereferences
    the null pointer: each returns and leaves the world as it was. *)
Theorem C10_null_pointers_are_refused :
  (forall input_pin packet output_callback callback_data w,
      Native.gain_process_packet NULL input_pin packet
                                 output_callback callback_data w
      = Ret (CResult_error "Null handle", w))
  /\
  (forall params w,
      Native.gain_update_params NULL params w
      = Ret (CResult_error "Null handle", w))
  /\
  (forall handle input_pin packet output_callback callback_data w,
      handle <> NULL ->
      packet_type packet = PACKET_TYPE_RAW_AUDIO ->
      (data packet = DataNull \/
       exists frame, data packet = DataAudioFrame frame /\ samples frame = None) ->
      Native.gain_process_packet handle input_pin packet
                                 output_callback callback_data w
      = Ret (CResult_error "Invalid audio frame", w)).
Proof.
  split; [ reflexivity | split; [ reflexivity | ] ].
  intros handle input_pin packet cb cbdata w Hnn Htype Hnull.
  unfold Native.gain_process_packet.
  destruct handle as [ | a ]; [ now contradiction Hnn | ].
  change (Npos a =? NULL)%N with false. cbv iota.
  rewrite Htype. cbn [CPacketType_eqb negb].
  destruct Hnull as [-> | (frame & -> & ->)]; reflexivity.
Qed.

End Contract.

(** C1 on the example of the contract: gain 2.0, one mono packet of the four
    samples 0.1, -0.2, 0.3, 0.0. *)
Lemma C1_witness :
  (exists w',
      Native.gain_process_packet 1%N "in" (Demo.mono Demo.four_samples)
                                 Demo.accept_output 0%N
                                 (Demo.native_with (Demo.lit "2.0"))
      = Ret (Abi.CResult_success, w') /\
      map Native.send_packet (Native.sent w') =
        [ Demo.mono [Demo.lit "0.2"; Demo.lit "-0.4"; Demo.lit "0.6"; Demo.lit "0.0"] ])
  /\
  (exists w',
      Wasm.exports_streamkit_plugin_node_method_node_instance_process
        (L := RefLibc.libc) (H := Demo.accepting_host)
        1%N (Demo.text_of "in") (Demo.wasm_mono Demo.four_samples)
        (Demo.wasm_with (Demo.lit "2.0"))
      = Ret (({| Wasm.ok := true; Wasm.err := None |},
              Demo.wasm_mono [Demo.lit "0.2"; Demo.lit "-0.4";
                              Demo.lit "0.6"; Demo.lit "0.0"]), w') /\
      map snd (Wasm.sent w') =
        [ Demo.wasm_mono [Demo.lit "0.2"; Demo.lit "-0.4";
                          Demo.lit "0.6"; Demo.lit "0.0"] ]).
Proof.
  split.
  - destruct (proj1 (C1_process_scales_samples RefLibc.libc Demo.accepting_host)
                (Demo.native_with (Demo.lit "2.0")) 1%N (Demo.lit "2.0") "in"%string
                (Demo.mono Demo.four_samples) 48000%N 1%N Demo.four_samples
                Demo.accept_output 0%N
                eq_refl (conj eq_refl (conj eq_refl eq_refl)) eq_refl)
      as (result & w' & E & Hs & Hok).
    exists w'. split.
    + rewrite E. f_equal. f_equal.
      destruct result as [[ | ] msg]; [ | now specialize (Hok eq_refl) ].
      revert E. unfold Native.gain_process_packet. vm_compute. now intros [= <- _].
    + rewrite Hs. reflexivity.
  - destruct (proj2 (C1_process_scales_samples RefLibc.libc Demo.accepting_host)
                (Demo.wasm_with (Demo.lit "2.0")) 1%N (Demo.lit "2.0")
                (Demo.text_of "in") {| Wasm.sample_rate := 48000; Wasm.channels := 1;
                                       Wasm.samples := Demo.four_samples |}
                eq_refl)
      as (result & w' & E & Hs & Hok).
    exists w'. split.
    + unfold Demo.wasm_mono. rewrite E.
      destruct (Hok eq_refl) as [Ho He]. destruct result as [o e].
      simpl in Ho, He. subst. reflexivity.
    + rewrite Hs. reflexivity.
Defined.

(** C2, the claim as stated fails.  An instance of the native plugin is
    created with gain 2.0; update_params with the payload [{}], which lacks
    the key, succeeds and leaves the gain at the default 1.0, not at the
    previous 2.0. *)
Lemma C2_counterexample :
  exists handle w1 w2,
    Native.gain_create_instance (L := RefLibc.libc)
      (Some (Demo.object "gain" "2.0")) 1%N 0%N Demo.native_world
    = Ret (handle, w1) /\
    NativeSpec.gain_of w1 handle = Some (Demo.lit "2.0") /\
    malformed (NativeSpec.classify (L := RefLibc.libc) (Some "{}"%string)) /\
    Native.gain_update_params (L := RefLibc.libc) handle (Some "{}"%string) w1
    = Ret (Abi.CResult_success, w2) /\
    NativeSpec.gain_of w2 handle = Some (Demo.lit "1.0") /\
    NativeSpec.gain_of w2 handle <> NativeSpec.gain_of w1 handle.
Proof.
  do 3 eexists.
  split; [ vm_compute; reflexivity | ].
  split; [ vm_compute; reflexivity | ].
  split; [ exact I | ].
  split; [ vm_compute; reflexivity | ].
  split; [ vm_compute; reflexivity | ].
  vm_compute. discriminate.
Qed.

(** C2 as amended, on an instance whose gain is 2.0: the payload [{}] sets
    the gain of the native plugin to 1.0, and an empty payload leaves the gain
    of the component at 2.0. *)
Lemma C2_witness :
  (exists w',
      Native.gain_update_params (L := RefLibc.libc) 1%N (Some "{}"%string)
                                (Demo.native_with (Demo.lit "2.0"))
      = Ret (Abi.CResult_success, w') /\
      NativeSpec.gain_of w' 1%N = Some Native.DEFAULT_GAIN)
  /\
  (exists w',
      Wasm.exports_streamkit_plugin_node_method_node_instance_update_params
        (L := RefLibc.libc) 1%N (Some (Demo.text_of EmptyString))
        (Demo.wasm_with (Demo.lit "2.0"))
      = Ret ({| Wasm.ok := true; Wasm.err := None |}, w') /\
      WasmSpec.gain_of w' 1%N = Some (Demo.lit "2.0")).
Proof.
  split.
  - destruct (proj1 (C2_update_params_malformed_resets RefLibc.libc)
                (Demo.native_with (Demo.lit "2.0")) 1%N (Some "{}"%string))
      as (w' & E & Hm).
    + vm_compute. discriminate.
    + exists w'. split; [ exact E | ]. apply Hm. exact I.
  - destruct (proj2 (C2_update_params_malformed_resets RefLibc.libc)
                (Demo.wasm_with (Demo.lit "2.0")) 1%N (Some (Demo.text_of EmptyString)))
      as (w' & E & Hm).
    + vm_compute. discriminate.
    + exists w'. split; [ exact E | ]. exact Hm.
Defined.

(** C3 on a payload that asks for 7.5, which create clamps to 4.0 (native),
    and on one that asks for -80 dB, which update_params clamps to -60 dB,
    the linear gain 0.001 (component). *)
Lemma C3_witness :
  (exists handle w',
      Native.gain_create_instance (L := RefLibc.libc)
        (Some (Demo.object "gain" "7.5")) 1%N 0%N Demo.native_world
      = Ret (handle, w') /\
      NativeSpec.gain_of w' handle = Some Native.MAX_GAIN)
  /\
  (exists w',
      Wasm.exports_streamkit_plugin_node_method_node_instance_update_params
        (L := RefLibc.libc) 1%N (Some (Demo.text_of (Demo.object "gain_db" "-80")))
        (Demo.wasm_with (Demo.lit "2.0"))
      = Ret ({| Wasm.ok := true; Wasm.err := None |}, w') /\
      WasmSpec.gain_of w' 1%N = Some (Demo.lit "0.001")).
Proof.
  split.
  - destruct (proj1 (C3_out_of_range_gain_is_clamped RefLibc.libc)
                (Some (Demo.object "gain" "7.5")) (Demo.lit "7.5") Native.MAX_GAIN)
      as (_ & Hcreate & _).
    + vm_compute. reflexivity.
    + right. split; vm_compute; reflexivity.
    + apply (Hcreate 1%N 0%N Demo.native_world). reflexivity.
  - destruct (proj2 (C3_out_of_range_gain_is_clamped RefLibc.libc)
                (Some (Demo.text_of (Demo.object "gain_db" "-80")))
                (Demo.lit "-80") Wasm.MIN_GAIN_DB)
      as (_ & _ & _ & _ & Hupdate).
    + vm_compute. reflexivity.
    + left. split; vm_compute; reflexivity.
    + destruct (Hupdate 1%N (Demo.wasm_with (Demo.lit "2.0"))) as (w' & E & Hg).
      * vm_compute. discriminate.
      * exists w'. split; [ exact E | ]. rewrite Hg. vm_compute. reflexivity.
Defined.

(** C4 on a Text packet. *)
Lemma C4_witness :
  (exists msg,
      Native.gain_process_packet 1%N "in"
        {| Abi.packet_type := Abi.PACKET_TYPE_TEXT;
           Abi.data := Abi.DataText "hello"; Abi.len := 6 |}
        Demo.accept_output 0%N (Demo.native_with (Demo.lit "2.0"))
      = Ret (Abi.CResult_error msg, Demo.native_with (Demo.lit "2.0")) /\
      msg = "Gain plugin only accepts audio packets"%string)
  /\
  (exists w',
      Wasm.exports_streamkit_plugin_node_method_node_instance_process
        (L := RefLibc.libc) (H := Demo.accepting_host)
        1%N (Demo.text_of "in") (Wasm.PACKET_TEXT "hello")
        (Demo.wasm_with (Demo.lit "2.0"))
      = Ret (({| Wasm.ok := false;
                 Wasm.err := Some (Wasm.plugin_string_dup
                                     "Gain filter only accepts audio packets") |},
              Wasm.PACKET_TEXT "hello"), w') /\
      Wasm.sent w' = []).
Proof.
  split.
  - apply (proj1 (C4_other_packets_are_rejected RefLibc.libc Demo.accepting_host)
             1%N "in"%string
             {| Abi.packet_type := Abi.PACKET_TYPE_TEXT;
                Abi.data := Abi.DataText "hello"; Abi.len := 6 |}
             Demo.accept_output 0%N (Demo.native_with (Demo.lit "2.0"))).
    intros [E | []]. discriminate.
  - apply (proj2 (C4_other_packets_are_rejected RefLibc.libc Demo.accepting_host)
             1%N (Demo.text_of "in") (Wasm.PACKET_TEXT "hello")
             (Demo.wasm_with (Demo.lit "2.0"))).
    reflexivity.
Defined.

(** C5 on a payload whose value is not a number (native) and on one without
    the key (component), with the reference C library. *)
Lemma C5_witness :
  (exists handle w',
      Native.gain_create_instance (L := RefLibc.libc)
        (Some (Demo.object "gain" "loud")) 1%N 0%N Demo.native_world
      = Ret (handle, w') /\
      handle <> NULL /\
      NativeSpec.gain_of w' handle = Some (Demo.lit "1.0"))
  /\
  (exists handle self w',
      Wasm.exports_streamkit_plugin_node_constructor_node_instance
        (L := RefLibc.libc) (Some (Demo.text_of "{}")) Demo.wasm_world
      = Ret (handle, w') /\
      handle <> 0%N /\
      Wasm.rep_of w' handle = Some self /\
      WasmSpec.gain_of w' self = Some (Demo.lit "1.0")).
Proof.
  assert (Hpow : powf_zero_exponent RefLibc.libc) by (intros x s; reflexivity).
  split.
  - destruct (proj1 (C5_create_falls_back_to_default RefLibc.libc Hpow)
                (Some (Demo.object "gain" "loud")) 1%N 0%N Demo.native_world)
      as (handle & w' & E & Hnn & Hg & _).
    + exact I.
    + reflexivity.
    + now exists handle, w'.
  - destruct (proj2 (C5_create_falls_back_to_default RefLibc.libc Hpow)
                (Some (Demo.text_of "{}")) Demo.wasm_world)
      as (handle & self & w' & E & Hnn & Hr & Hg & H1).
    + exact I.
    + reflexivity.
    + exists handle, self, w'.
      split; [ exact E | split; [ exact Hnn | split; [ exact Hr | ] ] ].
      now rewrite Hg, H1.
Defined.

(** C6 fails on the code.  Created with the payload [{"gain": nan}], the
    native plugin stores a NaN gain, which is outside [0.0, 4.0]; created
    with [{"gain_db": nan}], the component takes a NaN for the gain in dB,
    outside [-60.0, 20.0], and stores its linear value.  Both states are
    reachable.  Neither clamp catches a NaN, since every comparison with it
    is false. *)
Theorem C6_nan_passes_the_clamp :
  (exists handle w,
      Native.gain_create_instance (L := RefLibc.libc)
        (Some (Demo.object "gain" "nan")) 1%N 0%N Demo.native_world
      = Ret (handle, w) /\
      NativeSpec.reachable (L := RefLibc.libc) handle w /\
      NativeSpec.gain_of w handle = Some F32.nan /\
      NativeSpec.in_range F32.nan = false)
  /\
  (exists handle self w,
      Wasm.exports_streamkit_plugin_node_constructor_node_instance
        (L := RefLibc.libc)
        (Some (Demo.text_of (Demo.object "gain_db" "nan"))) Demo.wasm_world
      = Ret (handle, w) /\
      Wasm.rep_of w handle = Some self /\
      WasmSpec.reachable (L := RefLibc.libc) (H := Demo.accepting_host) self w /\
      Wasm.requested_db (L := RefLibc.libc)
        (Some (Demo.text_of (Demo.object "gain_db" "nan"))) = F32.nan /\
      WasmSpec.gain_of w self
      = Some (Wasm.db_to_linear (L := RefLibc.libc) F32.nan) /\
      F32.within Wasm.MIN_GAIN_DB Wasm.MAX_GAIN_DB F32.nan = false).
Proof.
  split.
  - do 2 eexists.
    assert (E : Native.gain_create_instance (L := RefLibc.libc)
                  (Some (Demo.object "gain" "nan")) 1%N 0%N Demo.native_world
                = Ret (1%N, _)) by (vm_compute; reflexivity).
    split; [ exact E | ].
    split; [ apply (NativeSpec.reach_create _ _ _ _ _ _ E); discriminate | ].
    split; vm_compute; reflexivity.
  - do 3 eexists.
    assert (E : Wasm.exports_streamkit_plugin_node_constructor_node_instance
                  (L := RefLibc.libc)
                  (Some (Demo.text_of (Demo.object "gain_db" "nan")))
                  Demo.wasm_world
                = Ret (1%N, _)) by (vm_compute; reflexivity).
    split; [ exact E | ].
    split; [ vm_compute; reflexivity | ].
    split; [ eapply WasmSpec.reach_construct;
             [ exact E | vm_compute; reflexivity ] | ].
    repeat split; vm_compute; reflexivity.
Qed.

(** C7, the claim as stated fails.  In the world that the constructor leaves,
    the destructor returns with the instance state still allocated and with
    no call of free: it does not release the state.  The release is done by
    the cleanup method: when cleanup returns, before any destructor runs, the
    state has been freed. *)
Lemma C7_counterexample :
  exists handle self w1 w2 w3,
    Wasm.exports_streamkit_plugin_node_constructor_node_instance
      (L := RefLibc.libc) None Demo.wasm_world = Ret (handle, w1) /\
    Wasm.rep_of w1 handle = Some self /\
    Wasm.exports_streamkit_plugin_node_node_instance_destructor self w1
    = Ret (tt, w2) /\
    WasmSpec.valid_instance w2 self /\
    Wasm.freed w2 = [] /\
    Wasm.exports_streamkit_plugin_node_method_node_instance_cleanup self w1
    = Ret (tt, w3) /\
    ~ WasmSpec.valid_instance w3 self /\
    Wasm.freed w3 = [self].
Proof.
  do 5 eexists.
  split; [ vm_compute; reflexivity | ].
  split; [ vm_compute; reflexivity | ].
  split; [ vm_compute; reflexivity | ].
  split; [ vm_compute; discriminate | ].
  split; [ reflexivity | ].
  split; [ vm_compute; reflexivity | ].
  split; [ vm_compute; intros Hc; now apply Hc | reflexivity ].
Qed.

(** C7 as amended, on an instance at address 1: cleanup and then the
    destructor. *)
Lemma C7_witness :
  exists w2,
    bind (Wasm.exports_streamkit_plugin_node_method_node_instance_cleanup 1%N)
         (fun _ => Wasm.exports_streamkit_plugin_node_node_instance_destructor 1%N)
         (Demo.wasm_with (Demo.lit "2.0"))
    = Ret (tt, w2) /\
    ~ WasmSpec.valid_instance w2 1%N /\
    WasmSpec.times_freed w2 1%N = 1%nat.
Proof.
  destruct (C7_cleanup_releases_destructor_does_not
              (Demo.wasm_with (Demo.lit "2.0")) 1%N)
    as (_ & w1 & w2 & Ec & Ed & Hgone & Hfreed).
  - vm_compute. discriminate.
  - exists w2. split; [ | split; [ exact Hgone | exact Hfreed ] ].
    now rewrite (bind_ret _ _ _ _ _ Ec).
Defined.

(** C9 with a host whose send capability fails: process returns that
    failure. *)
Lemma C9_witness :
  (exists w',
      Native.gain_process_packet 1%N "in" (Demo.mono Demo.four_samples)
                                 Demo.reject_output 0%N
                                 (Demo.native_with (Demo.lit "2.0"))
      = Ret (Abi.CResult_error "downstream closed", w'))
  /\
  (exists output w',
      Wasm.exports_streamkit_plugin_node_method_node_instance_process
        (L := RefLibc.libc) (H := Demo.rejecting_host)
        1%N (Demo.text_of "in") (Demo.wasm_mono Demo.four_samples)
        (Demo.wasm_with (Demo.lit "2.0"))
      = Ret (({| Wasm.ok := false;
                 Wasm.err := Some (Wasm.plugin_string_set "downstream closed") |},
              output), w')).
Proof.
  split.
  - destruct (proj1 (C9_process_returns_the_send_result RefLibc.libc
                                                        Demo.rejecting_host)
                (Demo.native_with (Demo.lit "2.0")) 1%N "in"%string
                (Demo.mono Demo.four_samples) 48000%N 1%N Demo.four_samples
                Demo.reject_output 0%N)
      as (output & w' & E & _).
    + vm_compute. discriminate.
    + repeat split.
    + reflexivity.
    + exists w'. exact E.
  - destruct (proj2 (C9_process_returns_the_send_result RefLibc.libc
                                                        Demo.rejecting_host)
                (Demo.wasm_with (Demo.lit "2.0")) 1%N (Demo.text_of "in")
                {| Wasm.sample_rate := 48000; Wasm.channels := 1;
                   Wasm.samples := Demo.four_samples |})
      as (output & result & w' & E & _ & Hok & Herr).
    + vm_compute. discriminate.
    + exists output, w'. unfold Demo.wasm_mono. rewrite E.
      destruct result as [o e]. simpl in Hok, Herr. now subst.
Defined.

(** C10 on a RawAudio packet with a null frame pointer and on one with a
    null samples pointer. *)
Lemma C10_witness :
  Native.gain_process_packet 1%N "in"
    {| Abi.packet_type := Abi.PACKET_TYPE_RAW_AUDIO;
       Abi.data := Abi.DataNull; Abi.len := 0 |}
    Demo.accept_output 0%N (Demo.native_with (Demo.lit "2.0"))
  = Ret (Abi.CResult_error "Invalid audio frame",
         Demo.native_with (Demo.lit "2.0"))
  /\
  Native.gain_process_packet 1%N "in"
    {| Abi.packet_type := Abi.PACKET_TYPE_RAW_AUDIO;
       Abi.data := Abi.DataAudioFrame
                     {| Abi.sample_rate := 48000; Abi.channels := 1;
                        Abi.samples := None; Abi.sample_count := 4 |};
       Abi.len := Abi.sizeof_CAudioFrame |}
    Demo.accept_output 0%N (Demo.native_with (Demo.lit "2.0"))
  = Ret (Abi.CResult_error "Invalid audio frame",
         Demo.native_with (Demo.lit "2.0")).
Proof.
  split.
  - apply (proj2 (proj2 (C10_null_pointers_are_refused RefLibc.libc))).
    + discriminate.
    + reflexivity.
    + now left.
  - apply (proj2 (proj2 (C10_null_pointers_are_refused RefLibc.libc))).
    + discriminate.
    + reflexivity.
    + right. eexists. split; reflexivity.
Defined.

(* ================================================================== *)
(** ** More facts on binary32 *)
(* ================================================================== *)

Module F32More.

Lemma compare_refl x : F32.is_nan x = false -> SFcompare x x = Some Eq.
Proof.
  destruct x as [s | s | | s m e]; try discriminate; intros _; simpl.
  - reflexivity.
  - now destruct s.
  - rewrite Z.compare_refl, Pos.compare_cont_refl. now destruct s.
Qed.

Lemma leb_refl x : F32.is_nan x = false -> F32.leb x x = true.
Proof. intros Hn. unfold F32.leb, SFleb. now rewrite compare_refl. Qed.

Lemma leb_not_nan a b :
  F32.leb a b = true -> F32.is_nan a = false /\ F32.is_nan b = false.
Proof.
  unfold F32.leb, SFleb. destruct a, b; try discriminate; now split.
Qed.

(** [a <= b] excludes [b < a]. *)
Lemma leb_not_ltb a b : F32.leb a b = true -> F32.ltb b a = false.
Proof.
  unfold F32.leb, F32.ltb, SFleb, SFltb. rewrite (F32Facts.compare_antisym b a).
  now destruct (SFcompare a b) as [[ | | ] | ].
Qed.

(** Multiplication by 1.0 is exact. *)
Lemma mul_one x : valid_sample x = true -> F32.mul x (F32.of_Z 1) = x.
Proof.
  destruct x as [s | s | | s m e]; try (intros _; now destruct s).
  - reflexivity.
  - unfold valid_sample, valid_binary, bounded, canonical_mantissa.
    intros [Hc He]%andb_prop. apply Z.eqb_eq in Hc.
    change (F32.of_Z 1) with (S754_finite false 8388608 (-23)).
    unfold F32.mul, SFmul, F32.prec, F32.emax in *.
    rewrite Pos.mul_comm. cbv [Pos.mul].
    unfold binary_round_aux. unfold shr_fexp at 1.
    cbn [Zdigits2 digits2_pos]. rewrite !Pos2Z.inj_succ.
    match goal with
    | |- context [ fexp 24 128 (?d + (e + -23)) - (e + -23) ] =>
        replace (fexp 24 128 (d + (e + -23)) - (e + -23)) with 23
    end.
    2:{ match goal with
        | |- 23 = fexp 24 128 ?t - _ =>
            replace t with (Z.pos (digits2_pos m) + e) by lia
        end.
        rewrite Hc. lia. }
    cbn [shr shr_record_of_loc SpecFloat.iter_pos shr_1 orb shr_m
           loc_of_shr_record round_nearest_even].
    unfold shr_fexp. cbn [Zdigits2].
    replace (e + -23 + 23) with e by lia.
    rewrite Hc, Z.sub_diag. cbn [shr shr_record_of_loc shr_m].
    rewrite He. now destruct s.
Qed.

(** Multiplication of a finite number by +0.0 gives a zero of its sign. *)
Lemma mul_zero x :
  finite_sample x = true -> F32.mul x F32.pos_zero = S754_zero (sign_of x).
Proof.
  destruct x as [s | s | | s m e]; try discriminate; intros _; simpl;
    now destruct s.
Qed.

Lemma map_mul_one S :
  forallb valid_sample S = true ->
  map (fun x => F32.mul x (F32.of_Z 1)) S = S.
Proof.
  induction S as [ | x S IH ]; [ reflexivity | ].
  cbn [forallb map]. intros [Hx HS]%andb_prop.
  now rewrite (mul_one x Hx), (IH HS).
Qed.

Lemma map_mul_zero S :
  forallb finite_sample S = true ->
  map (fun x => F32.mul x F32.pos_zero) S = map (fun x => S754_zero (sign_of x)) S.
Proof.
  induction S as [ | x S IH ]; [ reflexivity | ].
  cbn [forallb map]. intros [Hx HS]%andb_prop.
  now rewrite (mul_zero x Hx), (IH HS).
Qed.

End F32More.

(* ================================================================== *)
(** ** The native plugin, call by call *)
(* ================================================================== *)

Module NativeMoreFacts.

Import Abi Native NativeSpec NativeMore.
Local Open Scope string_scope.

Lemma native_clamp_in_range g : in_range g = true -> clamp g = g.
Proof.
  unfold in_range, F32.within, clamp. intros [Hlo Hhi]%andb_prop.
  rewrite (F32More.leb_not_ltb _ _ Hlo). cbv zeta iota.
  pose proof (F32More.leb_not_ltb _ _ Hhi) as Hgt.
  unfold F32.gtb, F32.ltb in *. now rewrite Hgt.
Qed.

Lemma native_plugin_log_exact a st level msg w :
  heap w !! a = Some st ->
  plugin_log (Npos a) level msg w
  = Ret (tt, {| heap := heap w; allocs := allocs w;
                logged := logged w ++ log_of st level msg; sent := sent w |}).
Proof.
  intros E. unfold plugin_log, log_of.
  rewrite (bind_ret _ _ _ _ _ (NativeFacts.native_load_live _ _ _ E)).
  destruct (log_cb st =? NULL)%N.
  - rewrite app_nil_r. now destruct w.
  - reflexivity.
Qed.

Section WithLibc.
Context {L : Libc}.

(** The world that update_params leaves. *)
Lemma native_update_params_exact a st params w :
  heap w !! a = Some st ->
  let st' := {| gain := parse_gain params; log_cb := log_cb st;
                log_user_data := log_user_data st |} in
  gain_update_params (Npos a) params w
  = Ret (CResult_success,
         {| heap := <[a := st']> (heap w); allocs := allocs w;
            logged := logged w ++
                      log_of st' LOG_LEVEL_INFO
                        (CStr.truncate 128
                           ("Updated gain: " ++ fmt_f 4 (gain st) ++ " -> "
                            ++ fmt_f 4 (parse_gain params)));
            sent := sent w |}).
Proof.
  intros E st'. unfold gain_update_params.
  change (Npos a =? NULL)%N with false. cbv iota.
  rewrite (bind_ret _ _ _ _ _ (NativeFacts.native_load_live _ _ _ E)).
  rewrite (bind_ret _ _ _ _ _ (NativeFacts.native_store_gain_live _ _ _ _ E)).
  fold st'.
  assert (Hlive : heap (set_heap (<[a := st']> (heap w)) w) !! a = Some st')
    by apply lookup_insert_eq.
  rewrite (bind_ret _ _ _ _ _ (NativeFacts.native_load_live _ _ _ Hlive)).
  rewrite (bind_ret _ _ _ _ _ (native_plugin_log_exact _ _ _ _ _ Hlive)).
  reflexivity.
Qed.

(** The world that create_instance leaves when the allocation succeeds. *)
Lemma native_create_instance_exact params cb ud w :
  memory_available w ->
  let a := fresh (dom (heap w)) in
  let init := {| gain := parse_gain params; log_cb := cb;
                 log_user_data := ud |} in
  gain_create_instance params cb ud w
  = Ret (Npos a,
         {| heap := <[a := init]> (heap w); allocs := tl (allocs w);
            logged := logged w ++
                      log_of init LOG_LEVEL_INFO
                        (CStr.truncate 128
                           ("Created gain plugin instance: gain="
                            ++ fmt_f 4 (parse_gain params)));
            sent := sent w |}).
Proof.
  intros Hmem a init.
  assert (Em : malloc_succeeds w
               = Ret (true, {| heap := heap w; allocs := tl (allocs w);
                               logged := logged w; sent := sent w |})).
  { unfold memory_available in Hmem. unfold malloc_succeeds.
    destruct w as [h [ | b rest ] lg sn]; simpl in *; [ reflexivity | now subst b ]. }
  unfold gain_create_instance, malloc_state.
  rewrite (bind_ret _ _ _ _ _ (bind_ret _ _ _ _ _ Em)).
  cbn [heap]. fold a. fold init.
  change (Npos a =? NULL)%N with false. cbv iota.
  set (w2 := set_heap _ _).
  assert (Hlive : heap w2 !! a = Some init) by apply lookup_insert_eq.
  rewrite (bind_ret _ _ _ _ _ (NativeFacts.native_load_live _ _ _ Hlive)).
  rewrite (bind_ret _ _ _ _ _ (native_plugin_log_exact _ _ _ _ _ Hlive)).
  reflexivity.
Qed.

End WithLibc.

(** The world that destroy_instance leaves. *)
Lemma native_destroy_instance_exact a st w :
  heap w !! a = Some st ->
  gain_destroy_instance (Npos a) w
  = Ret (tt, {| heap := delete a (heap w); allocs := allocs w;
                logged := logged w ++
                          log_of st LOG_LEVEL_INFO "Destroying gain plugin instance";
                sent := sent w |}).
Proof.
  intros E. unfold gain_destroy_instance.
  change (Npos a =? NULL)%N with false. cbv iota.
  rewrite (bind_ret _ _ _ _ _ (native_plugin_log_exact _ _ _ _ _ E)).
  unfold free. cbn [heap]. now rewrite E.
Qed.

Lemma native_state_of_live w handle st :
  state_of w handle = Some st ->
  exists a, handle = Npos a /\ heap w !! a = Some st.
Proof.
  unfold state_of. destruct handle as [ | a ]; [ discriminate | ].
  intros E. now exists a.
Qed.

Lemma native_load_dangling w a :
  heap w !! a = None -> load (Npos a) w = Fault DanglingPointer.
Proof. intros E. unfold load. now rewrite E. Qed.

(** The loop runs into the end of the input when it is asked for more
    samples than the array holds. *)
Lemma native_apply_gain_overrun w a st input capacity n :
  heap w !! a = Some st ->
  forall i out,
    (i <= length input)%nat ->
    (length input < i + n)%nat ->
    (N.of_nat (i + n) <= capacity)%N ->
    apply_gain n i (Npos a) input capacity out w = Fault OutOfBounds.
Proof.
  intros E. induction n as [ | n IH ]; intros i out Hi Hlen Hcap; [ lia | ].
  cbn [apply_gain].
  rewrite (bind_ret _ _ _ _ _ (NativeFacts.native_load_live _ _ _ E)).
  destruct (nth_error input i) as [x | ] eqn:Ex; [ | reflexivity ].
  assert ((capacity <=? N.of_nat i)%N = false) as -> by (apply N.leb_gt; lia).
  assert (i < length input)%nat by (apply nth_error_Some; congruence).
  apply IH; lia.
Qed.

End NativeMoreFacts.

(* ================================================================== *)
(** ** The component, call by call *)
(* ================================================================== *)

Module WasmMoreFacts.

Import Wasm WasmSpec WasmMore.
Local Open Scope string_scope.

(** A value inside the range passes the clamp unchanged. *)
Lemma wasm_clamp_within value lo hi :
  F32.within lo hi value = true -> clamp_f32 value lo hi = value.
Proof.
  unfold F32.within, clamp_f32. intros [Hlo Hhi]%andb_prop.
  rewrite (F32More.leb_not_ltb _ _ Hlo).
  pose proof (F32More.leb_not_ltb _ _ Hhi) as Hgt.
  unfold F32.gtb, F32.ltb in *. now rewrite Hgt.
Qed.

Lemma wasm_load_dangling w a :
  heap w !! a = None -> load (Npos a) w = Fault DanglingPointer.
Proof. intros E. unfold load. now rewrite E. Qed.

(** The world that cleanup leaves. *)
Lemma wasm_cleanup_exact a st w :
  heap w !! a = Some st ->
  exports_streamkit_plugin_node_method_node_instance_cleanup (Npos a) w
  = Ret (tt, {| heap := delete a (heap w); allocs := allocs w;
                resources := resources w;
                freed := freed w ++ [Npos a];
                logged := logged w ++
                          [ (LOG_LEVEL_INFO,
                             plugin_string_set "Gain filter instance shutting down") ];
                sent := sent w |}).
Proof.
  intros E. unfold exports_streamkit_plugin_node_method_node_instance_cleanup.
  unfold bind, streamkit_plugin_host_log, free. cbn [heap]. now rewrite E.
Qed.

Section WithLibc.
Context {L : Libc}.

(** The world that update_params leaves for a payload that is present and
    not empty. *)
Lemma wasm_update_params_exact a st maybe_params w :
  heap w !! a = Some st ->
  has_params maybe_params = true ->
  let db := requested_db maybe_params in
  exports_streamkit_plugin_node_method_node_instance_update_params
    (Npos a) maybe_params w
  = Ret ({| ok := true; err := None |},
         {| heap := <[a := {| gain_linear := db_to_linear db |}]> (heap w);
            allocs := allocs w; resources := resources w; freed := freed w;
            logged := logged w ++
                      [ (LOG_LEVEL_INFO,
                         plugin_string_set
                           (CStr.truncate 256
                              ("Gain updated via params: " ++ fmt_f 2 db
                               ++ "dB (linear: " ++ fmt_f 3 (db_to_linear db)
                               ++ ")"))) ];
            sent := sent w |}).
Proof.
  intros E Hp db.
  unfold exports_streamkit_plugin_node_method_node_instance_update_params.
  rewrite Hp. cbv iota. cbn [negb]. fold db.
  set (st' := {| gain_linear := db_to_linear db |}).
  set (w1 := set_heap (<[a := st']> (heap w)) w).
  assert (Hlive : heap w1 !! a = Some st') by apply lookup_insert_eq.
  assert (Es : store_gain_linear (Npos a) (db_to_linear db) w = Ret (tt, w1)).
  { unfold store_gain_linear.
    now rewrite (bind_ret _ _ _ _ _ (WasmFacts.wasm_load_live _ _ _ E)). }
  rewrite (bind_ret _ _ _ _ _ Es).
  rewrite (bind_ret _ _ _ _ _ (WasmFacts.wasm_load_live _ _ _ Hlive)).
  reflexivity.
Qed.

Lemma wasm_update_params_dangling a maybe_params w :
  heap w !! a = None ->
  has_params maybe_params = true ->
  exports_streamkit_plugin_node_method_node_instance_update_params
    (Npos a) maybe_params w = Fault DanglingPointer.
Proof.
  intros E Hp.
  unfold exports_streamkit_plugin_node_method_node_instance_update_params.
  rewrite Hp. cbv iota. cbn [negb].
  unfold store_gain_linear.
  now rewrite (bind_fault _ _ _ _ (bind_fault _ _ _ _ (wasm_load_dangling _ _ E))).
Qed.

(** The world that the constructor leaves when the allocation succeeds. *)
Lemma wasm_constructor_exact maybe_params w :
  memory_available w ->
  let a := fresh (dom (heap w)) in
  let db := constructor_db maybe_params in
  exports_streamkit_plugin_node_constructor_node_instance maybe_params w
  = Ret (N.of_nat (S (length (resources w))),
         {| heap := <[a := {| gain_linear := db_to_linear db |}]> (heap w);
            allocs := tl (allocs w);
            resources := resources w ++ [Npos a];
            freed := freed w;
            logged := logged w ++
                      [ (LOG_LEVEL_INFO,
                         plugin_string_set
                           (CStr.truncate 256
                              ("Gain filter instance constructed: " ++ fmt_f 2 db
                               ++ "dB (linear: " ++ fmt_f 3 (db_to_linear db)
                               ++ ")"))) ];
            sent := sent w |}).
Proof.
  intros Hmem a db.
  assert (Em : malloc_succeeds w
               = Ret (true, {| heap := heap w; allocs := tl (allocs w);
                               resources := resources w; freed := freed w;
                               logged := logged w; sent := sent w |})).
  { unfold memory_available in Hmem. unfold malloc_succeeds.
    destruct w as [h [ | b rest ] rs fr lg sn]; simpl in *;
      [ reflexivity | now subst b ]. }
  unfold exports_streamkit_plugin_node_constructor_node_instance, malloc_state.
  fold (constructor_db maybe_params). fold db.
  rewrite (bind_ret _ _ _ _ _ (bind_ret _ _ _ _ _ Em)).
  cbn [heap]. fold a.
  change (Npos a =? NULL)%N with false. cbv iota.
  set (w2 := set_heap _ _).
  assert (Hlive : heap w2 !! a = Some {| gain_linear := db_to_linear db |})
    by apply lookup_insert_eq.
  rewrite (bind_ret _ _ _ _ _ (WasmFacts.wasm_load_live _ _ _ Hlive)).
  reflexivity.
Qed.

(** The constructor when the allocation fails. *)
Lemma wasm_constructor_oom maybe_params w rest :
  allocs w = false :: rest ->
  exports_streamkit_plugin_node_constructor_node_instance maybe_params w
  = Ret (0%N, {| heap := heap w; allocs := rest; resources := resources w;
                 freed := freed w; logged := logged w; sent := sent w |}).
Proof.
  intros Ea.
  unfold exports_streamkit_plugin_node_constructor_node_instance,
    malloc_state, malloc_succeeds, bind.
  now rewrite Ea.
Qed.

Context {H : Host}.

Lemma wasm_process_dangling a input_pin audio w :
  heap w !! a = None ->
  exports_streamkit_plugin_node_method_node_instance_process
    (Npos a) input_pin (PACKET_AUDIO audio) w = Fault DanglingPointer.
Proof.
  intros E. unfold exports_streamkit_plugin_node_method_node_instance_process.
  unfold bind at 1. unfold streamkit_plugin_host_log at 1.
  apply bind_fault. unfold load. cbn [heap]. now rewrite E.
Qed.

End WithLibc.

End WasmMoreFacts.

(* ================================================================== *)
(** ** Truncated messages *)
(* ================================================================== *)

Lemma substring_length_le k :
  forall s, (String.length (String.substring 0 k s) <= k)%nat.
Proof.
  induction k as [ | k IH ]; intros [ | c s ]; simpl; try lia.
  specialize (IH s). lia.
Qed.

(** A message written by [snprintf] into a buffer of [size] bytes leaves
    room for the terminator. *)
Lemma truncate_length size s :
  (0 < size)%nat -> (String.length (CStr.truncate size s) < size)%nat.
Proof.
  intros Hs. unfold CStr.truncate.
  pose proof (substring_length_le (Nat.pred size) s). lia.
Qed.

(* ================================================================== *)
(** ** Further properties of the plugins *)
(* ================================================================== *)

Section Further.

Import Abi.
Local Open Scope string_scope.

Context (L : Libc) (H : Wasm.Host).

(** X1.  Native plugin: when the payload asks for a gain [g] inside
    [MIN_GAIN, MAX_GAIN], create_instance and update_params store exactly
    [g]: the clamp does not alter a value of the range. *)
Theorem X1_native_request_in_range_is_stored :
  forall params g,
    NativeSpec.classify params = Requests g ->
    NativeSpec.in_range g = true ->
    (forall log_callback log_user_data w,
        NativeSpec.memory_available w ->
        exists handle w',
          Native.gain_create_instance params log_callback log_user_data w
          = Ret (handle, w') /\
          handle <> NULL /\
          NativeSpec.gain_of w' handle = Some g) /\
    (forall handle w,
        NativeSpec.valid_handle w handle ->
        exists w',
          Native.gain_update_params handle params w
          = Ret (CResult_success, w') /\
          NativeSpec.gain_of w' handle = Some g).
Proof.
  intros params g Hc Hr.
  assert (Hparse : Native.parse_gain params = g).
  { rewrite NativeFacts.native_parse_gain_classify, Hc.
    now apply NativeMoreFacts.native_clamp_in_range. }
  split.
  - intros cb ud w Hmem.
    destruct (NativeFacts.native_create_instance_gain params cb ud w Hmem)
      as (handle & w' & E & Hnn & Hg & _).
    exists handle, w'. now rewrite <- Hparse.
  - intros handle w Hv.
    destruct (NativeFacts.native_update_params_gain handle params w Hv)
      as (w' & E & Hg & _).
    exists w'. now rewrite <- Hparse.
Qed.

(** X2.  clamp_f32, for any bounds: a value inside [min, max] is returned
    unchanged; the result is always the value or one of the two bounds; and
    when [min <= max] and the value is not a NaN, the result lies inside
    [min, max]. *)
Theorem X2_clamp_f32_behaviour :
  forall value lo hi,
    (F32.within lo hi value = true -> Wasm.clamp_f32 value lo hi = value) /\
    (Wasm.clamp_f32 value lo hi = value \/
     Wasm.clamp_f32 value lo hi = lo \/
     Wasm.clamp_f32 value lo hi = hi) /\
    (F32.leb lo hi = true -> F32.is_nan value = false ->
     F32.within lo hi (Wasm.clamp_f32 value lo hi) = true).
Proof.
  intros value lo hi. split; [ | split ].
  - apply WasmMoreFacts.wasm_clamp_within.
  - unfold Wasm.clamp_f32.
    destruct (F32.ltb value lo); [ now (right; left) | ].
    destruct (F32.gtb value hi); [ now (right; right) | now left ].
  - intros Hle Hn. destruct (F32More.leb_not_nan lo hi Hle) as [Hlo Hhi].
    unfold Wasm.clamp_f32, F32.within.
    destruct (F32.ltb value lo) eqn:Hlt.
    + now rewrite (F32More.leb_refl lo Hlo), Hle.
    + destruct (F32.gtb value hi) eqn:Hgt.
      * now rewrite Hle, (F32More.leb_refl hi Hhi).
      * rewrite (F32Facts.not_ltb_leb value lo Hn Hlo Hlt).
        now rewrite (F32Facts.not_gtb_leb value hi Hn Hhi Hgt).
Qed.

(** X3.  Component: when the payload asks for a gain [g] in dB inside
    [MIN_GAIN_DB, MAX_GAIN_DB], the constructor and update_params store the
    linear value of exactly [g]. *)
Theorem X3_wasm_request_in_range_is_stored :
  forall maybe_params g,
    WasmSpec.classify maybe_params = Requests g ->
    F32.within Wasm.MIN_GAIN_DB Wasm.MAX_GAIN_DB g = true ->
    (forall w,
        WasmSpec.memory_available w ->
        exists handle self w',
          Wasm.exports_streamkit_plugin_node_constructor_node_instance
            maybe_params w = Ret (handle, w') /\
          Wasm.rep_of w' handle = Some self /\
          WasmSpec.gain_of w' self = Some (Wasm.db_to_linear g)) /\
    (forall self w,
        WasmSpec.valid_instance w self ->
        exists w',
          Wasm.exports_streamkit_plugin_node_method_node_instance_update_params
            self maybe_params w
          = Ret ({| Wasm.ok := true; Wasm.err := None |}, w') /\
          WasmSpec.gain_of w' self = Some (Wasm.db_to_linear g)).
Proof.
  intros maybe_params g Hc Hr.
  pose proof (WasmMoreFacts.wasm_clamp_within g _ _ Hr) as Hclamp.
  pose proof (WasmFacts.wasm_has_params_classify maybe_params) as Hp.
  pose proof (WasmFacts.wasm_gain_db_classify maybe_params) as Hdb.
  rewrite Hc in Hp. rewrite Hp, Hc, Hclamp in Hdb.
  split.
  - intros w Hmem.
    destruct (WasmFacts.wasm_constructor_runs maybe_params w Hmem)
      as (handle & a & w' & E & _ & Hrep & Hh & _).
    exists handle, (Npos a), w'. split; [ exact E | ]. split; [ exact Hrep | ].
    unfold WasmSpec.gain_of. now rewrite Hh, Hc, Hclamp.
  - intros self w (a & st & -> & E)%WasmFacts.wasm_valid_instance_live.
    destruct (WasmFacts.wasm_update_params_runs a st maybe_params w E Hp)
      as (w' & Erun & Hh & _).
    exists w'. split; [ exact Erun | ].
    unfold WasmSpec.gain_of. now rewrite Hh, Hdb.
Qed.

(** X4.  The value that parse_gain returns is a NaN exactly when the
    payload's number is read as a NaN, and lies in [MIN_GAIN, MAX_GAIN] in
    every other case; likewise the clamped dB value of the component is a NaN
    exactly when the payload's number is, and lies in
    [MIN_GAIN_DB, MAX_GAIN_DB] otherwise. *)
Theorem X4_parsed_gain_is_in_range_or_nan :
  (forall params,
      (Native.parse_gain params = F32.nan <->
       NativeSpec.classify params = Requests F32.nan) /\
      (Native.parse_gain params <> F32.nan ->
       NativeSpec.in_range (Native.parse_gain params) = true))
  /\
  (forall maybe_params,
      (WasmMore.constructor_db maybe_params = F32.nan <->
       WasmSpec.classify maybe_params = Requests F32.nan) /\
      (WasmMore.constructor_db maybe_params <> F32.nan ->
       F32.within Wasm.MIN_GAIN_DB Wasm.MAX_GAIN_DB
                  (WasmMore.constructor_db maybe_params) = true)).
Proof.
  split.
  - intros params.
    destruct (NativeFacts.native_parse_gain_range params) as [Hr | [Hc Hn]].
    + split; [ split | now intros _ ].
      * intros Hn. rewrite Hn in Hr. discriminate.
      * intros Hc. rewrite NativeFacts.native_parse_gain_classify, Hc in Hr.
        discriminate.
    + split; [ now split | intros Hne; now contradiction Hne ].
  - intros maybe_params. unfold WasmMore.constructor_db.
    rewrite WasmFacts.wasm_gain_db_classify.
    destruct (WasmSpec.classify maybe_params) as [ | | | | g ];
      try (split; [ split; discriminate | reflexivity ]).
    destruct (WasmFacts.wasm_clamp_range_or_nan g) as [Hr | Hn].
    + split; [ split | now intros _ ].
      * intros Hn. rewrite Hn in Hr. discriminate.
      * intros [= ->]. rewrite WasmFacts.wasm_clamp_nan in Hr. discriminate.
    + split; [ split; [ | now intros _ ] | intros Hne; now contradiction Hne ].
      intros _. f_equal.
      destruct (F32.is_nan g) eqn:Hg; [ now destruct g | ].
      pose proof (WasmFacts.wasm_clamp_range g Hg) as Hr.
      rewrite Hn in Hr. discriminate.
Qed.

(** X5.  In every state reached by create and any sequence of process and
    update_params calls, the handle still refers to a live instance, and its
    gain lies in the declared range unless it is a NaN (native: the gain in
    [MIN_GAIN, MAX_GAIN]; component: the linear value of a dB number in
    [MIN_GAIN_DB, MAX_GAIN_DB]). *)
Theorem X5_reachable_instances_stay_valid :
  (forall handle w,
      NativeSpec.reachable handle w ->
      NativeSpec.valid_handle w handle /\
      exists g, NativeSpec.gain_of w handle = Some g /\
                (NativeSpec.in_range g = true \/ g = F32.nan))
  /\
  (forall self w,
      WasmSpec.reachable self w ->
      WasmSpec.valid_instance w self /\
      exists db, WasmSpec.gain_of w self = Some (Wasm.db_to_linear db) /\
                 (F32.within Wasm.MIN_GAIN_DB Wasm.MAX_GAIN_DB db = true \/
                  db = F32.nan)).
Proof.
  split.
  - intros handle w Hreach.
    destruct (NativeFacts.native_gain_in_range_or_nan handle w Hreach)
      as (g & Hg & Hr).
    split; [ | now exists g ].
    unfold NativeSpec.valid_handle. now rewrite Hg.
  - intros self w Hreach.
    destruct (WasmFacts.wasm_gain_db_in_range_or_nan self w Hreach)
      as (db & Hg & Hr).
    split; [ | now exists db ].
    unfold WasmSpec.valid_instance. now rewrite Hg.
Qed.

(** X6.  update_params changes the gain of its own instance and nothing
    else: the logging callback and its user data stay as they were given at
    creation, every other instance keeps its state, and nothing is sent or
    allocated.  In the component the same holds for a payload that is present
    and not empty: only the instance at [self] changes. *)
Theorem X6_update_params_touches_one_gain :
  (forall w handle params st,
      NativeMore.state_of w handle = Some st ->
      exists w',
        Native.gain_update_params handle params w
        = Ret (CResult_success, w') /\
        NativeMore.state_of w' handle
        = Some {| Native.gain := Native.parse_gain params;
                  Native.log_cb := Native.log_cb st;
                  Native.log_user_data := Native.log_user_data st |} /\
        (forall other, other <> handle ->
                       NativeMore.state_of w' other = NativeMore.state_of w other) /\
        Native.sent w' = Native.sent w /\
        Native.allocs w' = Native.allocs w)
  /\
  (forall w self maybe_params st,
      WasmMore.state_of w self = Some st ->
      Wasm.has_params maybe_params = true ->
      exists w',
        Wasm.exports_streamkit_plugin_node_method_node_instance_update_params
          self maybe_params w
        = Ret ({| Wasm.ok := true; Wasm.err := None |}, w') /\
        (forall other, other <> self ->
                       WasmMore.state_of w' other = WasmMore.state_of w other) /\
        Wasm.sent w' = Wasm.sent w /\
        Wasm.allocs w' = Wasm.allocs w /\
        Wasm.resources w' = Wasm.resources w /\
        Wasm.freed w' = Wasm.freed w).
Proof.
  split.
  - intros w handle params st (a & -> & E)%NativeMoreFacts.native_state_of_live.
    eexists. split; [ apply (NativeMoreFacts.native_update_params_exact a st params w E) | ].
    cbn [NativeMore.state_of Native.heap Native.sent Native.allocs].
    split; [ apply lookup_insert_eq | ]. split; [ | now split ].
    intros [ | b ] Hne; [ reflexivity | ].
    apply lookup_insert_ne. congruence.
  - intros w self maybe_params st Hst Hp.
    destruct self as [ | a ]; [ discriminate | ]. cbn in Hst.
    eexists.
    split; [ apply (WasmMoreFacts.wasm_update_params_exact a st maybe_params w Hst Hp) | ].
    cbn [WasmMore.state_of Wasm.heap Wasm.sent Wasm.allocs Wasm.resources Wasm.freed].
    split; [ | now repeat split ].
    intros [ | b ] Hne; [ reflexivity | ].
    apply lookup_insert_ne. congruence.
Qed.

Ltac native_call_failed :=
  intros [= <- <-];
  split; [ reflexivity | split; [ reflexivity | left; split; reflexivity ] ].

Ltac wasm_call_failed :=
  intros [= <- <- <-];
  split; [ reflexivity | ]; split; [ reflexivity | ]; split; [ reflexivity | ];
  left; split; [ reflexivity | split; reflexivity ].

(** X7.  Whatever process is called with, when it returns it has changed
    no instance state, and it has sent at most one packet: either nothing was
    sent and the call failed, or exactly one packet was sent, on the output
    pin "out" that the metadata declares and of the type declared for it,
    and (native) the result is the one the output callback gave for it. *)
Theorem X7_process_sends_at_most_once :
  (forall handle input_pin packet output_callback callback_data w result w',
      Native.gain_process_packet handle input_pin packet
                                 output_callback callback_data w
      = Ret (result, w') ->
      Native.heap w' = Native.heap w /\
      Native.logged w' = Native.logged w /\
      ((Native.sent w' = Native.sent w /\ success result = false) \/
       exists output,
         Native.sent w' =
           (Native.sent w ++ [ {| Native.send_pin := "out";
                                  Native.send_packet := output;
                                  Native.send_data := callback_data |} ])%list /\
         result = output_callback "out" output callback_data /\
         NativeMore.declares_output "out" (packet_type output) = true))
  /\
  (forall self input_pin packet w result packet' w',
      Wasm.exports_streamkit_plugin_node_method_node_instance_process
        self input_pin packet w = Ret ((result, packet'), w') ->
      Wasm.heap w' = Wasm.heap w /\
      Wasm.resources w' = Wasm.resources w /\
      Wasm.freed w' = Wasm.freed w /\
      ((Wasm.sent w' = Wasm.sent w /\ Wasm.ok result = false /\ packet' = packet) \/
       (Wasm.sent w' =
          (Wasm.sent w ++ [ (Wasm.plugin_string_set "out", packet') ])%list /\
        WasmMore.declares_output (Wasm.plugin_string_set "out") packet' = true))).
Proof.
  split.
  - intros handle input_pin packet cb cbdata w result w'.
    unfold Native.gain_process_packet.
    destruct (handle =? NULL)%N; [ native_call_failed | ].
    destruct (negb _); [ native_call_failed | ].
    destruct (data packet) as [ | frame | | | ]; try discriminate;
      [ native_call_failed | ].
    destruct (samples frame) as [input | ]; [ | native_call_failed ].
    intros (ok & w1 & Em & E)%bind_inv.
    assert (Hw1 : Native.heap w1 = Native.heap w /\
                  Native.logged w1 = Native.logged w /\
                  Native.sent w1 = Native.sent w).
    { revert Em. unfold Native.malloc_succeeds.
      destruct (Native.allocs w); now intros [= _ <-]. }
    destruct Hw1 as (Hh & Hl & Hs).
    destruct ok.
    + apply bind_inv in E. destruct E as (out & w2 & Ea & E).
      apply NativeFacts.native_apply_gain_world in Ea. subst w2.
      apply bind_inv in E. destruct E as (r & w3 & Eo & E).
      injection E as <- <-. injection Eo as <- <-.
      cbn [Native.heap Native.logged Native.sent].
      split; [ exact Hh | ]. split; [ exact Hl | ].
      right. eexists. split; [ now rewrite Hs | ]. now split.
    + injection E as <- <-.
      split; [ exact Hh | ]. split; [ exact Hl | ]. left. now split.
  - intros self input_pin packet w result packet' w'.
    unfold Wasm.exports_streamkit_plugin_node_method_node_instance_process.
    unfold bind at 1. unfold Wasm.streamkit_plugin_host_log at 1.
    destruct packet as [audio | | | | ]; try wasm_call_failed.
    intros (st & w1 & El & E)%bind_inv.
    unfold Wasm.load in El. destruct self as [ | a ]; [ discriminate | ].
    cbn [Wasm.heap] in El. destruct (Wasm.heap w !! a); [ | discriminate ].
    injection El as _ <-. revert E.
    destruct (Wasm.streamkit_plugin_host_send_output _ _) as [[ | ] send_err];
      unfold bind, Wasm.streamkit_plugin_host_log, ret;
      intros [= <- <- <-]; cbn [Wasm.heap Wasm.resources Wasm.freed Wasm.sent];
      (split; [ reflexivity | ]); (split; [ reflexivity | ]);
      (split; [ reflexivity | ]); right; now split.
Qed.

(** X8.  destroy_instance on a null handle does nothing.  On a live
    instance it logs the line "Destroying gain plugin instance" to the
    instance's callback if there is one, frees the state, so that the handle
    no longer refers to an instance, keeps every other instance, and sends
    nothing. *)
Theorem X8_destroy_releases_the_instance :
  (forall w, Native.gain_destroy_instance NULL w = Ret (tt, w))
  /\
  (forall w handle st,
      NativeMore.state_of w handle = Some st ->
      exists w',
        Native.gain_destroy_instance handle w = Ret (tt, w') /\
        NativeMore.state_of w' handle = None /\
        (forall other, other <> handle ->
                       NativeMore.state_of w' other = NativeMore.state_of w other) /\
        Native.logged w' =
          (Native.logged w ++
           NativeMore.log_of st LOG_LEVEL_INFO "Destroying gain plugin instance")%list /\
        Native.sent w' = Native.sent w).
Proof.
  split; [ reflexivity | ].
  intros w handle st (a & -> & E)%NativeMoreFacts.native_state_of_live.
  eexists. split; [ apply (NativeMoreFacts.native_destroy_instance_exact a st w E) | ].
  cbn [NativeMore.state_of Native.heap Native.sent Native.logged].
  split; [ apply lookup_delete_eq | ]. split; [ | now split ].
  intros [ | b ] Hne; [ reflexivity | ].
  apply lookup_delete_ne. congruence.
Qed.

(** X9.  When the allocation succeeds, create_instance returns a handle
    that referred to no instance before, stores the logging callback and its
    user data in the new state, and leaves every existing instance as it
    was. *)
Theorem X9_create_adds_one_instance :
  forall params log_callback log_user_data w,
    NativeSpec.memory_available w ->
    exists handle w',
      Native.gain_create_instance params log_callback log_user_data w
      = Ret (handle, w') /\
      NativeMore.state_of w handle = None /\
      NativeMore.state_of w' handle
      = Some {| Native.gain := Native.parse_gain params;
                Native.log_cb := log_callback;
                Native.log_user_data := log_user_data |} /\
      (forall other, other <> handle ->
                     NativeMore.state_of w' other = NativeMore.state_of w other) /\
      Native.sent w' = Native.sent w.
Proof.
  intros params cb ud w Hmem.
  do 2 eexists.
  split; [ apply (NativeMoreFacts.native_create_instance_exact params cb ud w Hmem) | ].
  cbn [NativeMore.state_of Native.heap Native.sent].
  split; [ apply not_elem_of_dom, is_fresh | ].
  split; [ apply lookup_insert_eq | ]. split; [ | reflexivity ].
  intros [ | b ] Hne; [ reflexivity | ].
  apply lookup_insert_ne. congruence.
Qed.

(** X10.  Through the exported table: its version is the API version of
    the header, and the life of one instance, create_instance, then
    process_packet on a RawAudio packet, then destroy_instance, sends exactly
    one packet (the samples scaled by the parsed gain), returns what the
    output callback returned, and ends with the same live instance states as
    before: the state that create_instance allocated is released by
    destroy_instance, and no other instance is touched. *)
Theorem X10_table_life_cycle :
  NativeApi.version NativeApi.streamkit_native_plugin_api
  = STREAMKIT_NATIVE_PLUGIN_API_VERSION /\
  forall params log_callback log_user_data input_pin packet rate chans S
         output_callback callback_data w,
    NativeSpec.memory_available w ->
    hd true (tl (Native.allocs w)) = true ->
    NativeSpec.carries packet rate chans S ->
    let api := NativeApi.streamkit_native_plugin_api in
    let output := NativeSpec.scaled_packet rate chans S (Native.parse_gain params) in
    exists handle w1 w2 w3,
      NativeApi.create_instance api params log_callback log_user_data w
      = Ret (handle, w1) /\
      NativeApi.process_packet api handle input_pin packet
                               output_callback callback_data w1
      = Ret (output_callback "out" output callback_data, w2) /\
      NativeApi.destroy_instance api handle w2 = Ret (tt, w3) /\
      Native.sent w3 =
        (Native.sent w ++ [ {| Native.send_pin := "out";
                               Native.send_packet := output;
                               Native.send_data := callback_data |} ])%list /\
      Native.heap w3 = Native.heap w.
Proof.
  split; [ reflexivity | ].
  intros params cb ud input_pin packet rate chans S out_cb cbdata w Hmem Hmem2 Hc
         api output.
  cbn [api NativeApi.streamkit_native_plugin_api NativeApi.g_plugin_api
         NativeApi.create_instance NativeApi.process_packet
         NativeApi.destroy_instance].
  pose proof (NativeMoreFacts.native_create_instance_exact params cb ud w Hmem) as Ec.
  cbv zeta in Ec.
  set (a := fresh (dom (Native.heap w))) in *.
  set (init := {| Native.gain := Native.parse_gain params; Native.log_cb := cb;
                  Native.log_user_data := ud |}) in *.
  match type of Ec with _ = Ret (_, ?x) => set (w1 := x) in * end.
  assert (H1 : Native.heap w1 !! a = Some init) by apply lookup_insert_eq.
  destruct (NativeFacts.native_process_packet_runs a init input_pin packet rate
              chans S out_cb cbdata w1 H1 Hc Hmem2) as (w2 & Ep & Hs2 & Hh2).
  assert (H2 : Native.heap w2 !! a = Some init) by now rewrite Hh2.
  pose proof (NativeMoreFacts.native_destroy_instance_exact a init w2 H2) as Ed.
  exists (Npos a), w1, w2. eexists.
  split; [ exact Ec | ]. split; [ exact Ep | ]. split; [ exact Ed | ].
  cbn [Native.sent Native.heap]. split; [ now rewrite Hs2 | ].
  rewrite Hh2. unfold w1. cbn [Native.heap].
  apply delete_insert_id, not_elem_of_dom, is_fresh.
Qed.

(** X11.  Nothing guards a released instance.  After destroy_instance the
    handle points to freed memory: update_params, a second destroy_instance,
    and process_packet on a packet with at least one sample (once its output
    buffer is allocated) read it.  After the component's cleanup, process on
    an audio packet and update_params with a present payload read the freed
    state, and a second cleanup frees it twice. *)
Theorem X11_calls_after_release_are_undefined :
  (forall w handle st,
      NativeMore.state_of w handle = Some st ->
      exists w',
        Native.gain_destroy_instance handle w = Ret (tt, w') /\
        (forall params,
            Native.gain_update_params handle params w' = Fault DanglingPointer) /\
        Native.gain_destroy_instance handle w' = Fault DanglingPointer /\
        (forall input_pin packet rate chans S output_callback callback_data,
            NativeSpec.carries packet rate chans S ->
            S <> [] ->
            NativeSpec.memory_available w ->
            Native.gain_process_packet handle input_pin packet
                                       output_callback callback_data w'
            = Fault DanglingPointer))
  /\
  (forall w self st,
      WasmMore.state_of w self = Some st ->
      exists w',
        Wasm.exports_streamkit_plugin_node_method_node_instance_cleanup self w
        = Ret (tt, w') /\
        (forall input_pin audio,
            Wasm.exports_streamkit_plugin_node_method_node_instance_process
              self input_pin (Wasm.PACKET_AUDIO audio) w'
            = Fault DanglingPointer) /\
        (forall maybe_params,
            Wasm.has_params maybe_params = true ->
            Wasm.exports_streamkit_plugin_node_method_node_instance_update_params
              self maybe_params w' = Fault DanglingPointer) /\
        Wasm.exports_streamkit_plugin_node_method_node_instance_cleanup self w'
        = Fault DoubleFree).
Proof.
  split.
  - intros w handle st (a & -> & E)%NativeMoreFacts.native_state_of_live.
    eexists. split; [ apply (NativeMoreFacts.native_destroy_instance_exact a st w E) | ].
    match goal with |- context [ Native.gain_update_params _ _ ?x ] => set (w' := x) end.
    assert (Hgone : Native.heap w' !! a = None) by apply lookup_delete_eq.
    pose proof (NativeMoreFacts.native_load_dangling w' a Hgone) as Hload.
    split; [ | split ].
    + intros params. unfold Native.gain_update_params.
      change (Npos a =? NULL)%N with false. cbv iota.
      now apply bind_fault.
    + unfold Native.gain_destroy_instance, Native.plugin_log.
      change (Npos a =? NULL)%N with false. cbv iota.
      now apply bind_fault, bind_fault.
    + intros input_pin packet rate chans S cb cbdata (Htype & Hdata & Hsize) Hne Hmem.
      assert (Hmem' : NativeSpec.memory_available w') by exact Hmem.
      destruct (NativeFacts.native_malloc_succeeds_available w' Hmem')
        as (w1 & E1 & Hh1 & _).
      unfold Native.gain_process_packet.
      change (Npos a =? NULL)%N with false. cbv iota.
      rewrite Htype, Hdata.
      cbn [CPacketType_eqb negb samples sample_count sample_rate channels].
      rewrite (bind_ret _ _ _ _ _ E1).
      destruct S as [ | x S ]; [ now contradiction Hne | ].
      rewrite Nat2N.id. cbn [length Native.apply_gain].
      apply bind_fault, bind_fault. unfold Native.load. now rewrite Hh1, Hgone.
  - intros w self st Hst.
    destruct self as [ | a ]; [ discriminate | ]. cbn in Hst.
    eexists. split; [ apply (WasmMoreFacts.wasm_cleanup_exact a st w Hst) | ].
    match goal with
    | |- context [ Wasm.exports_streamkit_plugin_node_method_node_instance_cleanup _ ?x ] =>
        set (w' := x)
    end.
    assert (Hgone : Wasm.heap w' !! a = None) by apply lookup_delete_eq.
    split; [ | split ].
    + intros input_pin audio. now apply WasmMoreFacts.wasm_process_dangling.
    + intros maybe_params Hp. now apply WasmMoreFacts.wasm_update_params_dangling.
    + unfold Wasm.exports_streamkit_plugin_node_method_node_instance_cleanup.
      unfold bind, Wasm.streamkit_plugin_host_log, Wasm.free.
      cbn [Wasm.heap]. fold w'. now rewrite Hgone.
Qed.

(** X12.  When malloc fails: create_instance returns the null handle and
    leaves no state and no log line behind; process_packet on a RawAudio
    packet with a non-null samples pointer returns the failed result "Failed
    to allocate output buffer" without calling the output callback; and the
    component's constructor returns the zero handle and registers no
    resource. *)
Theorem X12_failed_allocation_is_reported :
  (forall params log_callback log_user_data w rest,
      Native.allocs w = false :: rest ->
      Native.gain_create_instance params log_callback log_user_data w
      = Ret (NULL, {| Native.heap := Native.heap w; Native.allocs := rest;
                      Native.logged := Native.logged w;
                      Native.sent := Native.sent w |}))
  /\
  (forall handle input_pin rate chans input count output_callback callback_data
          w rest,
      handle <> NULL ->
      Native.allocs w = false :: rest ->
      Native.gain_process_packet
        handle input_pin (NativeMore.audio_packet rate chans (Some input) count)
        output_callback callback_data w
      = Ret (CResult_error "Failed to allocate output buffer",
             {| Native.heap := Native.heap w; Native.allocs := rest;
                Native.logged := Native.logged w;
                Native.sent := Native.sent w |}))
  /\
  (forall maybe_params w rest,
      Wasm.allocs w = false :: rest ->
      Wasm.exports_streamkit_plugin_node_constructor_node_instance maybe_params w
      = Ret (0%N, {| Wasm.heap := Wasm.heap w; Wasm.allocs := rest;
                     Wasm.resources := Wasm.resources w;
                     Wasm.freed := Wasm.freed w;
                     Wasm.logged := Wasm.logged w;
                     Wasm.sent := Wasm.sent w |})).
Proof.
  split; [ | split ].
  - intros params cb ud w rest Ea.
    unfold Native.gain_create_instance, Native.malloc_state,
      Native.malloc_succeeds, bind.
    now rewrite Ea.
  - intros handle input_pin rate chans input count cb cbdata w rest Hnn Ea.
    unfold Native.gain_process_packet.
    destruct handle as [ | a ]; [ now contradiction Hnn | ].
    change (Npos a =? NULL)%N with false. cbv iota.
    cbn [NativeMore.audio_packet packet_type data CPacketType_eqb negb samples].
    unfold Native.malloc_succeeds, bind. now rewrite Ea.
  - apply WasmMoreFacts.wasm_constructor_oom.
Qed.

(** X13.  process_packet takes the number of samples from the frame's
    sample_count, not from the array.  With a live instance, an allocated
    output buffer and a byte size that fits size_t: when the array holds at
    least sample_count samples, exactly the first sample_count of them are
    scaled and sent; when it holds fewer, the loop reads past its end. *)
Theorem X13_process_follows_sample_count :
  forall w handle st input_pin rate chans input count
         output_callback callback_data,
    NativeMore.state_of w handle = Some st ->
    NativeSpec.memory_available w ->
    (count * sizeof_float < SIZE_MODULUS)%N ->
    let packet := NativeMore.audio_packet rate chans (Some input) count in
    let output :=
      NativeMore.audio_packet
        rate chans
        (Some (map (fun x => F32.mul x (Native.gain st))
                   (firstn (N.to_nat count) input)))
        count in
    ((N.to_nat count <= length input)%nat ->
     exists w',
       Native.gain_process_packet handle input_pin packet
                                  output_callback callback_data w
       = Ret (output_callback "out" output callback_data, w') /\
       Native.sent w' =
         (Native.sent w ++ [ {| Native.send_pin := "out";
                                Native.send_packet := output;
                                Native.send_data := callback_data |} ])%list) /\
    ((length input < N.to_nat count)%nat ->
     Native.gain_process_packet handle input_pin packet
                                output_callback callback_data w
     = Fault OutOfBounds).
Proof.
  intros w handle st input_pin rate chans input count cb cbdata
         (a & -> & E)%NativeMoreFacts.native_state_of_live Hmem Hsize packet output.
  destruct (NativeFacts.native_malloc_succeeds_available w Hmem)
    as (w1 & E1 & Hh & Hs & _).
  assert (E' : Native.heap w1 !! a = Some st) by now rewrite Hh.
  assert (Hrun : forall k : list f32 -> Native.world -> outcome (CResult * Native.world),
             Native.gain_process_packet (Npos a) input_pin packet cb cbdata w
             = bind (Native.apply_gain (N.to_nat count) 0 (Npos a) input count [])
                    (fun out w2 =>
                       bind (Native.host_output cb "out"
                               (NativeMore.audio_packet rate chans (Some out) count)
                               cbdata)
                            (fun result => ret result) w2) w1).
  { intros _. unfold Native.gain_process_packet.
    change (Npos a =? NULL)%N with false. cbv iota.
    cbn [packet NativeMore.audio_packet packet_type data CPacketType_eqb negb
           samples sample_count sample_rate channels].
    rewrite (bind_ret _ _ _ _ _ E1).
    rewrite N.mod_small by exact Hsize.
    rewrite N.div_mul by discriminate. reflexivity. }
  rewrite (Hrun (fun _ _ => Fault OutOfBounds)). split.
  - intros Hlen.
    erewrite bind_ret.
    2:{ apply (NativeFacts.native_apply_gain_runs w1 a st input count (N.to_nat count) E');
          [ simpl; lia | simpl; rewrite N2Nat.id; lia ]. }
    cbn [skipn app]. eexists. split; [ reflexivity | ].
    cbn [Native.sent]. now rewrite Hs.
  - intros Hlen. apply bind_fault.
    apply (NativeMoreFacts.native_apply_gain_overrun w1 a st input count
             (N.to_nat count) E'); [ lia | simpl; lia | simpl; rewrite N2Nat.id; lia ].
Qed.

(** X14.  Unity gain passes audio through.  With the gain at 1.0, the
    default of both plugins, process sends the samples of the input as they
    are, for samples that are valid binary32 values. *)
Theorem X14_unity_gain_is_transparent :
  (forall w handle input_pin packet rate chans S output_callback callback_data,
      NativeSpec.gain_of w handle = Some Native.DEFAULT_GAIN ->
      NativeSpec.carries packet rate chans S ->
      NativeSpec.memory_available w ->
      forallb valid_sample S = true ->
      exists result w',
        Native.gain_process_packet handle input_pin packet
                                   output_callback callback_data w
        = Ret (result, w') /\
        Native.sent w' =
          (Native.sent w ++
           [ {| Native.send_pin := "out";
                Native.send_packet :=
                  NativeMore.audio_packet rate chans (Some S)
                                          (N.of_nat (length S));
                Native.send_data := callback_data |} ])%list)
  /\
  (forall w self input_pin audio,
      WasmSpec.gain_of w self = Some (F32.of_Z 1) ->
      forallb valid_sample (Wasm.samples audio) = true ->
      exists result w',
        Wasm.exports_streamkit_plugin_node_method_node_instance_process
          self input_pin (Wasm.PACKET_AUDIO audio) w
        = Ret ((result, Wasm.PACKET_AUDIO audio), w') /\
        Wasm.sent w' =
          (Wasm.sent w ++
           [ (Wasm.plugin_string_set "out", Wasm.PACKET_AUDIO audio) ])%list).
Proof.
  split.
  - intros w handle input_pin packet rate chans S cb cbdata Hg Hc Hmem Hvalid.
    unfold NativeSpec.gain_of in Hg.
    destruct handle as [ | a ]; [ discriminate | ].
    destruct (Native.heap w !! a) as [st | ] eqn:E; [ | discriminate ].
    injection Hg as Hg.
    destruct (NativeFacts.native_process_packet_runs a st input_pin packet rate
                chans S cb cbdata w E Hc Hmem) as (w' & Erun & Hs & _).
    eexists _, w'. split; [ exact Erun | ].
    rewrite Hs. unfold NativeSpec.scaled_packet, NativeMore.audio_packet.
    rewrite Hg. change Native.DEFAULT_GAIN with (F32.of_Z 1).
    now rewrite (F32More.map_mul_one S Hvalid).
  - intros w self input_pin audio Hg Hvalid.
    unfold WasmSpec.gain_of in Hg.
    destruct self as [ | a ]; [ discriminate | ].
    destruct (Wasm.heap w !! a) as [st | ] eqn:E; [ | discriminate ].
    assert (Hg' : Wasm.gain_linear st = F32.of_Z 1)
      by exact (f_equal (fun o => match o with Some x => x | None => F32.nan end) Hg).
    clear Hg. rename Hg' into Hg.
    destruct (WasmFacts.wasm_process_runs a st input_pin audio w E)
      as (w' & Erun & Hs & _).
    assert (Hsame : WasmSpec.scaled_packet audio (Wasm.gain_linear st)
                    = Wasm.PACKET_AUDIO audio).
    { unfold WasmSpec.scaled_packet. rewrite Hg.
      rewrite (F32More.map_mul_one _ Hvalid). destruct audio. reflexivity. }
    rewrite Hsame in Erun, Hs. eexists _, w'.
    split; [ exact Erun | exact Hs ].
Qed.

(** X15.  Gain 0.0 mutes.  With the gain at the minimum 0.0 of the native
    plugin, every sample that is a zero or a finite number is sent as a zero
    of the same sign. *)
Theorem X15_zero_gain_mutes :
  forall w handle input_pin packet rate chans S output_callback callback_data,
    NativeSpec.gain_of w handle = Some Native.MIN_GAIN ->
    NativeSpec.carries packet rate chans S ->
    NativeSpec.memory_available w ->
    forallb finite_sample S = true ->
    exists result w',
      Native.gain_process_packet handle input_pin packet
                                 output_callback callback_data w
      = Ret (result, w') /\
      Native.sent w' =
        (Native.sent w ++
         [ {| Native.send_pin := "out";
              Native.send_packet :=
                NativeMore.audio_packet
                  rate chans
                  (Some (map (fun x => S754_zero (sign_of x)) S))
                  (N.of_nat (length S));
              Native.send_data := callback_data |} ])%list.
Proof.
  intros w handle input_pin packet rate chans S cb cbdata Hg Hc Hmem Hfinite.
  unfold NativeSpec.gain_of in Hg.
  destruct handle as [ | a ]; [ discriminate | ].
  destruct (Native.heap w !! a) as [st | ] eqn:E; [ | discriminate ].
  injection Hg as Hg.
  destruct (NativeFacts.native_process_packet_runs a st input_pin packet rate
              chans S cb cbdata w E Hc Hmem) as (w' & Erun & Hs & _).
  eexists _, w'. split; [ exact Erun | ].
  rewrite Hs. unfold NativeSpec.scaled_packet, NativeMore.audio_packet.
  rewrite Hg. change Native.MIN_GAIN with F32.pos_zero.
  now rewrite (F32More.map_mul_zero S Hfinite).
Qed.

(** X16.  The gain is tunable at run time: after update_params, the next
    process call scales with the newly parsed gain (native), or with the
    linear value of the newly clamped dB gain when the payload is present and
    not empty (component). *)
Theorem X16_process_uses_the_updated_gain :
  (forall w handle st params input_pin packet rate chans S
          output_callback callback_data,
      NativeMore.state_of w handle = Some st ->
      NativeSpec.memory_available w ->
      NativeSpec.carries packet rate chans S ->
      let output :=
        NativeSpec.scaled_packet rate chans S (Native.parse_gain params) in
      exists w1 w2,
        Native.gain_update_params handle params w
        = Ret (CResult_success, w1) /\
        Native.gain_process_packet handle input_pin packet
                                   output_callback callback_data w1
        = Ret (output_callback "out" output callback_data, w2) /\
        Native.sent w2 =
          (Native.sent w ++ [ {| Native.send_pin := "out";
                                 Native.send_packet := output;
                                 Native.send_data := callback_data |} ])%list)
  /\
  (forall w self st maybe_params input_pin audio,
      WasmMore.state_of w self = Some st ->
      Wasm.has_params maybe_params = true ->
      let output :=
        WasmSpec.scaled_packet
          audio (Wasm.db_to_linear (Wasm.requested_db maybe_params)) in
      exists w1 result w2,
        Wasm.exports_streamkit_plugin_node_method_node_instance_update_params
          self maybe_params w
        = Ret ({| Wasm.ok := true; Wasm.err := None |}, w1) /\
        Wasm.exports_streamkit_plugin_node_method_node_instance_process
          self input_pin (Wasm.PACKET_AUDIO audio) w1
        = Ret ((result, output), w2) /\
        Wasm.sent w2 =
          (Wasm.sent w ++ [ (Wasm.plugin_string_set "out", output) ])%list).
Proof.
  split.
  - intros w handle st params input_pin packet rate chans S cb cbdata
           (a & -> & E)%NativeMoreFacts.native_state_of_live Hmem Hc output.
    pose proof (NativeMoreFacts.native_update_params_exact a st params w E) as Eu.
    cbv zeta in Eu.
    match type of Eu with _ = Ret (_, ?x) => set (w1 := x) in * end.
    assert (E1 : Native.heap w1 !! a
                 = Some {| Native.gain := Native.parse_gain params;
                           Native.log_cb := Native.log_cb st;
                           Native.log_user_data := Native.log_user_data st |})
      by apply lookup_insert_eq.
    assert (Hmem1 : NativeSpec.memory_available w1) by exact Hmem.
    destruct (NativeFacts.native_process_packet_runs a _ input_pin packet rate
                chans S cb cbdata w1 E1 Hc Hmem1) as (w2 & Ep & Hs & _).
    exists w1, w2. split; [ exact Eu | ]. split; [ exact Ep | exact Hs ].
  - intros w self st maybe_params input_pin audio Hst Hp output.
    destruct self as [ | a ]; [ discriminate | ]. cbn in Hst.
    pose proof (WasmMoreFacts.wasm_update_params_exact a st maybe_params w Hst Hp)
      as Eu.
    cbv zeta in Eu.
    match type of Eu with _ = Ret (_, ?x) => set (w1 := x) in * end.
    assert (E1 : Wasm.heap w1 !! a
                 = Some {| Wasm.gain_linear :=
                             Wasm.db_to_linear (Wasm.requested_db maybe_params) |})
      by apply lookup_insert_eq.
    destruct (WasmFacts.wasm_process_runs a _ input_pin audio w1 E1)
      as (w2 & Ep & Hs & _).
    exists w1. eexists _, w2.
    split; [ exact Eu | ]. split; [ exact Ep | exact Hs ].
Qed.

(** X17.  Instances of the component are independent: two constructions in
    a row give two different handles for two different states, the first
    handle still leads to the first state, and the second construction leaves
    the gain of the first instance as it was. *)
Theorem X17_constructed_instances_are_distinct :
  forall first_params second_params w,
    WasmSpec.memory_available w ->
    hd true (tl (Wasm.allocs w)) = true ->
    exists handle1 self1 w1 handle2 self2 w2,
      Wasm.exports_streamkit_plugin_node_constructor_node_instance
        first_params w = Ret (handle1, w1) /\
      Wasm.rep_of w1 handle1 = Some self1 /\
      Wasm.exports_streamkit_plugin_node_constructor_node_instance
        second_params w1 = Ret (handle2, w2) /\
      Wasm.rep_of w2 handle2 = Some self2 /\
      Wasm.rep_of w2 handle1 = Some self1 /\
      handle1 <> handle2 /\
      self1 <> self2 /\
      WasmMore.state_of w2 self1 = WasmMore.state_of w1 self1 /\
      WasmMore.state_of w1 self1 <> None.
Proof.
  intros p1 p2 w Hmem Hmem2.
  pose proof (WasmMoreFacts.wasm_constructor_exact p1 w Hmem) as E1.
  cbv zeta in E1.
  match type of E1 with _ = Ret (_, ?x) => set (w1 := x) in * end.
  assert (Hmem1 : WasmSpec.memory_available w1) by exact Hmem2.
  pose proof (WasmMoreFacts.wasm_constructor_exact p2 w1 Hmem1) as E2.
  cbv zeta in E2.
  match type of E2 with _ = Ret (_, ?x) => set (w2 := x) in * end.
  set (a1 := fresh (dom (Wasm.heap w))) in *.
  set (a2 := fresh (dom (Wasm.heap w1))) in *.
  assert (Hrep : forall rs (p : ptr) more,
             Wasm.rep_of {| Wasm.heap := ∅; Wasm.allocs := [];
                            Wasm.resources := (rs ++ p :: more)%list;
                            Wasm.freed := []; Wasm.logged := [];
                            Wasm.sent := [] |}
                         (N.of_nat (S (length rs))) = Some p).
  { intros rs p more. unfold Wasm.rep_of. cbn [Wasm.resources].
    rewrite Nat2N.inj_succ.
    destruct (N.succ _) eqn:En; [ now apply N.neq_succ_0 in En | ].
    rewrite <- En, N.pred_succ, Nat2N.id.
    rewrite nth_error_app2 by lia. now rewrite Nat.sub_diag. }
  assert (Hne : a1 <> a2).
  { intros Heq. apply (is_fresh (dom (Wasm.heap w1))). fold a2. rewrite <- Heq.
    unfold w1. cbn [Wasm.heap]. rewrite dom_insert_L. set_solver. }
  exists (N.of_nat (S (length (Wasm.resources w)))), (Npos a1), w1,
         (N.of_nat (S (length (Wasm.resources w1)))), (Npos a2), w2.
  split; [ exact E1 | ].
  split; [ exact (Hrep (Wasm.resources w) (Npos a1) []) | ].
  split; [ exact E2 | ].
  split; [ exact (Hrep (Wasm.resources w1) (Npos a2) []) | ].
  split.
  { unfold w2, w1. unfold Wasm.rep_of. cbn [Wasm.resources].
    rewrite <- app_assoc. exact (Hrep (Wasm.resources w) (Npos a1) [Npos a2]). }
  split.
  { unfold w1. cbn [Wasm.resources]. rewrite length_app. cbn [length]. lia. }
  split; [ congruence | ].
  split.
  - unfold w2. cbn [WasmMore.state_of Wasm.heap].
    apply lookup_insert_ne. congruence.
  - unfold w1. cbn [WasmMore.state_of Wasm.heap].
    now rewrite lookup_insert_eq.
Qed.

(** X18.  What create_instance and update_params log: nothing when the
    instance has no logging callback; otherwise exactly one line, at level
    INFO and with target "gain_plugin_c", passed to the callback of the
    instance with its user data, and short enough for the 128-byte buffer
    it is formatted in. *)
Theorem X18_native_log_lines :
  (forall params log_callback log_user_data w,
      NativeSpec.memory_available w ->
      exists handle w' lines,
        Native.gain_create_instance params log_callback log_user_data w
        = Ret (handle, w') /\
        Native.logged w' = (Native.logged w ++ lines)%list /\
        (log_callback = NULL -> lines = []) /\
        (log_callback <> NULL ->
         exists msg,
           lines = [ {| Native.log_fn := log_callback;
                        Native.log_level := LOG_LEVEL_INFO;
                        Native.log_target := "gain_plugin_c";
                        Native.log_message := msg;
                        Native.log_data := log_user_data |} ] /\
           (String.length msg < 128)%nat))
  /\
  (forall w handle st params,
      NativeMore.state_of w handle = Some st ->
      exists w' lines,
        Native.gain_update_params handle params w
        = Ret (CResult_success, w') /\
        Native.logged w' = (Native.logged w ++ lines)%list /\
        (Native.log_cb st = NULL -> lines = []) /\
        (Native.log_cb st <> NULL ->
         exists msg,
           lines = [ {| Native.log_fn := Native.log_cb st;
                        Native.log_level := LOG_LEVEL_INFO;
                        Native.log_target := "gain_plugin_c";
                        Native.log_message := msg;
                        Native.log_data := Native.log_user_data st |} ] /\
           (String.length msg < 128)%nat)).
Proof.
  assert (Hlog : forall cb ud g msg,
             let st := {| Native.gain := g; Native.log_cb := cb;
                          Native.log_user_data := ud |} in
             let lines := NativeMore.log_of st LOG_LEVEL_INFO (CStr.truncate 128 msg) in
             (cb = NULL -> lines = []) /\
             (cb <> NULL ->
              exists m,
                lines = [ {| Native.log_fn := cb;
                             Native.log_level := LOG_LEVEL_INFO;
                             Native.log_target := "gain_plugin_c";
                             Native.log_message := m;
                             Native.log_data := ud |} ] /\
                (String.length m < 128)%nat)).
  { intros cb ud g msg st lines. unfold lines, NativeMore.log_of, st.
    cbn [Native.log_cb Native.log_user_data].
    destruct (N.eqb_spec cb NULL) as [-> | Hne].
    - split; [ reflexivity | intros Hc; now contradiction Hc ].
    - split; [ intros Hc; now contradiction Hne | ].
      intros _. eexists. split; [ reflexivity | ].
      apply truncate_length. lia. }
  split.
  - intros params cb ud w Hmem.
    do 3 eexists.
    split; [ apply (NativeMoreFacts.native_create_instance_exact params cb ud w Hmem) | ].
    cbn [Native.logged]. split; [ reflexivity | ]. apply Hlog.
  - intros w handle st params (a & -> & E)%NativeMoreFacts.native_state_of_live.
    do 2 eexists.
    split; [ apply (NativeMoreFacts.native_update_params_exact a st params w E) | ].
    cbn [Native.logged]. split; [ reflexivity | ].
    apply (Hlog (Native.log_cb st) (Native.log_user_data st)).
Qed.

End Further.

(* ================================================================== *)
(** ** The further properties on concrete inputs *)
(* ================================================================== *)

(** X1 on an instance with gain 1.0 and a payload that asks for 2.0. *)
Lemma X1_witness :
  exists w',
    Native.gain_update_params (L := RefLibc.libc) 1%N
      (Some (Demo.object "gain" "2.0")) (Demo.native_with (Demo.lit "1.0"))
    = Ret (Abi.CResult_success, w') /\
    NativeSpec.gain_of w' 1%N = Some (Demo.lit "2.0").
Proof.
  apply (proj2 (X1_native_request_in_range_is_stored
                  RefLibc.libc (Some (Demo.object "gain" "2.0")) (Demo.lit "2.0")
                  ltac:(vm_compute; reflexivity) ltac:(vm_compute; reflexivity))).
  vm_compute. discriminate.
Defined.

(** X2 on the bounds of the component: 6 dB passes, 99 dB ends in range. *)
Lemma X2_witness :
  Wasm.clamp_f32 (Demo.lit "6.0") Wasm.MIN_GAIN_DB Wasm.MAX_GAIN_DB
  = Demo.lit "6.0" /\
  F32.within Wasm.MIN_GAIN_DB Wasm.MAX_GAIN_DB
             (Wasm.clamp_f32 (Demo.lit "99") Wasm.MIN_GAIN_DB Wasm.MAX_GAIN_DB)
  = true.
Proof.
  split.
  - apply (proj1 (X2_clamp_f32_behaviour (Demo.lit "6.0")
                    Wasm.MIN_GAIN_DB Wasm.MAX_GAIN_DB)).
    vm_compute. reflexivity.
  - apply (proj2 (proj2 (X2_clamp_f32_behaviour (Demo.lit "99")
                           Wasm.MIN_GAIN_DB Wasm.MAX_GAIN_DB)));
      vm_compute; reflexivity.
Defined.

(** X3 on an instance of the component and a payload that asks for -20 dB. *)
Lemma X3_witness :
  exists w',
    Wasm.exports_streamkit_plugin_node_method_node_instance_update_params
      (L := RefLibc.libc) 1%N
      (Some (Demo.text_of (Demo.object "gain_db" "-20.0")))
      (Demo.wasm_with (Demo.lit "2.0"))
    = Ret ({| Wasm.ok := true; Wasm.err := None |}, w') /\
    WasmSpec.gain_of w' 1%N
    = Some (Wasm.db_to_linear (L := RefLibc.libc) (Demo.lit "-20.0")).
Proof.
  apply (proj2 (X3_wasm_request_in_range_is_stored
                  RefLibc.libc
                  (Some (Demo.text_of (Demo.object "gain_db" "-20.0")))
                  (Demo.lit "-20.0")
                  ltac:(vm_compute; reflexivity) ltac:(vm_compute; reflexivity))).
  vm_compute. discriminate.
Defined.

(** X4 on a payload that asks for 7.5. *)
Lemma X4_witness :
  NativeSpec.in_range
    (Native.parse_gain (L := RefLibc.libc) (Some (Demo.object "gain" "7.5")))
  = true.
Proof.
  apply (proj2 (proj1 (X4_parsed_gain_is_in_range_or_nan RefLibc.libc)
                  (Some (Demo.object "gain" "7.5")))).
  vm_compute. discriminate.
Defined.

(** X5 on the instance that create_instance makes from a payload asking
    for 7.5. *)
Lemma X5_witness :
  exists w,
    Native.gain_create_instance (L := RefLibc.libc)
      (Some (Demo.object "gain" "7.5")) 1%N 0%N Demo.native_world
    = Ret (1%N, w) /\
    NativeSpec.valid_handle w 1%N.
Proof.
  eexists.
  assert (E : Native.gain_create_instance (L := RefLibc.libc)
                (Some (Demo.object "gain" "7.5")) 1%N 0%N Demo.native_world
              = Ret (1%N, _)) by (vm_compute; reflexivity).
  split; [ exact E | ].
  apply (proj1 (X5_reachable_instances_stay_valid
                  RefLibc.libc Demo.accepting_host)).
  apply (NativeSpec.reach_create _ _ _ _ _ _ E). discriminate.
Defined.

(** X6 on an instance whose gain is 2.0. *)
Lemma X6_witness :
  exists w',
    Native.gain_update_params (L := RefLibc.libc) 1%N
      (Some (Demo.object "gain" "0.5")) (Demo.native_with (Demo.lit "2.0"))
    = Ret (Abi.CResult_success, w') /\
    NativeMore.state_of w' 1%N
    = Some {| Native.gain := Demo.lit "0.5"; Native.log_cb := 1%N;
              Native.log_user_data := 0%N |} /\
    Native.sent w' = [].
Proof.
  destruct (proj1 (X6_update_params_touches_one_gain RefLibc.libc)
              (Demo.native_with (Demo.lit "2.0")) 1%N
              (Some (Demo.object "gain" "0.5"))
              {| Native.gain := Demo.lit "2.0"; Native.log_cb := 1%N;
                 Native.log_user_data := 0%N |} eq_refl)
    as (w' & E & Hst & _ & Hs & _).
  exists w'. split; [ exact E | ]. split; [ exact Hst | exact Hs ].
Defined.

(** X7 on a call that succeeds. *)
Lemma X7_witness :
  exists result w',
    Native.gain_process_packet 1%N "in" (Demo.mono Demo.four_samples)
                               Demo.accept_output 0%N
                               (Demo.native_with (Demo.lit "2.0"))
    = Ret (result, w') /\
    Native.heap w' = Native.heap (Demo.native_with (Demo.lit "2.0")).
Proof.
  do 2 eexists.
  assert (E : Native.gain_process_packet 1%N "in" (Demo.mono Demo.four_samples)
                Demo.accept_output 0%N (Demo.native_with (Demo.lit "2.0"))
              = Ret (_, _)) by (vm_compute; reflexivity).
  split; [ exact E | ].
  exact (proj1 (proj1 (X7_process_sends_at_most_once
                         RefLibc.libc Demo.accepting_host)
                  _ _ _ _ _ _ _ _ E)).
Defined.

(** X8 on an instance whose gain is 2.0. *)
Lemma X8_witness :
  exists w',
    Native.gain_destroy_instance 1%N (Demo.native_with (Demo.lit "2.0"))
    = Ret (tt, w') /\
    NativeMore.state_of w' 1%N = None.
Proof.
  destruct (proj2 X8_destroy_releases_the_instance
              (Demo.native_with (Demo.lit "2.0")) 1%N
              {| Native.gain := Demo.lit "2.0"; Native.log_cb := 1%N;
                 Native.log_user_data := 0%N |} eq_refl)
    as (w' & E & Hgone & _).
  now exists w'.
Defined.

(** X9 in a world that already has an instance. *)
Lemma X9_witness :
  exists handle w',
    Native.gain_create_instance (L := RefLibc.libc)
      (Some (Demo.object "gain" "0.5")) 1%N 0%N
      (Demo.native_with (Demo.lit "2.0"))
    = Ret (handle, w') /\
    NativeMore.state_of (Demo.native_with (Demo.lit "2.0")) handle = None /\
    (handle <> 1%N ->
     NativeSpec.gain_of w' 1%N = Some (Demo.lit "2.0")).
Proof.
  destruct (X9_create_adds_one_instance
              RefLibc.libc (Some (Demo.object "gain" "0.5")) 1%N 0%N
              (Demo.native_with (Demo.lit "2.0")) eq_refl)
    as (handle & w' & E & Hnew & _ & Hothers & _).
  exists handle, w'. split; [ exact E | ]. split; [ exact Hnew | ].
  intros Hne.
  assert (Hst : NativeMore.state_of w' 1%N
                = NativeMore.state_of (Demo.native_with (Demo.lit "2.0")) 1%N)
    by (apply Hothers; congruence).
  unfold NativeSpec.gain_of. unfold NativeMore.state_of in Hst. now rewrite Hst.
Defined.

(** X10 on the end-to-end scenario: gain 2.0 and the four samples. *)
Lemma X10_witness :
  exists handle w1 w2 w3,
    NativeApi.create_instance
      (NativeApi.streamkit_native_plugin_api (L := RefLibc.libc))
      (Some (Demo.object "gain" "2.0")) 1%N 0%N Demo.native_world
    = Ret (handle, w1) /\
    NativeApi.process_packet
      (NativeApi.streamkit_native_plugin_api (L := RefLibc.libc))
      handle "in" (Demo.mono Demo.four_samples) Demo.accept_output 0%N w1
    = Ret (Abi.CResult_success, w2) /\
    NativeApi.destroy_instance
      (NativeApi.streamkit_native_plugin_api (L := RefLibc.libc)) handle w2
    = Ret (tt, w3) /\
    Native.heap w3 = ∅.
Proof.
  destruct (proj2 (X10_table_life_cycle RefLibc.libc)
              (Some (Demo.object "gain" "2.0")) 1%N 0%N "in"%string
              (Demo.mono Demo.four_samples) 48000%N 1%N Demo.four_samples
              Demo.accept_output 0%N Demo.native_world
              eq_refl eq_refl (conj eq_refl (conj eq_refl eq_refl)))
    as (handle & w1 & w2 & w3 & Ec & Ep & Ed & _ & Hh).
  exists handle, w1, w2, w3. now repeat split.
Defined.

(** X11 on an instance of each plugin. *)
Lemma X11_witness :
  (exists w',
      Native.gain_destroy_instance 1%N (Demo.native_with (Demo.lit "2.0"))
      = Ret (tt, w') /\
      Native.gain_destroy_instance 1%N w' = Fault DanglingPointer)
  /\
  (exists w',
      Wasm.exports_streamkit_plugin_node_method_node_instance_cleanup
        1%N (Demo.wasm_with (Demo.lit "2.0")) = Ret (tt, w') /\
      Wasm.exports_streamkit_plugin_node_method_node_instance_cleanup 1%N w'
      = Fault DoubleFree).
Proof.
  split.
  - destruct (proj1 (X11_calls_after_release_are_undefined
                       RefLibc.libc Demo.accepting_host)
                (Demo.native_with (Demo.lit "2.0")) 1%N
                {| Native.gain := Demo.lit "2.0"; Native.log_cb := 1%N;
                   Native.log_user_data := 0%N |} eq_refl)
      as (w' & E & _ & Hd & _).
    now exists w'.
  - destruct (proj2 (X11_calls_after_release_are_undefined
                       RefLibc.libc Demo.accepting_host)
                (Demo.wasm_with (Demo.lit "2.0")) 1%N
                {| Wasm.gain_linear := Demo.lit "2.0" |} eq_refl)
      as (w' & E & _ & _ & Hd).
    now exists w'.
Defined.

(** X12 in a world whose next malloc fails. *)
Lemma X12_witness :
  Native.gain_create_instance (L := RefLibc.libc) None 1%N 0%N
    {| Native.heap := ∅; Native.allocs := [false];
       Native.logged := []; Native.sent := [] |}
  = Ret (NULL, Demo.native_world).
Proof.
  apply (proj1 (X12_failed_allocation_is_reported RefLibc.libc)
           None 1%N 0%N
           {| Native.heap := ∅; Native.allocs := [false];
              Native.logged := []; Native.sent := [] |} []).
  reflexivity.
Defined.

(** X13 on an array of four samples: a sample count of two sends the first
    two, a sample count of nine overruns the array. *)
Lemma X13_witness :
  (exists w',
      Native.gain_process_packet
        1%N "in" (NativeMore.audio_packet 48000 1 (Some Demo.four_samples) 2)
        Demo.accept_output 0%N (Demo.native_with (Demo.lit "2.0"))
      = Ret (Abi.CResult_success, w') /\
      Demo.sent_samples w' = [ Some [Demo.lit "0.2"; Demo.lit "-0.4"] ])
  /\
  Native.gain_process_packet
    1%N "in" (NativeMore.audio_packet 48000 1 (Some Demo.four_samples) 9)
    Demo.accept_output 0%N (Demo.native_with (Demo.lit "2.0"))
  = Fault OutOfBounds.
Proof.
  split.
  - destruct (proj1 (X13_process_follows_sample_count
                       (Demo.native_with (Demo.lit "2.0")) 1%N
                       {| Native.gain := Demo.lit "2.0"; Native.log_cb := 1%N;
                          Native.log_user_data := 0%N |}
                       "in"%string 48000%N 1%N Demo.four_samples 2%N
                       Demo.accept_output 0%N eq_refl eq_refl eq_refl))
      as (w' & E & Hs).
    + vm_compute. lia.
    + exists w'. split; [ exact E | ].
      unfold Demo.sent_samples. rewrite Hs. reflexivity.
  - apply (proj2 (X13_process_follows_sample_count
                    (Demo.native_with (Demo.lit "2.0")) 1%N
                    {| Native.gain := Demo.lit "2.0"; Native.log_cb := 1%N;
                       Native.log_user_data := 0%N |}
                    "in"%string 48000%N 1%N Demo.four_samples 9%N
                    Demo.accept_output 0%N eq_refl eq_refl eq_refl)).
    vm_compute. lia.
Defined.

(** X14 on the four samples and an instance with the default gain. *)
Lemma X14_witness :
  exists result w',
    Native.gain_process_packet 1%N "in" (Demo.mono Demo.four_samples)
                               Demo.accept_output 0%N
                               (Demo.native_with Native.DEFAULT_GAIN)
    = Ret (result, w') /\
    Demo.sent_samples w' = [ Some Demo.four_samples ].
Proof.
  destruct (proj1 (X14_unity_gain_is_transparent RefLibc.libc Demo.accepting_host)
              (Demo.native_with Native.DEFAULT_GAIN) 1%N "in"%string
              (Demo.mono Demo.four_samples) 48000%N 1%N Demo.four_samples
              Demo.accept_output 0%N
              eq_refl (conj eq_refl (conj eq_refl eq_refl)) eq_refl eq_refl)
    as (result & w' & E & Hs).
  exists result, w'. split; [ exact E | ].
  unfold Demo.sent_samples. rewrite Hs. reflexivity.
Defined.

(** X15 on the four samples and an instance with gain 0.0. *)
Lemma X15_witness :
  exists result w',
    Native.gain_process_packet 1%N "in" (Demo.mono Demo.four_samples)
                               Demo.accept_output 0%N
                               (Demo.native_with Native.MIN_GAIN)
    = Ret (result, w') /\
    Demo.sent_samples w'
    = [ Some [S754_zero false; S754_zero true; S754_zero false; S754_zero false] ].
Proof.
  destruct (X15_zero_gain_mutes
              (Demo.native_with Native.MIN_GAIN) 1%N "in"%string
              (Demo.mono Demo.four_samples) 48000%N 1%N Demo.four_samples
              Demo.accept_output 0%N
              eq_refl (conj eq_refl (conj eq_refl eq_refl)) eq_refl eq_refl)
    as (result & w' & E & Hs).
  exists result, w'. split; [ exact E | ].
  unfold Demo.sent_samples. rewrite Hs. reflexivity.
Defined.

(** X16 on an instance with gain 1.0 that is tuned to 2.0. *)
Lemma X16_witness :
  exists w1 w2,
    Native.gain_update_params (L := RefLibc.libc) 1%N
      (Some (Demo.object "gain" "2.0")) (Demo.native_with (Demo.lit "1.0"))
    = Ret (Abi.CResult_success, w1) /\
    Native.gain_process_packet 1%N "in" (Demo.mono Demo.four_samples)
                               Demo.accept_output 0%N w1
    = Ret (Abi.CResult_success, w2) /\
    Demo.sent_samples w2
    = [ Some [Demo.lit "0.2"; Demo.lit "-0.4"; Demo.lit "0.6"; Demo.lit "0.0"] ].
Proof.
  destruct (proj1 (X16_process_uses_the_updated_gain
                     RefLibc.libc Demo.accepting_host)
              (Demo.native_with (Demo.lit "1.0")) 1%N
              {| Native.gain := Demo.lit "1.0"; Native.log_cb := 1%N;
                 Native.log_user_data := 0%N |}
              (Some (Demo.object "gain" "2.0")) "in"%string
              (Demo.mono Demo.four_samples) 48000%N 1%N Demo.four_samples
              Demo.accept_output 0%N
              eq_refl eq_refl (conj eq_refl (conj eq_refl eq_refl)))
    as (w1 & w2 & Eu & Ep & Hs).
  exists w1, w2. split; [ exact Eu | ]. split; [ exact Ep | ].
  unfold Demo.sent_samples. rewrite Hs. vm_compute. reflexivity.
Defined.

(** X17 from the empty world of the component. *)
Lemma X17_witness :
  exists handle1 self1 w1 handle2 self2 w2,
    Wasm.exports_streamkit_plugin_node_constructor_node_instance
      (L := RefLibc.libc) None Demo.wasm_world = Ret (handle1, w1) /\
    Wasm.rep_of w1 handle1 = Some self1 /\
    Wasm.exports_streamkit_plugin_node_constructor_node_instance
      (L := RefLibc.libc)
      (Some (Demo.text_of (Demo.object "gain_db" "20"))) w1
    = Ret (handle2, w2) /\
    Wasm.rep_of w2 handle2 = Some self2 /\
    handle1 <> handle2 /\ self1 <> self2.
Proof.
  destruct (X17_constructed_instances_are_distinct
              RefLibc.libc None
              (Some (Demo.text_of (Demo.object "gain_db" "20")))
              Demo.wasm_world eq_refl eq_refl)
    as (h1 & s1 & w1 & h2 & s2 & w2 & E1 & R1 & E2 & R2 & _ & Hh & Hs & _).
  exists h1, s1, w1, h2, s2, w2. now repeat split.
Defined.

(** X18 on a creation with a logging callback. *)
Lemma X18_witness :
  exists handle w' msg,
    Native.gain_create_instance (L := RefLibc.libc)
      (Some (Demo.object "gain" "2.0")) 1%N 7%N Demo.native_world
    = Ret (handle, w') /\
    Native.logged w'
    = [ {| Native.log_fn := 1%N; Native.log_level := Abi.LOG_LEVEL_INFO;
           Native.log_target := "gain_plugin_c"; Native.log_message := msg;
           Native.log_data := 7%N |} ] /\
    (String.length msg < 128)%nat.
Proof.
  destruct (proj1 (X18_native_log_lines RefLibc.libc)
              (Some (Demo.object "gain" "2.0")) 1%N 7%N Demo.native_world
              eq_refl)
    as (handle & w' & lines & E & Hl & _ & Hsome).
  destruct Hsome as (msg & -> & Hlen); [ discriminate | ].
  exists handle, w', msg. split; [ exact E | ]. split; [ exact Hl | exact Hlen ].
Defined.
